(** * XEO.Plane: the grid tessellation and its reactive properties

    A shallow embedding of [src/extras/geometry/plane.js].

    Numbers.  A JavaScript number is [NaN] or the rational it denotes.
    The arithmetic of [_buildGrid] rounds every result to the nearest
    double and a store into a [Float32Array] rounds to the nearest single
    ([to_double], [to_float32]); the setters only compare, choose and
    negate, which is exact.  The infinities (overflow) and negative zero
    are outside the model.  Variables of the source that only ever hold
    integers (segment counts after [Math.floor], loop counters, vertex
    indices, buffer offsets) are integers here.

    Allocation.  Whether a typed array of a given length can be had is up
    to the engine, which is a parameter ([Engine]); a constructor that is
    refused throws a [RangeError].

    State.  The component and the host services it calls ([this.warn],
    [this.fire], [scene.once]) are threaded explicitly through a [World];
    a tick either returns or throws, and leaves a [World] either way. *)

From Stdlib Require Import ZArith QArith Qround Qabs Qpower Lia Lqa String.
From stdpp Require Import base list.

#[local] Open Scope Z_scope.

(** ** JavaScript values *)

Inductive number : Type :=
| NaN
| Fin (q : Q).

Inductive value : Type :=
| undefined
| Num (n : number).

Definition of_Z (z : Z) : number := Fin (inject_Z z).
Definition of_nat (n : nat) : number := of_Z (Z.of_nat n).

Definition ToNumber (v : value) : number :=
  match v with
  | undefined => NaN
  | Num n => n
  end.

(** Truthiness: [undefined], [NaN] and zero are falsy. *)
Definition ToBoolean (v : value) : bool :=
  match v with
  | undefined => false
  | Num NaN => false
  | Num (Fin q) => negb (Qeq_bool q 0)
  end.

(** [a === b]; [NaN] is not equal to itself. *)
Definition strict_eq (a b : value) : bool :=
  match a, b with
  | undefined, undefined => true
  | Num (Fin p), Num (Fin q) => Qeq_bool p q
  | _, _ => false
  end.

(** [a < b] on numbers; any comparison with [NaN] is false. *)
Definition num_lt (a b : number) : bool :=
  match a, b with
  | Fin p, Fin q => negb (Qle_bool q p)
  | _, _ => false
  end.

Definition js_lt (a b : value) : bool := num_lt (ToNumber a) (ToNumber b).
Definition js_gt (a b : value) : bool := num_lt (ToNumber b) (ToNumber a).

(** [a || b] *)
Definition js_or (a b : value) : value := if ToBoolean a then a else b.

(** The exact product, difference and quotient.  The setters multiply by
    -1 only, which is exact in doubles as well ([sign_flip_exact] below);
    [_buildGrid] rounds ([double_mul] and the like below). *)
Definition num_mul (a b : number) : number :=
  match a, b with
  | Fin p, Fin q => Fin (p * q)
  | _, _ => NaN
  end.

Definition num_sub (a b : number) : number :=
  match a, b with
  | Fin p, Fin q => Fin (p - q)
  | _, _ => NaN
  end.

Definition num_neg (a : number) : number :=
  match a with
  | Fin p => Fin (- p)
  | NaN => NaN
  end.

(** A zero divisor would produce an infinity (or [NaN] for 0/0), which the
    model does not have; [_buildGrid] only divides by 2, by 3 and by the
    grid dimensions, which are never zero ([grid_nonzero] below). *)
Definition num_div (a b : number) : number :=
  match a, b with
  | Fin p, Fin q => if Qeq_bool q 0 then NaN else Fin (p / q)
  | _, _ => NaN
  end.

(** ** IEEE 754 rounding

    Every arithmetic operation of [_buildGrid] yields the exact result
    rounded to the nearest double, ties to the even significand, and a
    [Float32Array] element holds the value stored rounded in the same way
    to single precision.  [round prec emin] is this rounding for a format
    of [prec] significand bits whose least positive value is [2 ^ emin].
    It never overflows: where IEEE arithmetic gives an infinity, for a
    result beyond [max_double] (or [max_float32] for a stored element),
    the model has no value to give, and the statements about such results
    take them to be in range. *)

(** The exponent of a positive rational: [2 ^ e <= a < 2 ^ (e + 1)]. *)
Definition ilog2 (a : Q) : Z :=
  let e0 := Z.log2 (Qnum a) - Z.log2 (Zpos (Qden a)) in
  if Qle_bool (2 ^ e0) a then e0 else e0 - 1.

(** The nearest integer, ties to the even one. *)
Definition rne (t : Q) : Z :=
  let f := Qfloor t in
  match (t - inject_Z f ?= 1 # 2)%Q with
  | Lt => f
  | Gt => f + 1
  | Eq => if Z.even f then f else f + 1
  end.

(** A positive [a] rounded to a multiple of its unit in the last place. *)
Definition round_pos (prec emin : Z) (a : Q) : Q :=
  let x := Z.max (ilog2 a - (prec - 1)) emin in
  (inject_Z (rne (a / 2 ^ x)) * 2 ^ x)%Q.

Definition round (prec emin : Z) (q : Q) : Q :=
  let q := Qred q in
  Qred match (q ?= 0)%Q with
       | Eq => 0%Q
       | Gt => round_pos prec emin q
       | Lt => (- round_pos prec emin (- q))%Q
       end.

(** binary64 and binary32 *)
Definition to_double : Q -> Q := round 53 (-1074).
Definition to_float32 : Q -> Q := round 24 (-149).

(** The largest finite double and single. *)
Definition max_double : Q := (inject_Z (2 ^ 53 - 1) * 2 ^ 971)%Q.
Definition max_float32 : Q := (inject_Z (2 ^ 24 - 1) * 2 ^ 104)%Q.

(** The rationals that are doubles: every number a program can hold. *)
Definition is_double (q : Q) : Prop := (to_double q == q)%Q.

(** The double an operation yields when its exact result is [n]. *)
Definition double (n : number) : number :=
  match n with
  | NaN => NaN
  | Fin q => Fin (to_double q)
  end.

(** [a * b], [a - b] and [a / b] as [_buildGrid] computes them. *)
Definition double_mul (a b : number) : number := double (num_mul a b).
Definition double_sub (a b : number) : number := double (num_sub a b).
Definition double_div (a b : number) : number := double (num_div a b).

(** What a [Float32Array] element holds once [n] has been stored in it. *)
Definition float32_element (n : number) : number :=
  match n with
  | NaN => NaN
  | Fin q => Fin (to_float32 q)
  end.

(** Numbers whose store into a [Float32Array] does not overflow. *)
Definition in_float32_range (n : number) : Prop :=
  match n with
  | NaN => True
  | Fin q => (Qabs q <= max_float32)%Q
  end.

(** Exact results that a double operation does not turn into an infinity. *)
Definition in_double_range (q : Q) : Prop := (Qabs q <= max_double)%Q.

Arguments to_double : simpl never.
Arguments to_float32 : simpl never.

(** [Math.floor]: an integer, or [None] for [NaN]. *)
Definition Math_floor (n : number) : option Z :=
  match n with
  | NaN => None
  | Fin q => Some (Qfloor q)
  end.

(** [n < k] for an integer-or-NaN [n]. *)
Definition int_lt (n : option Z) (k : Z) : bool :=
  match n with
  | Some z => z <? k
  | None => false
  end.

(** [n || k] for an integer-or-NaN [n]: zero and [NaN] are falsy. *)
Definition int_or (n : option Z) (k : Z) : Z :=
  match n with
  | Some z => if z =? 0 then k else z
  | None => k
  end.

(** Numbers that denote the same rational. *)
Definition num_equiv (a b : number) : Prop :=
  match a, b with
  | NaN, NaN => True
  | Fin p, Fin q => (p == q)%Q
  | _, _ => False
  end.

(** ** Typed arrays *)

Inductive result (A : Type) : Type :=
| Ok (a : A)
| RangeError.
Arguments Ok {A} a.
Arguments RangeError {A}.

Definition bind {A B : Type} (r : result A) (k : A -> result B) : result B :=
  match r with
  | Ok a => k a
  | RangeError => RangeError
  end.

Notation "'let*' x ':=' r 'in' k" := (bind r (fun x => k))
  (at level 10, x name, r at level 100, k at level 200).

Inductive IndexType : Type :=
| Uint16Array
| Uint32Array.

(** The four places where [_buildGrid] constructs a typed array (lines
    93, 94, 95 and 123). *)
Inductive site : Type :=
| Positions
| Normals
| Uvs
| Indices (t : IndexType).

(** The engine's allocator, which the file relies on and does not
    contain: [E s len] tells whether the engine can provide the array of
    [len] elements asked for at [s].  It is a parameter of the build; each
    tick may meet a different one. *)
Definition Engine : Type := site -> Z -> bool.

(** The longest typed array the language allows, [2^53 - 1] elements. *)
Definition max_length : Z := 2 ^ 53 - 1.

(** A typed-array constructor returns when the length is an integer from
    0 to [max_length] and the engine provides the array; otherwise it
    throws a [RangeError].  The lengths are products of integers that the
    code computes in doubles: a product of at most [max_length] is exact
    there, and a larger one stays above [max_length] once rounded
    ([length_in_doubles] below), so the test is made on the exact
    integer. *)
Definition grants (E : Engine) (s : site) (len : Z) : bool :=
  (0 <=? len) && (len <=? max_length) && E s len.

Definition sample_engine : Engine := fun _ len => len <=? 2 ^ 32 - 1.

(** [new Float32Array(len)] at [s], for an integer [len]: zero-filled. *)
Definition new_Float32Array (E : Engine) (s : site) (len : Z)
  : result (list number) :=
  if grants E s len then Ok (replicate (Z.to_nat len) (Fin 0%Q)) else RangeError.

Definition bits (t : IndexType) : Z :=
  match t with
  | Uint16Array => 16
  | Uint32Array => 32
  end.

(** Storing an integer into an element keeps it modulo 2^bits. *)
Definition to_element (t : IndexType) (z : Z) : Z := z mod 2 ^ bits t.

Record IndexArray : Type := mkIndexArray {
  elemType : IndexType;
  elems : list Z
}.

(** [new Uint16Array(len)] or [new Uint32Array(len)]: zero-filled. *)
Definition new_IndexArray (E : Engine) (t : IndexType) (len : Z)
  : result IndexArray :=
  if grants E (Indices t) len
  then Ok (mkIndexArray t (replicate (Z.to_nat len) 0))
  else RangeError.

(** [arr[i] = z]; a write outside the array is ignored. *)
Definition index_store (arr : IndexArray) (i : nat) (z : Z) : IndexArray :=
  mkIndexArray (elemType arr) (<[i := to_element (elemType arr) z]> (elems arr)).

(** ** The component *)

Record MeshBuffers : Type := mkMeshBuffers {
  positions : list number;
  normals : list number;
  uv : list number;
  indices : IndexArray
}.

(** The fields of a Plane.  [geometry] stands for the four buffer
    properties [positions], [normals], [uv], [indices], which [_buildGrid]
    assigns together; it is [None] until the first build.  [__dirty] is
    absent (falsy) on a new object. *)
Record Plane : Type := mkPlane {
  _xSize : value;
  _ySize : value;
  _xSegments : value;
  _ySegments : value;
  _lod : value;
  autoNormals : bool;
  __dirty : bool;
  geometry : option MeshBuffers
}.

Definition new_Plane : Plane :=
  mkPlane undefined undefined undefined undefined undefined false false None.

Definition with_xSize (v : value) (p : Plane) : Plane :=
  mkPlane v (_ySize p) (_xSegments p) (_ySegments p) (_lod p)
          (autoNormals p) (__dirty p) (geometry p).
Definition with_ySize (v : value) (p : Plane) : Plane :=
  mkPlane (_xSize p) v (_xSegments p) (_ySegments p) (_lod p)
          (autoNormals p) (__dirty p) (geometry p).
Definition with_xSegments (v : value) (p : Plane) : Plane :=
  mkPlane (_xSize p) (_ySize p) v (_ySegments p) (_lod p)
          (autoNormals p) (__dirty p) (geometry p).
Definition with_ySegments (v : value) (p : Plane) : Plane :=
  mkPlane (_xSize p) (_ySize p) (_xSegments p) v (_lod p)
          (autoNormals p) (__dirty p) (geometry p).
Definition with_lod (v : value) (p : Plane) : Plane :=
  mkPlane (_xSize p) (_ySize p) (_xSegments p) (_ySegments p) v
          (autoNormals p) (__dirty p) (geometry p).
Definition with_autoNormals (b : bool) (p : Plane) : Plane :=
  mkPlane (_xSize p) (_ySize p) (_xSegments p) (_ySegments p) (_lod p)
          b (__dirty p) (geometry p).
Definition with_dirty (b : bool) (p : Plane) : Plane :=
  mkPlane (_xSize p) (_ySize p) (_xSegments p) (_ySegments p) (_lod p)
          (autoNormals p) b (geometry p).
Definition with_geometry (g : MeshBuffers) (p : Plane) : Plane :=
  mkPlane (_xSize p) (_ySize p) (_xSegments p) (_ySegments p) (_lod p)
          (autoNormals p) (__dirty p) (Some g).

(** ** _buildGrid *)

(** Lines 70-85: the effective segment counts [(gridX, gridY)]. *)
Definition grid (p : Plane) : Z * Z :=
  let xSegments := Math_floor (double_mul (ToNumber (_lod p)) (ToNumber (_xSegments p))) in
  let ySegments := Math_floor (double_mul (ToNumber (_lod p)) (ToNumber (_ySegments p))) in
  let ySegments := if int_lt ySegments 4 then Some 4 else ySegments in
  let ySegments := if int_lt ySegments 4 then Some 4 else ySegments in
  (* Math.floor of an integer-or-NaN is that value again *)
  let gridX := int_or xSegments 1 in
  let gridY := int_or ySegments 1 in
  (gridX, gridY).

Definition gridX (p : Plane) : Z := fst (grid p).
Definition gridY (p : Plane) : Z := snd (grid p).

(** The variables the vertex loop updates. *)
Record VertexLoop : Type := mkVertexLoop {
  vl_positions : list number;
  vl_normals : list number;
  vl_uvs : list number;
  vl_offset : nat;
  vl_offset2 : nat
}.

Section BuildGrid.

Variable E : Engine.
Variables (width height : number) (gridX gridY : Z).

Let halfWidth := double_div width (Fin 2).
Let halfHeight := double_div height (Fin 2).
Let gridX1 := gridX + 1.
Let gridY1 := gridY + 1.
Let segmentWidth := double_div width (of_Z gridX).
Let segmentHeight := double_div height (of_Z gridY).

(** Lines 106-117: the body of the inner vertex loop.  Each assignment to
    an element of a [Float32Array] stores the single nearest to the double
    assigned; the differences [gridX - ix] and [gridY - iy] are integers
    below [max_length], hence exact ([integer_double] below). *)
Definition vertex_body (iy : nat) (y : number) (st : VertexLoop) (ix : nat)
  : VertexLoop :=
  let x := double_sub (double_mul (of_nat ix) segmentWidth) halfWidth in
  let offset := vl_offset st in
  let offset2 := vl_offset2 st in
  let positions := <[offset := float32_element x]> (vl_positions st) in
  let positions := <[(offset + 1)%nat := float32_element (num_neg y)]> positions in
  let normals := <[(offset + 2)%nat := float32_element (Fin (-1))]> (vl_normals st) in
  let uvs :=
    <[offset2 :=
        float32_element (double_div (of_Z (gridX - Z.of_nat ix)) (of_Z gridX))]>
      (vl_uvs st) in
  let uvs :=
    <[(offset2 + 1)%nat :=
        float32_element
          (double_sub (Fin 1)
             (double_div (of_Z (gridY - Z.of_nat iy)) (of_Z gridY)))]> uvs in
  mkVertexLoop positions normals uvs (offset + 3)%nat (offset2 + 2)%nat.

(** Lines 102-118: one row of vertices. *)
Definition vertex_row (st : VertexLoop) (iy : nat) : VertexLoop :=
  let y := double_sub (double_mul (of_nat iy) segmentHeight) halfHeight in
  fold_left (vertex_body iy y) (seq 0 (Z.to_nat gridX1)) st.

(** Lines 100-119. *)
Definition vertex_loop (st : VertexLoop) : VertexLoop :=
  fold_left vertex_row (seq 0 (Z.to_nat gridY1)) st.

(** Lines 129-142: the body of the inner index loop; the state is the
    index array and [offset]. *)
Definition index_body (iy : nat) (st : IndexArray * nat) (ix : nat)
  : IndexArray * nat :=
  let '(indices, offset) := st in
  let a := Z.of_nat ix + gridX1 * Z.of_nat iy in
  let b := Z.of_nat ix + gridX1 * (Z.of_nat iy + 1) in
  let c := (Z.of_nat ix + 1) + gridX1 * (Z.of_nat iy + 1) in
  let d := (Z.of_nat ix + 1) + gridX1 * Z.of_nat iy in
  let indices := index_store indices offset d in
  let indices := index_store indices (offset + 1)%nat b in
  let indices := index_store indices (offset + 2)%nat a in
  let indices := index_store indices (offset + 3)%nat d in
  let indices := index_store indices (offset + 4)%nat c in
  let indices := index_store indices (offset + 5)%nat b in
  (indices, (offset + 6)%nat).

Definition index_row (st : IndexArray * nat) (iy : nat) : IndexArray * nat :=
  fold_left (index_body iy) (seq 0 (Z.to_nat gridX)) st.

(** Lines 125-144. *)
Definition index_loop (st : IndexArray * nat) : IndexArray * nat :=
  fold_left index_row (seq 0 (Z.to_nat gridY)) st.

(** Line 123: the element type, from the number of vertices allocated.
    The length is a multiple of 3, so the quotient is exact. *)
Definition index_type (positions : list number) : IndexType :=
  if num_lt (Fin 65535) (num_div (of_nat (length positions)) (Fin 3))
  then Uint32Array else Uint16Array.

(** Lines 81-144: the four buffers. *)
Definition build_buffers : result MeshBuffers :=
  let* positions := new_Float32Array E Positions (gridX1 * gridY1 * 3) in
  let* normals := new_Float32Array E Normals (gridX1 * gridY1 * 3) in
  let* uvs := new_Float32Array E Uvs (gridX1 * gridY1 * 2) in
  let st := vertex_loop (mkVertexLoop positions normals uvs 0 0) in
  let* indices := new_IndexArray E (index_type (vl_positions st)) (gridX * gridY * 6) in
  let '(indices, _) := index_loop (indices, 0%nat) in
  Ok (mkMeshBuffers (vl_positions st) (vl_normals st) (vl_uvs st) indices).

End BuildGrid.

(** A build throws where one of its constructors does, before anything
    is assigned to the component. *)
Definition _buildGrid (E : Engine) (p : Plane) : result Plane :=
  let width := ToNumber (_xSize p) in
  let height := ToNumber (_ySize p) in
  let '(gridX, gridY) := grid p in
  let* buffers := build_buffers E width height gridX gridY in
  Ok (with_geometry buffers p).

(** The four allocations of a build on a grid of [gridX] by [gridY]
    cells. *)
Definition allocates (E : Engine) (gridX gridY : Z) : bool :=
  let vertices := (gridX + 1) * (gridY + 1) in
  grants E Positions (vertices * 3) &&
  grants E Normals (vertices * 3) &&
  grants E Uvs (vertices * 2) &&
  grants E (Indices (if 65535 <? vertices then Uint32Array else Uint16Array))
         (gridX * gridY * 6).

(** ** Host services *)

(** Modelled from the spec: the scene and the component base class, which
    the file calls but does not contain.  A [World] is the component
    together with what it does to them: [tick2] is the number of one-shot
    callbacks it has registered with [scene.once("tick2", ...)] and that
    have not fired yet (they are all the same closure over [self]);
    [warnings] is the diagnostic channel written by [this.warn]; [fired]
    lists the change notifications emitted by [this.fire], oldest first,
    each with the property name and its payload. *)
Record World : Type := mkWorld {
  self : Plane;
  tick2 : nat;
  warnings : list string;
  fired : list (string * value)
}.

Definition new_World : World := mkWorld new_Plane 0 [] [].

Definition update (f : Plane -> Plane) (w : World) : World :=
  mkWorld (f (self w)) (tick2 w) (warnings w) (fired w).

(** Modelled from the spec: [this.warn(msg)] surfaces a warning on the
    host's diagnostic channel and execution proceeds. *)
Definition warn (msg : string) (w : World) : World :=
  mkWorld (self w) (tick2 w) (warnings w ++ [msg]) (fired w).

(** Modelled from the spec: [this.fire(name, payload)] emits one change
    notification, synchronously. *)
Definition fire (name : string) (payload : value) (w : World) : World :=
  mkWorld (self w) (tick2 w) (warnings w) (fired w ++ [(name, payload)]).

(** Modelled from the spec: [this.scene.once("tick2", callback)] registers
    a one-shot callback for the next tick. *)
Definition scene_once_tick2 (w : World) : World :=
  mkWorld (self w) (S (tick2 w)) (warnings w) (fired w).

(** ** _gridDirty and the property setters *)

Definition _gridDirty (w : World) : World :=
  if negb (__dirty (self w)) then
    let w := update (with_dirty true) w in
    scene_once_tick2 w
  else w.

#[local] Open Scope string_scope.

Definition set_lod (value : value) (w : World) : World :=
  let value := if negb (strict_eq value undefined) then value else Num (Fin 1) in
  if strict_eq (_lod (self w)) value then w
  else
    let '(w, value) :=
      if js_lt value (Num (Fin 0)) || js_gt value (Num (Fin 1)) then
        (warn "clamping lod to [0..1]" w,
         if js_lt value (Num (Fin 0)) then Num (Fin 0) else Num (Fin 1))
      else (w, value) in
    let w := update (with_lod value) w in
    let w := _gridDirty w in
    fire "lod" (_lod (self w)) w.

Definition set_xSize (value : value) (w : World) : World :=
  let value := js_or value (Num (Fin 1)) in
  if strict_eq (_xSize (self w)) value then w
  else
    let '(w, value) :=
      if js_lt value (Num (Fin 0)) then
        (warn "negative xSize not allowed - will invert" w,
         Num (num_mul (ToNumber value) (Fin (-1))))
      else (w, value) in
    let w := update (with_xSize value) w in
    let w := _gridDirty w in
    fire "xSize" (_xSize (self w)) w.

Definition set_ySize (value : value) (w : World) : World :=
  let value := js_or value (Num (Fin (1 # 4))) in
  if strict_eq (_ySize (self w)) value then w
  else
    let '(w, value) :=
      if js_lt value (Num (Fin 0)) then
        (warn "negative ySize not allowed - will invert" w,
         Num (num_mul (ToNumber value) (Fin (-1))))
      else (w, value) in
    let w := update (with_ySize value) w in
    let w := _gridDirty w in
    fire "ySize" (_ySize (self w)) w.

Definition set_xSegments (value : value) (w : World) : World :=
  let value := js_or value (Num (Fin 4)) in
  if strict_eq (_xSegments (self w)) value then w
  else
    let '(w, value) :=
      if js_lt value (Num (Fin 0)) then
        (warn "negative xSegments not allowed - will invert" w,
         Num (num_mul (ToNumber value) (Fin (-1))))
      else (w, value) in
    let w := update (with_xSegments value) w in
    let w := _gridDirty w in
    fire "xSegments" (_xSegments (self w)) w.

Definition set_ySegments (value : value) (w : World) : World :=
  let value := js_or value (Num (Fin 4)) in
  if strict_eq (_ySegments (self w)) value then w
  else
    let '(w, value) :=
      if js_lt value (Num (Fin 0)) then
        (warn "negative ySegments not allowed - will invert" w,
         Num (num_mul (ToNumber value) (Fin (-1))))
      else (w, value) in
    let w := update (with_ySegments value) w in
    let w := _gridDirty w in
    fire "ySegments" (_ySegments (self w)) w.

#[local] Close Scope string_scope.

(** The five reactive properties. *)
Inductive property : Type :=
| lod
| xSize
| ySize
| xSegments
| ySegments.

Definition name (k : property) : string :=
  match k with
  | lod => "lod"
  | xSize => "xSize"
  | ySize => "ySize"
  | xSegments => "xSegments"
  | ySegments => "ySegments"
  end.

(** [this.<k> = v] *)
Definition set (k : property) (v : value) (w : World) : World :=
  match k with
  | lod => set_lod v w
  | xSize => set_xSize v w
  | ySize => set_ySize v w
  | xSegments => set_xSegments v w
  | ySegments => set_ySegments v w
  end.

(** [this.<k>] *)
Definition get (k : property) (p : Plane) : value :=
  match k with
  | lod => _lod p
  | xSize => _xSize p
  | ySize => _ySize p
  | xSegments => _xSegments p
  | ySegments => _ySegments p
  end.

(** The configuration object passed to the constructor; [cfg_autoNormals]
    is [None] when the key is absent. *)
Record Config : Type := mkConfig {
  cfg_xSize : value;
  cfg_ySize : value;
  cfg_xSegments : value;
  cfg_ySegments : value;
  cfg_lod : value;
  cfg_autoNormals : option bool
}.

Definition _init (cfg : Config) (w : World) : World :=
  let w := set_xSize (cfg_xSize cfg) w in
  let w := set_ySize (cfg_ySize cfg) w in
  let w := set_xSegments (cfg_xSegments cfg) w in
  let w := set_ySegments (cfg_ySegments cfg) w in
  let w := set_lod (cfg_lod cfg) w in
  update (with_autoNormals
            (match cfg_autoNormals cfg with Some false => false | _ => true end)) w.

(** [_getJSON] *)
Definition _getJSON (p : Plane) : list (string * value) :=
  [("xSize"%string, _xSize p); ("ySize"%string, _ySize p);
   ("xSegments"%string, _xSegments p); ("ySegments"%string, _ySegments p)].

(** ** The deferred rebuild *)

(** How a call ends: it returns, or an exception leaves it.  Either way
    the component and the host are in some state afterwards. *)
Inductive outcome : Type :=
| Returned (w : World)
| Thrown (w : World).

Definition world_of (o : outcome) : World :=
  match o with
  | Returned w => w
  | Thrown w => w
  end.

(** The callback registered by [_gridDirty] (lines 56-59): rebuild, then
    clear the flag.  When [_buildGrid] throws, the exception leaves the
    callback before line 58 and the flag stays as it was.  [during]
    stands for code of other components that runs while the callback is
    still executing, after the buffers have been assigned and before
    control returns to the callback (a subscriber notified of the new
    buffers, say); the plain callback has [during = id]. *)
Definition tick2_callback_during (E : Engine) (during : World -> World)
           (w : World) : outcome :=
  match _buildGrid E (self w) with
  | Ok p =>
      let w := during (update (fun _ => p) w) in
      Returned (update (with_dirty false) w)
  | RangeError => Thrown w
  end.

Definition tick2_callback (E : Engine) : World -> outcome :=
  tick2_callback_during E id.

(** The callbacks run one after the other; an exception thrown by one
    leaves the dispatch. *)
Fixpoint run_callbacks (E : Engine) (during : World -> World) (n : nat)
         (w : World) : outcome :=
  match n with
  | O => Returned w
  | S n =>
      match tick2_callback_during E during w with
      | Returned w => run_callbacks E during n w
      | Thrown w => Thrown w
      end
  end.

(** Modelled from the spec: the scene fires "tick2" once per frame; the
    one-shot subscriptions are removed and each callback runs once. *)
Definition fire_tick2_during (E : Engine) (during : World -> World) (w : World)
  : outcome :=
  run_callbacks E during (tick2 w) (mkWorld (self w) 0 (warnings w) (fired w)).

Definition fire_tick2 (E : Engine) : World -> outcome := fire_tick2_during E id.

(** A run of setter calls, first to last. *)
Definition sets (ms : list (property * value)) (w : World) : World :=
  fold_left (fun w m => set (fst m) (snd m) w) ms w.

(** ** Well-formed states *)

Definition positive (v : value) : Prop :=
  match v with
  | Num (Fin q) => (0 < q)%Q
  | _ => False
  end.

(** What the [lod] setter can store: [NaN] passes the range test. *)
Definition lod_stored (v : value) : Prop :=
  match v with
  | Num (Fin q) => (0 <= q <= 1)%Q
  | Num NaN => True
  | undefined => False
  end.

(** A [lod] field that is unset or holds what the setter can store. *)
Definition lod_in_range (v : value) : Prop :=
  match v with
  | Num (Fin q) => (0 <= q <= 1)%Q
  | _ => True
  end.

(** The fields as the setters leave them once each has been assigned. *)
Record sanitized (p : Plane) : Prop := mkSanitized {
  san_xSize : positive (_xSize p);
  san_ySize : positive (_ySize p);
  san_xSegments : positive (_xSegments p);
  san_ySegments : positive (_ySegments p);
  san_lod : lod_stored (_lod p)
}.

(** The flag and the pending callback agree. *)
Definition coherent (w : World) : Prop :=
  tick2 w = if __dirty (self w) then 1%nat else 0%nat.

(** The states of a component after its construction: its setters are
    called, and the scene ticks.  A tick meets some engine; during its
    callback other code may call the setters ([ms], empty for a plain
    tick); and it may return or throw. *)
Inductive constructed : World -> Prop :=
| constructed_init cfg :
    constructed (_init cfg new_World)
| constructed_set k v w :
    constructed w -> constructed (set k v w)
| constructed_tick E ms w :
    constructed w -> constructed (world_of (fire_tick2_during E (sets ms) w)).

(** Default configuration: every key absent. *)
Definition empty_cfg : Config :=
  mkConfig undefined undefined undefined undefined undefined None.

(** [this._<k> = u] *)
Definition store (k : property) (u : value) : Plane -> Plane :=
  match k with
  | lod => with_lod u
  | xSize => with_xSize u
  | ySize => with_ySize u
  | xSegments => with_xSegments u
  | ySegments => with_ySegments u
  end.

(** What the setter of [k] can store. *)
Definition storable (k : property) (u : value) : Prop :=
  match k with
  | lod => lod_stored u
  | _ => positive u
  end.

(** *** The common shape of the five setters

    The setters differ only in the default, the range test, the
    correction and the warning text; [set_scheme] below shows that each
    is an instance of [setter]. *)

(** First line of each setter. *)
Definition defaulted (k : property) (v : value) : value :=
  match k with
  | lod => if negb (strict_eq v undefined) then v else Num (Fin 1)
  | xSize => js_or v (Num (Fin 1))
  | ySize => js_or v (Num (Fin (1 # 4)))
  | xSegments => js_or v (Num (Fin 4))
  | ySegments => js_or v (Num (Fin 4))
  end.

Definition out_of_range (k : property) (x : value) : bool :=
  match k with
  | lod => js_lt x (Num (Fin 0)) || js_gt x (Num (Fin 1))
  | _ => js_lt x (Num (Fin 0))
  end.

Definition correction (k : property) (x : value) : value :=
  match k with
  | lod => if js_lt x (Num (Fin 0)) then Num (Fin 0) else Num (Fin 1)
  | _ => Num (num_mul (ToNumber x) (Fin (-1)))
  end.

Definition warning (k : property) : string :=
  match k with
  | lod => "clamping lod to [0..1]"
  | xSize => "negative xSize not allowed - will invert"
  | ySize => "negative ySize not allowed - will invert"
  | xSegments => "negative xSegments not allowed - will invert"
  | ySegments => "negative ySegments not allowed - will invert"
  end.

(** The value a setter stores for the (defaulted) input [x]. *)
Definition stored_for (k : property) (x : value) : value :=
  if out_of_range k x then correction k x else x.

Definition setter (k : property) (v : value) (w : World) : World :=
  let x := defaulted k v in
  if strict_eq (get k (self w)) x then w
  else
    let w := if out_of_range k x then warn (warning k) w else w in
    let w := update (store k (stored_for k x)) w in
    let w := _gridDirty w in
    fire (name k) (get k (self w)) w.


(** ** Sample states *)

(** width 2, height 2, one column of four cells. *)
Definition plane_2x2 : Plane :=
  mkPlane (Num (Fin 2)) (Num (Fin 2)) (Num (Fin 1)) (Num (Fin 4)) (Num (Fin 1))
          true false None.

(** [lod = 0] with nine vertical segments requested. *)
Definition plane_lod0 : Plane :=
  mkPlane (Num (Fin 1)) (Num (Fin 1)) (Num (Fin 7)) (Num (Fin 9)) (Num (Fin 0))
          true false None.

(** A component built with the default configuration. *)
Definition default_World : World := _init empty_cfg new_World.

(** Setter calls made within one frame. *)
Definition sample_edits : list (property * value) :=
  [(ySegments, Num (Fin 8)); (lod, Num (Fin (1 # 2)))].

(** The same component once its first tick has rebuilt the grid. *)
Definition ticked_World : World := world_of (fire_tick2 sample_engine default_World).

(** Sanitized fields that ask for more vertices than any typed array can
    hold: [xSegments = 10^16]. *)
Definition plane_1e16 : Plane :=
  mkPlane (Num (Fin 1)) (Num (Fin 1)) (Num (Fin (inject_Z (10 ^ 16)))) (Num (Fin 4))
          (Num (Fin 1)) true false None.

(** The same with [xSegments = 10^12], which the language allows and
    [sample_engine] does not provide. *)
Definition plane_1e12 : Plane :=
  mkPlane (Num (Fin 1)) (Num (Fin 1)) (Num (Fin (inject_Z (10 ^ 12)))) (Num (Fin 4))
          (Num (Fin 1)) true false None.


(** Width 1 in three columns: the inner columns are at thirds, which no
    double or single holds exactly. *)
Definition plane_thirds : Plane :=
  mkPlane (Num (Fin 1)) (Num (Fin 1)) (Num (Fin 3)) (Num (Fin 4)) (Num (Fin 1))
          true false None.

(** The double nearest to 0.3. *)
Definition double_0_3 : Q := 5404319552844595 # 18014398509481984.

(** [lod = 0.3] with ten segments requested each way. *)
Definition plane_lod_0_3 : Plane :=
  mkPlane (Num (Fin 1)) (Num (Fin 1)) (Num (Fin 10)) (Num (Fin 10))
          (Num (Fin double_0_3)) true false None.

(** ** Vocabulary for the behaviour of the setters *)

(** The value each setter falls back to (first line of each). *)
Definition default_value (k : property) : value :=
  match k with
  | lod => Num (Fin 1)
  | xSize => Num (Fin 1)
  | ySize => Num (Fin (1 # 4))
  | xSegments => Num (Fin 4)
  | ySegments => Num (Fin 4)
  end.

(** Inputs that no setter corrects: anything but a negative number and,
    for [lod], a number above 1. *)
Definition acceptable (k : property) (v : value) : Prop :=
  match v with
  | Num (Fin q) => (0 <= q)%Q /\ (k = lod -> (q <= 1)%Q)
  | _ => True
  end.

(** ** Reading a snapshot back *)

(** [j[key]] for the object [_getJSON] returns; a missing key reads as
    [undefined]. *)
Fixpoint json_get (key : string) (j : list (string * value)) : value :=
  match j with
  | [] => undefined
  | (k, v) :: j => if String.eqb key k then v else json_get key j
  end.

(** A snapshot passed as the configuration of a new component. *)
Definition cfg_of_JSON (j : list (string * value)) : Config :=
  mkConfig (json_get "xSize" j) (json_get "ySize" j)
           (json_get "xSegments" j) (json_get "ySegments" j)
           (json_get "lod" j) None.

(** * Properties *)

(** Closed comparisons of rational literals. *)
Ltac q_literal :=
  first [ reflexivity
        | split; unfold Qle, Qlt; simpl; lia
        | unfold Qle, Qlt; simpl; lia ].

(** ** The code on small inputs *)

Example grid_of_default : grid (self default_World) = (4, 4).
Proof. vm_compute. reflexivity. Qed.

(** Before any field is assigned the products are [NaN]: one cell. *)
Example grid_of_unset : grid new_Plane = (1, 1).
Proof. reflexivity. Qed.

(** [NaN] is neither below 0 nor above 1, so the [lod] setter stores it;
    the test [ySegments < 4] is then false and the grid has one row. *)
Example grid_of_NaN_lod :
  _lod (self (set lod (Num NaN) default_World)) = Num NaN /\
  grid (self (set lod (Num NaN) default_World)) = (1, 1).
Proof. split; reflexivity. Qed.

(** Rounding on a few values: 0.1 and a third as doubles, a sixth of the
    way below zero as a single, and a tie, which goes to the even
    significand. *)
Example rounding_samples :
  to_double (1 # 10) = (3602879701896397 # 36028797018963968)%Q /\
  to_double (1 # 3) = (6004799503160661 # 18014398509481984)%Q /\
  to_float32 (-3002399751580331 # 18014398509481984) = (-11184811 # 67108864)%Q /\
  to_double (inject_Z (2 ^ 53 + 1)) = inject_Z (2 ^ 53) /\
  to_double (inject_Z (2 ^ 53 + 3)) = inject_Z (2 ^ 53 + 4) /\
  to_float32 (1 # 10) = (13421773 # 134217728)%Q.
Proof. vm_compute. repeat split; reflexivity. Qed.

(** The product [lod * xSegments] is rounded before it is floored: with
    [lod] the double 0.3, slightly below three tenths, ten segments give
    three columns, where the floor of the exact product is 2. *)
Example grid_rounds_product :
  is_double double_0_3 /\
  grid plane_lod_0_3 = (3, 4) /\
  Qfloor (double_0_3 * 10) = 2.
Proof. vm_compute. repeat split; reflexivity. Qed.

Example build_of_plane_2x2 :
  match _buildGrid sample_engine plane_2x2 with
  | Ok p =>
      option_map (fun b => (length (positions b), elemType (indices b), elems (indices b)))
                 (geometry p)
      = Some (30%nat, Uint16Array,
              [1; 2; 0; 1; 3; 2; 3; 4; 2; 3; 5; 4;
               5; 6; 4; 5; 7; 6; 7; 8; 6; 7; 9; 8])
  | RangeError => False
  end.
Proof. vm_compute. reflexivity. Qed.

(** A negative product [lod * xSegments], which no setter can leave
    behind, makes the allocation throw. *)
Example build_of_negative_lod (E : Engine) :
  _buildGrid E (with_lod (Num (Fin (-1))) (self default_World)) = RangeError.
Proof. vm_compute. reflexivity. Qed.

(** With width 1 in three columns the second column is at the single
    nearest to the double [1 * (1/3) - 0.5], which is not a sixth below
    zero; its texture coordinate is the single nearest to two thirds. *)
Example build_of_plane_thirds :
  match _buildGrid sample_engine plane_thirds with
  | Ok p =>
      option_map (fun b => (positions b !! 3%nat, uv b !! 2%nat)) (geometry p)
      = Some (Some (Fin (-11184811 # 67108864)), Some (Fin (11184811 # 16777216)))
  | RangeError => False
  end.
Proof. vm_compute. reflexivity. Qed.

Example setters_of_default :
  warnings (set xSize (Num (Fin (-3))) default_World)
  = ["negative xSize not allowed - will invert"%string] /\
  strict_eq (_xSize (self (set xSize (Num (Fin (-3))) default_World))) (Num (Fin 3))
  = true /\
  _getJSON (self default_World)
  = [("xSize"%string, Num (Fin 1)); ("ySize"%string, Num (Fin (1 # 4)));
     ("xSegments"%string, Num (Fin 4)); ("ySegments"%string, Num (Fin 4))].
Proof. repeat split; reflexivity. Qed.

(** ** Comparisons *)

Lemma strict_eq_sym a b : strict_eq a b = strict_eq b a.
Proof.
  destruct a as [|[|p]], b as [|[|q]]; simpl; try reflexivity.
  destruct (Qeq_bool p q) eqn:E, (Qeq_bool q p) eqn:E'; try reflexivity.
  - apply Qeq_bool_iff in E. symmetry in E. apply Qeq_bool_iff in E. congruence.
  - apply Qeq_bool_iff in E'. symmetry in E'. apply Qeq_bool_iff in E'. congruence.
Qed.

Lemma strict_eq_Fin p q : strict_eq (Num (Fin p)) (Num (Fin q)) = true <-> (p == q)%Q.
Proof. simpl. apply Qeq_bool_iff. Qed.

Lemma strict_eq_Fin_false p q :
  strict_eq (Num (Fin p)) (Num (Fin q)) = false <-> ~ (p == q)%Q.
Proof.
  simpl. split.
  - intros E H. apply Qeq_bool_iff in H. congruence.
  - intros H. destruct (Qeq_bool p q) eqn:E; [|reflexivity].
    apply Qeq_bool_iff in E. contradiction.
Qed.

Lemma num_lt_Fin p q : num_lt (Fin p) (Fin q) = true <-> (p < q)%Q.
Proof.
  simpl. destruct (Qle_bool q p) eqn:E; simpl.
  - apply Qle_bool_iff in E. split; [discriminate | lra].
  - split; [intros _ | reflexivity].
    destruct (Qlt_le_dec p q) as [H|H]; [exact H|].
    apply Qle_bool_iff in H. congruence.
Qed.

Lemma num_lt_Fin_false p q : num_lt (Fin p) (Fin q) = false <-> (q <= p)%Q.
Proof.
  destruct (num_lt (Fin p) (Fin q)) eqn:E.
  - apply num_lt_Fin in E. split; [discriminate | lra].
  - split; [intros _ | reflexivity].
    destruct (Qlt_le_dec p q) as [H|H]; [|exact H].
    apply num_lt_Fin in H. congruence.
Qed.

(** ** Rounding *)

Lemma two_power_pos z : (0 < 2 ^ z)%Q.
Proof. apply Qpower_0_lt. reflexivity. Qed.

Lemma two_power_le n m : n <= m -> (2 ^ n <= 2 ^ m)%Q.
Proof. intros H. apply Qpower_le_compat_l; [exact H | discriminate]. Qed.

Lemma two_power_Z n : 0 <= n -> (2 ^ n == inject_Z (2 ^ n))%Q.
Proof. intros H. symmetry. apply (Zpower_Qpower 2 n H). Qed.

Lemma two_power_ratio n m :
  0 <= n -> 0 <= m -> (2 ^ (n - m) == inject_Z (2 ^ n) / inject_Z (2 ^ m))%Q.
Proof.
  intros Hn Hm. rewrite Qpower_minus by discriminate.
  rewrite (two_power_Z n Hn), (two_power_Z m Hm). reflexivity.
Qed.

(** [ilog2] is the binary exponent. *)
Lemma ilog2_spec a : (0 < a)%Q -> (2 ^ ilog2 a <= a < 2 ^ (ilog2 a + 1))%Q.
Proof.
  destruct a as [n d]. intros Ha.
  assert (Hn : 0 < n) by (revert Ha; unfold Qlt; simpl; lia).
  pose proof (Z.log2_spec n Hn) as Ln.
  pose proof (Z.log2_spec (Z.pos d) eq_refl) as Ld.
  pose proof (Z.log2_nonneg n) as Nn.
  pose proof (Z.log2_nonneg (Z.pos d)) as Nd.
  unfold ilog2. cbn [Qnum Qden].
  set (ln := Z.log2 n) in *. set (ld := Z.log2 (Z.pos d)) in *.
  assert (HA : 0 < 2 ^ ln) by (apply Z.pow_pos_nonneg; lia).
  assert (HB : 0 < 2 ^ ld) by (apply Z.pow_pos_nonneg; lia).
  assert (Hs : forall k, 0 <= k -> 2 ^ Z.succ k = 2 * 2 ^ k)
    by (intros k Hk; apply Z.pow_succ_r, Hk).
  rewrite (Hs ln Nn) in Ln. rewrite (Hs ld Nd) in Ld.
  assert (Hup : (n # d < 2 ^ (ln - ld + 1))%Q).
  { replace (ln - ld + 1) with (Z.succ ln - ld) by lia.
    rewrite two_power_ratio by lia. rewrite (Hs ln Nn).
    apply Qlt_shift_div_l; [unfold Qlt; simpl; lia|].
    unfold Qlt, Qmult, inject_Z; simpl. nia. }
  assert (Hlo : (2 ^ (ln - ld - 1) < n # d)%Q).
  { replace (ln - ld - 1) with (ln - Z.succ ld) by lia.
    rewrite two_power_ratio by lia. rewrite (Hs ld Nd).
    apply Qlt_shift_div_r; [unfold Qlt; simpl; lia|].
    unfold Qlt, Qmult, inject_Z; simpl. nia. }
  destruct (Qle_bool (2 ^ (ln - ld)) (n # d)) eqn:E.
  - apply Qle_bool_iff in E. split; [exact E | exact Hup].
  - split; [apply Qlt_le_weak, Hlo|].
    replace (ln - ld - 1 + 1) with (ln - ld) by lia.
    destruct (Qlt_le_dec (n # d) (2 ^ (ln - ld))) as [H|H]; [exact H|].
    apply Qle_bool_iff in H. congruence.
Qed.

Lemma ilog2_le a b : (0 < a)%Q -> (a <= b)%Q -> ilog2 a <= ilog2 b.
Proof.
  intros Ha Hab.
  destruct (ilog2_spec a Ha) as [La _].
  destruct (ilog2_spec b ltac:(lra)) as [_ Ub].
  destruct (Z_lt_le_dec (ilog2 b) (ilog2 a)) as [H|H]; [|exact H].
  exfalso. pose proof (two_power_le (ilog2 b + 1) (ilog2 a) ltac:(lia)). lra.
Qed.

Lemma rne_bounds t : Qfloor t <= rne t <= Qfloor t + 1.
Proof.
  unfold rne. destruct (Qcompare _ _); [destruct (Z.even _)| |]; lia.
Qed.

(** An integer is its own nearest integer. *)
Lemma rne_Z n : rne (inject_Z n) = n.
Proof.
  unfold rne. rewrite Qfloor_Z.
  assert (E : (inject_Z n - inject_Z n ?= 1 # 2)%Q = Lt).
  { apply Qlt_alt.
    assert (H : (inject_Z n - inject_Z n == 0)%Q) by ring.
    rewrite H. reflexivity. }
  rewrite E. reflexivity.
Qed.

Lemma rne_le t u : (t <= u)%Q -> rne t <= rne u.
Proof.
  intros H. pose proof (Qfloor_resp_le _ _ H) as Hf.
  destruct (Z_lt_le_dec (Qfloor t) (Qfloor u)) as [Hlt|Hge].
  - pose proof (rne_bounds t). pose proof (rne_bounds u). lia.
  - assert (E : Qfloor u = Qfloor t) by lia.
    unfold rne. rewrite E.
    destruct (Qcompare_spec (t - inject_Z (Qfloor t)) (1 # 2)) as [Ht|Ht|Ht];
      destruct (Qcompare_spec (u - inject_Z (Qfloor t)) (1 # 2)) as [Hu|Hu|Hu];
      try (exfalso; lra); try destruct (Z.even (Qfloor t)); lia.
Qed.

Lemma round_pos_nonneg prec emin a : (0 < a)%Q -> (0 <= round_pos prec emin a)%Q.
Proof.
  intros Ha. unfold round_pos.
  set (x := Z.max _ _).
  pose proof (two_power_pos x) as Hx.
  apply Qmult_le_0_compat; [|lra].
  assert (H0 : (inject_Z 0 <= a / 2 ^ x)%Q).
  { apply Qle_shift_div_l; [exact Hx|]. change (inject_Z 0) with 0%Q. lra. }
  apply rne_le in H0. rewrite rne_Z in H0.
  unfold Qle; simpl. lia.
Qed.

(** Rounding is monotone on the positive rationals.  Where the two units
    in the last place differ, a power of two lies between the arguments
    and is not moved by the rounding of either. *)
Lemma round_pos_le prec emin a b :
  1 <= prec -> (0 < a)%Q -> (a <= b)%Q ->
  (round_pos prec emin a <= round_pos prec emin b)%Q.
Proof.
  intros Hp Ha Hab. assert (Hb : (0 < b)%Q) by lra.
  pose proof (ilog2_le a b Ha Hab) as He.
  destruct (ilog2_spec a Ha) as [La Ua]. destruct (ilog2_spec b Hb) as [Lb Ub].
  unfold round_pos.
  set (xa := Z.max (ilog2 a - (prec - 1)) emin).
  set (xb := Z.max (ilog2 b - (prec - 1)) emin).
  pose proof (two_power_pos xa) as Hxa. pose proof (two_power_pos xb) as Hxb.
  destruct (Z.eq_dec xa xb) as [E|E].
  - rewrite <- E. apply Qmult_le_compat_r; [|lra].
    assert (Ht : (a / 2 ^ xa <= b / 2 ^ xa)%Q).
    { apply Qle_shift_div_l; [exact Hxa|].
      unfold Qdiv. rewrite <- Qmult_assoc, (Qmult_comm (/ _)), Qmult_inv_r by lra. lra. }
    apply rne_le in Ht. unfold Qle; simpl. lia.
  - assert (Hx : xa < xb /\ xb = ilog2 b - (prec - 1) /\ ilog2 a < ilog2 b) by lia.
    destruct Hx as (Hlt & Exb & Helt).
    apply Qle_trans with (2 ^ ilog2 b)%Q.
    + assert (Hk : 0 <= ilog2 b - xa) by lia.
      assert (Ht : (a / 2 ^ xa <= inject_Z (2 ^ (ilog2 b - xa)))%Q).
      { apply Qle_shift_div_r; [exact Hxa|].
        rewrite <- two_power_Z by exact Hk.
        rewrite <- Qpower_plus by discriminate.
        replace (ilog2 b - xa + xa) with (ilog2 b) by lia.
        pose proof (two_power_le (ilog2 a + 1) (ilog2 b) ltac:(lia)). lra. }
      apply rne_le in Ht. rewrite rne_Z in Ht.
      apply Qle_trans with (inject_Z (2 ^ (ilog2 b - xa)) * 2 ^ xa)%Q.
      * apply Qmult_le_compat_r; [|lra]. unfold Qle; simpl. lia.
      * rewrite <- two_power_Z by exact Hk.
        rewrite <- Qpower_plus by discriminate.
        replace (ilog2 b - xa + xa) with (ilog2 b) by lia. lra.
    + assert (Hk : 0 <= ilog2 b - xb) by lia.
      assert (Ht : (inject_Z (2 ^ (ilog2 b - xb)) <= b / 2 ^ xb)%Q).
      { apply Qle_shift_div_l; [exact Hxb|].
        rewrite <- two_power_Z by exact Hk.
        rewrite <- Qpower_plus by discriminate.
        replace (ilog2 b - xb + xb) with (ilog2 b) by lia. exact Lb. }
      apply rne_le in Ht. rewrite rne_Z in Ht.
      apply Qle_trans with (inject_Z (2 ^ (ilog2 b - xb)) * 2 ^ xb)%Q.
      * rewrite <- two_power_Z by exact Hk.
        rewrite <- Qpower_plus by discriminate.
        replace (ilog2 b - xb + xb) with (ilog2 b) by lia. lra.
      * apply Qmult_le_compat_r; [|lra]. unfold Qle; simpl. lia.
Qed.

(** The rounding of a rational does not depend on how it is written. *)
Lemma round_comp prec emin p q : (p == q)%Q -> round prec emin p = round prec emin q.
Proof. intros H. unfold round. rewrite (Qred_complete p q H). reflexivity. Qed.

(** Rounding is monotone. *)
Lemma round_le prec emin p q :
  1 <= prec -> (p <= q)%Q -> (round prec emin p <= round prec emin q)%Q.
Proof.
  intros Hp H. unfold round.
  pose proof (Qred_correct p) as Ep. pose proof (Qred_correct q) as Eq.
  set (p' := Qred p) in *. set (q' := Qred q) in *.
  match goal with
  | |- (Qred ?a <= Qred ?b)%Q => rewrite (Qred_correct a), (Qred_correct b)
  end.
  assert (H' : (p' <= q')%Q) by lra.
  destruct (Qcompare_spec p' 0) as [Hp0|Hp0|Hp0];
    destruct (Qcompare_spec q' 0) as [Hq0|Hq0|Hq0]; try (exfalso; lra).
  - lra.
  - apply round_pos_nonneg, Hq0.
  - pose proof (round_pos_nonneg prec emin (- p') ltac:(lra)). lra.
  - pose proof (round_pos_le prec emin (- q') (- p') Hp ltac:(lra) ltac:(lra)). lra.
  - pose proof (round_pos_nonneg prec emin (- p') ltac:(lra)).
    pose proof (round_pos_nonneg prec emin q' Hq0). lra.
  - apply round_pos_le; assumption.
Qed.

Lemma to_double_le p q : (p <= q)%Q -> (to_double p <= to_double q)%Q.
Proof. apply round_le. lia. Qed.

Lemma to_float32_le p q : (p <= q)%Q -> (to_float32 p <= to_float32 q)%Q.
Proof. apply round_le. lia. Qed.

Lemma to_double_comp p q : (p == q)%Q -> to_double p = to_double q.
Proof. apply round_comp. Qed.

Lemma to_float32_comp p q : (p == q)%Q -> to_float32 p = to_float32 q.
Proof. apply round_comp. Qed.

(** 0, 1 and -1 are doubles and singles. *)
Lemma round_units :
  to_double 0 = 0%Q /\ to_double 1 = 1%Q /\
  to_float32 0 = 0%Q /\ to_float32 1 = 1%Q /\ to_float32 (-1) = (-1)%Q.
Proof. vm_compute. repeat split; reflexivity. Qed.

Lemma to_double_unit q : (0 <= q <= 1)%Q -> (0 <= to_double q <= 1)%Q.
Proof.
  intros [H0 H1]. destruct round_units as (E0 & E1 & _).
  apply to_double_le in H0, H1. rewrite E0 in H0. rewrite E1 in H1. auto.
Qed.

Lemma to_float32_unit q : (0 <= q <= 1)%Q -> (0 <= to_float32 q <= 1)%Q.
Proof.
  intros [H0 H1]. destruct round_units as (_ & _ & E0 & E1 & _).
  apply to_float32_le in H0, H1. rewrite E0 in H0. rewrite E1 in H1. auto.
Qed.

Lemma to_double_nonneg q : (0 <= q)%Q -> (0 <= to_double q)%Q.
Proof.
  intros H. destruct round_units as (E0 & _).
  apply to_double_le in H. rewrite E0 in H. exact H.
Qed.

Lemma Qopp_opp_eq q : (- - q)%Q = q.
Proof. destruct q as [n d]. unfold Qopp. simpl. rewrite Z.opp_involutive. reflexivity. Qed.

(** Rounding commutes with negation. *)
Lemma round_opp prec emin q : round prec emin (- q) = (- round prec emin q)%Q.
Proof.
  unfold round. rewrite Qred_opp. set (q' := Qred q).
  destruct (Qcompare_spec q' 0) as [H|H|H];
    destruct (Qcompare_spec (- q') 0) as [H'|H'|H']; try (exfalso; lra).
  - reflexivity.
  - rewrite Qred_opp, Qopp_opp_eq. reflexivity.
  - rewrite Qopp_opp_eq, Qred_opp. reflexivity.
Qed.

(** On a double the product by -1 of the setters is exact: the double
    product is the product. *)
Lemma sign_flip_exact q :
  is_double q -> num_equiv (double_mul (Fin q) (Fin (-1))) (num_mul (Fin q) (Fin (-1))).
Proof.
  unfold is_double. intros Hq. simpl.
  assert (E : (q * -1 == - q)%Q) by ring.
  rewrite (to_double_comp _ _ E). unfold to_double. rewrite round_opp.
  fold (to_double q). rewrite Hq. ring.
Qed.

Lemma rne_integer t m : (t == inject_Z m)%Q -> rne t = m.
Proof.
  intros H.
  assert (H1 : (t <= inject_Z m)%Q) by lra.
  assert (H2 : (inject_Z m <= t)%Q) by lra.
  apply rne_le in H1, H2. rewrite rne_Z in H1, H2. lia.
Qed.

Lemma round_pos_comp prec emin a b :
  1 <= prec -> (0 < a)%Q -> (a == b)%Q ->
  (round_pos prec emin a == round_pos prec emin b)%Q.
Proof.
  intros Hp Ha Hab. apply Qle_antisym; apply round_pos_le; try assumption; lra.
Qed.

(** A positive multiple of its own unit in the last place is not moved. *)
Lemma round_pos_exact prec emin a m :
  (0 < a)%Q ->
  (a == inject_Z m * 2 ^ Z.max (ilog2 a - (prec - 1)) emin)%Q ->
  (round_pos prec emin a == a)%Q.
Proof.
  intros Ha Hm. unfold round_pos.
  set (x := Z.max (ilog2 a - (prec - 1)) emin) in *.
  pose proof (two_power_pos x) as Hx.
  assert (Ht : (a / 2 ^ x == inject_Z m)%Q).
  { rewrite Hm. field. lra. }
  rewrite (rne_integer _ m Ht). symmetry. exact Hm.
Qed.

Lemma round_pos_value prec emin q :
  1 <= prec -> (0 < q)%Q -> (round prec emin q == round_pos prec emin q)%Q.
Proof.
  intros Hp Hq. unfold round. rewrite Qred_correct.
  pose proof (Qred_correct q) as Eq.
  destruct (Qcompare_spec (Qred q) 0) as [H|H|H]; try (exfalso; lra).
  apply round_pos_comp; [exact Hp | exact H | exact Eq].
Qed.

(** Every integer of magnitude up to [2^53] is a double. *)
Lemma integer_double n : Z.abs n <= 2 ^ 53 -> is_double (inject_Z n).
Proof.
  assert (Hpos : forall k, 0 < k <= 2 ^ 53 -> is_double (inject_Z k)).
  { intros k [Hk0 Hk]. unfold is_double.
    destruct (Z.eq_dec k (2 ^ 53)) as [->|Hne]; [vm_compute; reflexivity|].
    assert (Hq : (0 < inject_Z k)%Q) by (unfold Qlt; simpl; lia).
    unfold to_double. rewrite (round_pos_value 53 (-1074) _ ltac:(lia) Hq).
    destruct (ilog2_spec _ Hq) as [Le Ue].
    set (e := ilog2 (inject_Z k)) in *.
    assert (He : e < 53).
    { destruct (Z_lt_le_dec e 53) as [H|H]; [exact H|]. exfalso.
      pose proof (two_power_le 53 e H) as H53.
      rewrite (two_power_Z 53) in H53 by lia.
      assert (inject_Z (2 ^ 53) <= inject_Z k)%Q by lra.
      unfold Qle in H0; simpl in H0. lia. }
    set (x := Z.max (e - (53 - 1)) (-1074)).
    assert (Hx : x <= 0) by lia.
    apply (round_pos_exact 53 (-1074) _ (k * 2 ^ (- x)) Hq).
    fold e. fold x.
    rewrite inject_Z_mult, <- (two_power_Z (- x)) by lia.
    rewrite <- Qmult_assoc, <- Qpower_plus by discriminate.
    replace (- x + x) with 0 by lia. change (2 ^ 0)%Q with 1%Q. ring. }
  intros Hn. destruct (Z.lt_trichotomy n 0) as [H|[->|H]].
  - unfold is_double.
    assert (E : (inject_Z n == - inject_Z (- n))%Q).
    { rewrite inject_Z_opp. ring. }
    rewrite (to_double_comp _ _ E). unfold to_double. rewrite round_opp.
    fold (to_double (inject_Z (- n))).
    pose proof (Hpos (- n) ltac:(lia)) as Hd. unfold is_double in Hd.
    rewrite Hd, E. reflexivity.
  - vm_compute. reflexivity.
  - apply Hpos. lia.
Qed.

(** A product of non-negative integers that is a valid length is exact in
    doubles; a larger one stays above every valid length once rounded. *)
Lemma double_length (a b : Z) :
  0 <= a * b <= max_length ->
  (to_double (inject_Z a * inject_Z b) == inject_Z (a * b))%Q.
Proof.
  intros H.
  assert (E : (inject_Z a * inject_Z b == inject_Z (a * b))%Q)
    by (rewrite inject_Z_mult; reflexivity).
  rewrite (to_double_comp _ _ E). apply integer_double.
  unfold max_length in H. lia.
Qed.

Lemma double_above (q : Q) :
  (inject_Z (2 ^ 53) <= q)%Q -> (inject_Z max_length < to_double q)%Q.
Proof.
  intros H. apply to_double_le in H.
  assert (E : to_double (inject_Z (2 ^ 53)) = inject_Z (2 ^ 53))
    by (vm_compute; reflexivity).
  rewrite E in H.
  assert (inject_Z max_length < inject_Z (2 ^ 53))%Q by (vm_compute; reflexivity).
  lra.
Qed.

(** The length [a * b * k] of line 93, 94, 95 or 123 as the code computes
    it, in doubles: it is the exact integer when that is a valid length,
    and is above every valid length when the exact integer is. *)
Lemma length_in_doubles (a b k : Z) :
  0 <= a -> 0 <= b -> 0 < k ->
  let len := to_double (to_double (inject_Z a * inject_Z b) * inject_Z k) in
  (a * b * k <= max_length -> (len == inject_Z (a * b * k))%Q) /\
  (max_length < a * b * k -> (inject_Z max_length < len)%Q).
Proof.
  intros Ha Hb Hk. cbv zeta.
  assert (Hm : max_length = 2 ^ 53 - 1) by reflexivity.
  destruct (Z_le_gt_dec (a * b) max_length) as [Hab|Hab].
  - pose proof (double_length a b ltac:(nia)) as Eab.
    assert (E : (to_double (inject_Z a * inject_Z b) * inject_Z k
                 == inject_Z (a * b) * inject_Z k)%Q) by (rewrite Eab; reflexivity).
    rewrite (to_double_comp _ _ E). split.
    + intros H. rewrite (double_length (a * b) k) by nia. reflexivity.
    + intros H. apply double_above. rewrite <- inject_Z_mult.
      unfold Qle; simpl. lia.
  - split; [nia|]. intros _. apply double_above.
    assert (H1 : (inject_Z (2 ^ 53) <= to_double (inject_Z a * inject_Z b))%Q).
    { assert (E : to_double (inject_Z (2 ^ 53)) = inject_Z (2 ^ 53))
        by (vm_compute; reflexivity).
      rewrite <- E. apply to_double_le. rewrite <- inject_Z_mult.
      unfold Qle; simpl. lia. }
    assert (H2 : (1 <= inject_Z k)%Q) by (unfold Qle; simpl; lia).
    assert (H3 : (0 <= inject_Z (2 ^ 53))%Q) by (vm_compute; discriminate).
    set (d := to_double (inject_Z a * inject_Z b)) in *.
    assert (H4 : (0 <= (d - inject_Z (2 ^ 53)) * inject_Z k)%Q)
      by (apply Qmult_le_0_compat; lra).
    assert (H5 : (0 <= inject_Z (2 ^ 53) * (inject_Z k - 1))%Q)
      by (apply Qmult_le_0_compat; lra).
    lra.
Qed.

Lemma ilog2_unique a k :
  (0 < a)%Q -> (2 ^ k <= a < 2 ^ (k + 1))%Q -> ilog2 a = k.
Proof.
  intros Ha [Lk Uk]. destruct (ilog2_spec a Ha) as [Le Ue].
  destruct (Z.lt_trichotomy (ilog2 a) k) as [H|[H|H]]; [|exact H|]; exfalso.
  - pose proof (two_power_le (ilog2 a + 1) k ltac:(lia)). lra.
  - pose proof (two_power_le (k + 1) (ilog2 a) ltac:(lia)). lra.
Qed.

Lemma two_power_split n x : (2 ^ n == 2 ^ (n - x) * 2 ^ x)%Q.
Proof.
  rewrite <- Qpower_plus by discriminate.
  replace (n - x + x) with n by lia. reflexivity.
Qed.

(** A rounded value is not moved by rounding it again. *)
Lemma round_pos_idem prec emin a :
  1 <= prec -> (0 < a)%Q -> (0 < round_pos prec emin a)%Q ->
  (round_pos prec emin (round_pos prec emin a) == round_pos prec emin a)%Q.
Proof.
  intros Hp Ha Hr.
  destruct (ilog2_spec a Ha) as [Le Ue].
  set (r := round_pos prec emin a) in *.
  assert (Er : r = (inject_Z (rne (a / 2 ^ Z.max (ilog2 a - (prec - 1)) emin))
                    * 2 ^ Z.max (ilog2 a - (prec - 1)) emin)%Q) by reflexivity.
  set (e := ilog2 a) in *. set (x := Z.max (e - (prec - 1)) emin) in *.
  set (m := rne (a / 2 ^ x)) in *.
  pose proof (two_power_pos x) as Hx.
  assert (Hm : 1 <= m).
  { destruct (Z_lt_le_dec m 1) as [H|H]; [|exact H]. exfalso.
    assert (inject_Z m <= 0)%Q by (unfold Qle; simpl; lia).
    assert (inject_Z m * 2 ^ x <= 0 * 2 ^ x)%Q by (apply Qmult_le_compat_r; lra).
    rewrite Er in Hr. lra. }
  destruct (Z_le_gt_dec x e) as [Hxe|Hxe].
  - (* the unit is at most [2^e] *)
    assert (Hlo : 2 ^ (e - x) <= m).
    { assert (Ht : (inject_Z (2 ^ (e - x)) <= a / 2 ^ x)%Q).
      { apply Qle_shift_div_l; [exact Hx|].
        rewrite <- two_power_Z by lia. rewrite <- two_power_split. exact Le. }
      apply rne_le in Ht. rewrite rne_Z in Ht. exact Ht. }
    assert (Hhi : m <= 2 ^ (e + 1 - x)).
    { assert (Ht : (a / 2 ^ x <= inject_Z (2 ^ (e + 1 - x)))%Q).
      { apply Qle_shift_div_r; [exact Hx|].
        rewrite <- two_power_Z by lia. rewrite <- two_power_split. lra. }
      apply rne_le in Ht. rewrite rne_Z in Ht. exact Ht. }
    destruct (Z.eq_dec m (2 ^ (e + 1 - x))) as [Em|Em].
    + (* the rounding reached the next power of two *)
      assert (Rr : (r == 2 ^ (e + 1))%Q).
      { rewrite Er, Em. rewrite <- two_power_Z by lia.
        rewrite <- two_power_split. reflexivity. }
      assert (Il : ilog2 r = e + 1).
      { apply ilog2_unique; [exact Hr|]. split; [lra|].
        pose proof (Qpower_lt_compat_l 2 (e + 1) (e + 1 + 1) ltac:(lia) ltac:(reflexivity)).
        lra. }
      apply (round_pos_exact prec emin r
               (2 ^ (e + 1 - Z.max (e + 1 - (prec - 1)) emin)) Hr).
      rewrite Il. rewrite <- two_power_Z by lia.
      rewrite <- two_power_split. exact Rr.
    + assert (Il : ilog2 r = e).
      { apply ilog2_unique; [exact Hr|]. rewrite Er. split.
        * rewrite (two_power_split e x). apply Qmult_le_compat_r; [|lra].
          rewrite two_power_Z by lia. unfold Qle; simpl. lia.
        * rewrite (two_power_split (e + 1) x). apply Qmult_lt_compat_r; [lra|].
          rewrite two_power_Z by lia. unfold Qlt; simpl. lia. }
      apply (round_pos_exact prec emin r m Hr). rewrite Il. fold x. rewrite Er. reflexivity.
  - (* below the least positive value: the result is that value *)
    assert (Ex : x = emin) by lia.
    assert (Hm1 : m <= 1).
    { assert (Ht : (a / 2 ^ x <= inject_Z 1)%Q).
      { apply Qle_shift_div_r; [exact Hx|].
        pose proof (two_power_le (e + 1) x ltac:(lia)). change (inject_Z 1) with 1%Q. lra. }
      apply rne_le in Ht. rewrite rne_Z in Ht. exact Ht. }
    assert (Em : m = 1) by lia.
    assert (Rr : (r == 2 ^ emin)%Q).
    { rewrite Er, Em, Ex. change (inject_Z 1) with 1%Q. ring. }
    assert (Il : ilog2 r = emin).
    { apply ilog2_unique; [exact Hr|]. split; [lra|].
      pose proof (Qpower_lt_compat_l 2 emin (emin + 1) ltac:(lia) ltac:(reflexivity)).
      lra. }
    apply (round_pos_exact prec emin r 1 Hr). rewrite Il.
    replace (Z.max (emin - (prec - 1)) emin) with emin by lia.
    rewrite Rr. change (inject_Z 1) with 1%Q. ring.
Qed.

Lemma round_idem prec emin q :
  1 <= prec -> (round prec emin (round prec emin q) == round prec emin q)%Q.
Proof.
  intros Hp.
  assert (Hpos : forall a, (0 < a)%Q ->
            (round prec emin (round prec emin a) == round prec emin a)%Q).
  { intros a Ha.
    pose proof (round_pos_value prec emin a Hp Ha) as Ea.
    pose proof (round_pos_nonneg prec emin a Ha) as Hn.
    destruct (Qlt_le_dec 0 (round_pos prec emin a)) as [Hr|Hr].
    - assert (Hr' : (0 < round prec emin a)%Q) by lra.
      rewrite (round_pos_value prec emin _ Hp Hr').
      rewrite (round_pos_comp prec emin _ _ Hp Hr' Ea).
      rewrite (round_pos_idem prec emin a Hp Ha Hr). symmetry. exact Ea.
    - assert (E0 : (round prec emin a == 0)%Q) by lra.
      rewrite (round_comp prec emin _ _ E0), E0.
      unfold round. simpl. reflexivity. }
  destruct (Qcompare_spec q 0) as [H|H|H].
  - rewrite (round_comp prec emin _ _ H).
    assert (E0 : round prec emin 0 = 0%Q) by reflexivity.
    rewrite E0. rewrite E0. reflexivity.
  - assert (E1 : round prec emin q = (- round prec emin (- q))%Q).
    { rewrite <- round_opp. apply round_comp. ring. }
    rewrite E1, (round_opp prec emin (round prec emin (- q))).
    rewrite (Hpos (- q)%Q) by lra. reflexivity.
  - apply Hpos, H.
Qed.

Lemma to_double_is_double q : is_double (to_double q).
Proof. apply round_idem. lia. Qed.

(** The nearest integer is within a half. *)
Lemma rne_nearest t : (Qabs (inject_Z (rne t) - t) <= 1 # 2)%Q.
Proof.
  pose proof (Qfloor_le t) as Hl. pose proof (Qlt_floor t) as Hu.
  rewrite inject_Z_plus in Hu. change (inject_Z 1) with 1%Q in Hu.
  apply Qabs_Qle_condition. unfold rne.
  destruct (Qcompare_spec (t - inject_Z (Qfloor t)) (1 # 2)) as [H|H|H];
    [destruct (Z.even (Qfloor t))| |];
    rewrite ?inject_Z_plus; change (inject_Z 1) with 1%Q; split; lra.
Qed.

(** Rounding moves a positive rational by at most half a unit in the last
    place. *)
Lemma round_pos_nearest prec emin a :
  let ulp := (2 ^ Z.max (ilog2 a - (prec - 1)) emin)%Q in
  (Qabs (round_pos prec emin a - a) <= ulp / 2)%Q.
Proof.
  cbv zeta. unfold round_pos. set (x := Z.max _ _).
  pose proof (two_power_pos x) as Hx.
  pose proof (rne_nearest (a / 2 ^ x)) as Hn.
  apply Qabs_Qle_condition in Hn. apply Qabs_Qle_condition.
  set (m := inject_Z (rne (a / 2 ^ x))) in *.
  assert (E : (a == a / 2 ^ x * 2 ^ x)%Q) by (field; lra).
  assert (H1 : (0 <= (m - a / 2 ^ x + (1 # 2)) * 2 ^ x)%Q)
    by (apply Qmult_le_0_compat; lra).
  assert (H2 : (0 <= ((1 # 2) - (m - a / 2 ^ x)) * 2 ^ x)%Q)
    by (apply Qmult_le_0_compat; lra).
  set (t := (a / 2 ^ x)%Q) in *.
  assert (E1 : (m * 2 ^ x - a == (m - t) * 2 ^ x)%Q) by (rewrite E at 1; ring).
  rewrite E1. split; [|].
  - assert (E2 : ((m - t + (1 # 2)) * 2 ^ x == (m - t) * 2 ^ x + 2 ^ x / 2)%Q) by field.
    rewrite E2 in H1. lra.
  - assert (E2 : (((1 # 2) - (m - t)) * 2 ^ x == 2 ^ x / 2 - (m - t) * 2 ^ x)%Q) by field.
    rewrite E2 in H2. lra.
Qed.

(** The stored normal component: -1 is a single. *)
Lemma float32_minus_one : float32_element (Fin (-1)) = Fin (-1).
Proof. vm_compute. reflexivity. Qed.

(** ** The effective grid *)

Lemma gridY_cases p : gridY p = 1 \/ 4 <= gridY p.
Proof.
  unfold gridY, grid, snd.
  destruct (Math_floor (double_mul (ToNumber (_lod p)) (ToNumber (_ySegments p))))
    as [z|]; unfold int_lt.
  - destruct (Z.ltb_spec z 4) as [E|E].
    + right. change (4 <? 4) with false. cbv beta iota. unfold int_or.
      change (4 =? 0) with false. cbv iota. lia.
    + destruct (Z.ltb_spec z 4); [lia|]. unfold int_or.
      destruct (Z.eqb_spec z 0); lia.
  - left; reflexivity.
Qed.

Lemma grid_nonzero p : gridX p <> 0 /\ gridY p <> 0.
Proof.
  split.
  - unfold gridX, grid, fst.
    destruct (Math_floor (double_mul (ToNumber (_lod p)) (ToNumber (_xSegments p))))
      as [z|]; unfold int_or; [|lia].
    destruct (Z.eqb_spec z 0); lia.
  - destruct (gridY_cases p); lia.
Qed.

Lemma Qfloor_nonneg q : (0 <= q)%Q -> 0 <= Qfloor q.
Proof. intros H. apply Qfloor_resp_le in H. exact H. Qed.

Lemma int_or_1_ge (n : option Z) :
  match n with Some z => 0 <= z | None => True end -> 1 <= int_or n 1.
Proof.
  destruct n as [z|]; unfold int_or; [|lia].
  intros H. destruct (Z.eqb_spec z 0); lia.
Qed.

Lemma gridX_sanitized p : sanitized p -> 1 <= gridX p.
Proof.
  intros [_ _ Hxs _ Hl]. unfold gridX, grid, fst. apply int_or_1_ge.
  destruct (_lod p) as [|[|l]]; try contradiction; [exact I|].
  destruct (_xSegments p) as [|[|xs]]; try contradiction.
  apply Qfloor_nonneg, to_double_nonneg, Qmult_le_0_compat;
    [apply Hl | apply Qlt_le_weak, Hxs].
Qed.

(** The grid of finite fields, in closed form. *)
Lemma grid_finite p l xs ys :
  _lod p = Num (Fin l) ->
  _xSegments p = Num (Fin xs) ->
  _ySegments p = Num (Fin ys) ->
  grid p = (int_or (Some (Qfloor (to_double (l * xs)))) 1,
            Z.max 4 (Qfloor (to_double (l * ys)))).
Proof.
  intros Hl Hxs Hys. unfold grid. rewrite Hl, Hxs, Hys.
  unfold ToNumber, double_mul, num_mul, double, Math_floor, int_lt. f_equal.
  destruct (Z.ltb_spec (Qfloor (to_double (l * ys))) 4) as [E|E].
  - change (4 <? 4) with false. cbv beta iota. unfold int_or.
    change (4 =? 0) with false. cbv iota. lia.
  - destruct (Z.ltb_spec (Qfloor (to_double (l * ys))) 4); [lia|]. unfold int_or.
    destruct (Z.eqb_spec (Qfloor (to_double (l * ys))) 0); lia.
Qed.

Lemma int_or_max z : 0 <= z -> int_or (Some z) 1 = Z.max 1 z.
Proof. intros Hz. unfold int_or. destruct (Z.eqb_spec z 0); lia. Qed.

(** C2: with finite parameters whose products stay within the doubles
    and a non-negative product [lod * xSegments], the rebuild derives
    [gridX = max(1, floor(lod * xSegments))] and
    [gridY = max(4, floor(lod * ySegments))], each product being the double
    product of line 70 or 71; with [lod = 0] the vertical count is 4
    whatever [ySegments] is, and so never 0. *)
Theorem effective_grid_dimensions (p : Plane) (l xs ys : Q) :
  _lod p = Num (Fin l) ->
  _xSegments p = Num (Fin xs) ->
  _ySegments p = Num (Fin ys) ->
  in_double_range (l * xs) -> in_double_range (l * ys) ->
  (0 <= l * xs)%Q ->
  gridX p = Z.max 1 (Qfloor (to_double (l * xs))) /\
  gridY p = Z.max 4 (Qfloor (to_double (l * ys))) /\
  ((l == 0)%Q -> gridY p = 4 /\ gridY p <> 0).
Proof.
  intros Hl Hxs Hys _ _ Hpos.
  unfold gridX, gridY. rewrite (grid_finite p l xs ys Hl Hxs Hys). cbn [fst snd].
  split; [|split].
  - apply int_or_max, Qfloor_nonneg, to_double_nonneg, Hpos.
  - reflexivity.
  - intros H0.
    assert (E : (l * ys == 0)%Q) by (rewrite H0; ring).
    rewrite (to_double_comp _ _ E). destruct round_units as (-> & _).
    change (Qfloor 0) with 0. lia.
Qed.

Lemma effective_grid_dimensions_witness :
  (gridX plane_lod_0_3 = Z.max 1 (Qfloor (to_double (double_0_3 * 10))) /\
   gridY plane_lod_0_3 = Z.max 4 (Qfloor (to_double (double_0_3 * 10))) /\
   ((double_0_3 == 0)%Q -> gridY plane_lod_0_3 = 4 /\ gridY plane_lod_0_3 <> 0)) /\
  (gridX plane_lod0 = Z.max 1 (Qfloor (to_double (0 * 7))) /\
   gridY plane_lod0 = Z.max 4 (Qfloor (to_double (0 * 9))) /\
   ((0 == 0)%Q -> gridY plane_lod0 = 4 /\ gridY plane_lod0 <> 0)).
Proof.
  split.
  - apply (effective_grid_dimensions plane_lod_0_3 double_0_3 10 10);
      [reflexivity | reflexivity | reflexivity
      | vm_compute; discriminate | vm_compute; discriminate
      | vm_compute; discriminate].
  - apply (effective_grid_dimensions plane_lod0 0 7 9);
      [reflexivity | reflexivity | reflexivity
      | vm_compute; discriminate | vm_compute; discriminate
      | vm_compute; discriminate].
Defined.

(** ** The setters *)

Lemma set_scheme k v w : set k v w = setter k v w.
Proof.
  destruct k; unfold set, setter, stored_for; cbn [defaulted get out_of_range];
    [unfold set_lod | unfold set_xSize | unfold set_ySize
    | unfold set_xSegments | unfold set_ySegments];
    match goal with
    | |- context [strict_eq ?a ?b] => destruct (strict_eq a b); [reflexivity|]
    end;
    match goal with
    | |- context [if ?c then (_, _) else _] => destruct c; reflexivity
    end.
Qed.

Lemma get_store k u p : get k (store k u p) = u.
Proof. destruct k; reflexivity. Qed.

Lemma get_store_ne k k' u p : k <> k' -> get k' (store k u p) = get k' p.
Proof. destruct k, k'; intros H; try reflexivity; contradiction. Qed.

Lemma dirty_store k u p : __dirty (store k u p) = __dirty p.
Proof. destruct k; reflexivity. Qed.

Lemma geometry_store k u p : geometry (store k u p) = geometry p.
Proof. destruct k; reflexivity. Qed.

Lemma get_gridDirty k w : get k (self (_gridDirty w)) = get k (self w).
Proof. unfold _gridDirty. destruct (__dirty (self w)), k; reflexivity. Qed.

Lemma gridDirty_dirty w : __dirty (self (_gridDirty w)) = true.
Proof. unfold _gridDirty. destruct (__dirty (self w)) eqn:E; [exact E | reflexivity]. Qed.

Lemma gridDirty_tick2 w :
  tick2 (_gridDirty w) = if __dirty (self w) then tick2 w else S (tick2 w).
Proof. unfold _gridDirty. destruct (__dirty (self w)); reflexivity. Qed.

Lemma gridDirty_logs w :
  warnings (_gridDirty w) = warnings w /\ fired (_gridDirty w) = fired w.
Proof. unfold _gridDirty. destruct (__dirty (self w)); split; reflexivity. Qed.

Lemma gridDirty_geometry w : geometry (self (_gridDirty w)) = geometry (self w).
Proof. unfold _gridDirty. destruct (__dirty (self w)); reflexivity. Qed.

Lemma js_or_finite v d :
  ~ (d == 0)%Q ->
  exists q, js_or v (Num (Fin d)) = Num (Fin q) /\ ~ (q == 0)%Q.
Proof.
  intros Hd. unfold js_or. destruct v as [|[|q]]; simpl; eauto.
  destruct (Qeq_bool q 0) eqn:E; simpl; eauto.
  exists q. split; [reflexivity|]. intros H. apply Qeq_bool_iff in H. congruence.
Qed.

(** The sign correction of the size and segment setters. *)
Lemma sign_flip_positive q :
  ~ (q == 0)%Q ->
  positive (if js_lt (Num (Fin q)) (Num (Fin 0))
            then Num (num_mul (ToNumber (Num (Fin q))) (Fin (-1)))
            else Num (Fin q)).
Proof.
  intros Hq. unfold js_lt, ToNumber.
  destruct (num_lt (Fin q) (Fin 0)) eqn:E; simpl.
  - apply num_lt_Fin in E. lra.
  - apply num_lt_Fin_false in E. lra.
Qed.

(** The clamp of the [lod] setter. *)
Lemma clamp_stored n :
  lod_stored (if js_lt (Num n) (Num (Fin 0)) || js_gt (Num n) (Num (Fin 1))
              then (if js_lt (Num n) (Num (Fin 0)) then Num (Fin 0) else Num (Fin 1))
              else Num n).
Proof.
  destruct n as [|q]; [exact I|]. unfold js_lt, js_gt, ToNumber.
  destruct (num_lt (Fin q) (Fin 0)) eqn:E0; unfold orb, lod_stored; [lra|].
  destruct (num_lt (Fin 1) (Fin q)) eqn:E1; [lra|].
  apply num_lt_Fin_false in E0, E1. lra.
Qed.

(** Whatever the input, what a setter stores is storable. *)
Lemma stored_for_storable k v : storable k (stored_for k (defaulted k v)).
Proof.
  unfold stored_for.
  destruct k; cbn [defaulted out_of_range correction storable].
  - assert (Hv : exists n, (if negb (strict_eq v undefined) then v else Num (Fin 1)) = Num n).
    { destruct v as [|[|q]]; simpl; eauto. }
    destruct Hv as [n ->]. apply clamp_stored.
  - destruct (js_or_finite v 1) as (q & -> & Hq); [lra|]. apply sign_flip_positive, Hq.
  - destruct (js_or_finite v (1 # 4)) as (q & -> & Hq); [lra|]. apply sign_flip_positive, Hq.
  - destruct (js_or_finite v 4) as (q & -> & Hq); [lra|]. apply sign_flip_positive, Hq.
  - destruct (js_or_finite v 4) as (q & -> & Hq); [lra|]. apply sign_flip_positive, Hq.
Qed.

(** A defaulted input is never [undefined]. *)
Lemma defaulted_defined k v : defaulted k v <> undefined.
Proof.
  destruct k; cbn [defaulted].
  - destruct v as [|[|q]]; simpl; discriminate.
  - destruct (js_or_finite v 1) as (q & -> & _); [lra | discriminate].
  - destruct (js_or_finite v (1 # 4)) as (q & -> & _); [lra | discriminate].
  - destruct (js_or_finite v 4) as (q & -> & _); [lra | discriminate].
  - destruct (js_or_finite v 4) as (q & -> & _); [lra | discriminate].
Qed.

(** A setter call that returns at its guard changes nothing. *)
Lemma setter_guard k v w :
  strict_eq (get k (self w)) (defaulted k v) = true -> setter k v w = w.
Proof. unfold setter. intros ->. reflexivity. Qed.

(** A setter call that gets past its guard: what it leaves behind. *)
Lemma setter_past_guard k v w :
  strict_eq (get k (self w)) (defaulted k v) = false ->
  let x := defaulted k v in
  let w' := setter k v w in
  __dirty (self w') = true /\
  tick2 w' = (if __dirty (self w) then tick2 w else S (tick2 w)) /\
  get k (self w') = stored_for k x /\
  (forall k', k <> k' -> get k' (self w') = get k' (self w)) /\
  warnings w' = warnings w ++ (if out_of_range k x then [warning k] else []) /\
  fired w' = fired w ++ [(name k, stored_for k x)] /\
  geometry (self w') = geometry (self w).
Proof.
  intros Hg. cbv zeta. unfold setter. rewrite Hg. set (x := defaulted k v).
  set (w1 := if out_of_range k x then warn (warning k) w else w).
  assert (H1 : self w1 = self w /\ tick2 w1 = tick2 w /\ fired w1 = fired w /\
               warnings w1 = warnings w ++ (if out_of_range k x then [warning k] else [])).
  { subst w1. destruct (out_of_range k x); simpl; rewrite ?app_nil_r; auto. }
  destruct H1 as (Hs & Ht & Hf & Hw).
  set (w2 := update (store k (stored_for k x)) w1).
  destruct (gridDirty_logs w2) as [Hw2 Hf2].
  unfold fire; simpl.
  rewrite gridDirty_dirty, gridDirty_tick2, Hw2, Hf2, get_gridDirty, gridDirty_geometry.
  subst w2; unfold update; simpl.
  rewrite dirty_store, get_store, geometry_store, Hs, Ht, Hf, Hw.
  repeat split. intros k' Hk. rewrite get_gridDirty. simpl.
  apply get_store_ne, Hk.
Qed.

Lemma sanitized_get p :
  sanitized p <-> forall k, storable k (get k p).
Proof.
  split.
  - intros [] k; destruct k; assumption.
  - intros H. constructor;
      [apply (H xSize) | apply (H ySize) | apply (H xSegments)
      | apply (H ySegments) | apply (H lod)].
Qed.

Lemma property_eq_dec (k k' : property) : {k = k'} + {k <> k'}.
Proof. decide equality. Defined.

(** After a setter call its field is storable, whatever it was before,
    provided it was unset or storable. *)
Lemma set_storable k v w :
  get k (self w) = undefined \/ storable k (get k (self w)) ->
  storable k (get k (self (set k v w))).
Proof.
  intros H. rewrite set_scheme.
  destruct (strict_eq (get k (self w)) (defaulted k v)) eqn:E.
  - rewrite (setter_guard _ _ _ E). destruct H as [Hu | Hs]; [|exact Hs].
    exfalso. rewrite Hu in E. pose proof (defaulted_defined k v).
    destruct (defaulted k v) as [|[|q]]; [congruence | discriminate | discriminate].
  - destruct (setter_past_guard k v w E) as (_ & _ & -> & _).
    apply stored_for_storable.
Qed.

Lemma set_other k k' v w : k <> k' -> get k' (self (set k v w)) = get k' (self w).
Proof.
  intros Hk. rewrite set_scheme.
  destruct (strict_eq (get k (self w)) (defaulted k v)) eqn:E.
  - rewrite (setter_guard _ _ _ E). reflexivity.
  - destruct (setter_past_guard k v w E) as (_ & _ & _ & Hne & _). apply Hne, Hk.
Qed.

(** No setter touches the buffers. *)
Lemma setter_geometry k v w :
  geometry (self (setter k v w)) = geometry (self w).
Proof.
  destruct (strict_eq (get k (self w)) (defaulted k v)) eqn:E.
  - rewrite (setter_guard _ _ _ E). reflexivity.
  - apply (setter_past_guard k v w E).
Qed.

(** The setters keep sanitized fields sanitized. *)
Lemma set_sanitized k v w : sanitized (self w) -> sanitized (self (set k v w)).
Proof.
  intros Hs. apply sanitized_get. intros k'.
  destruct (property_eq_dec k k') as [<- | Hkk].
  - apply set_storable. right. apply sanitized_get, Hs.
  - rewrite (set_other _ _ _ _ Hkk). apply sanitized_get, Hs.
Qed.

(** The setters keep the flag and the pending callback in step. *)
Lemma set_coherent k v w : coherent w -> coherent (set k v w).
Proof.
  unfold coherent. intros Hc. rewrite set_scheme.
  destruct (strict_eq (get k (self w)) (defaulted k v)) eqn:E.
  - rewrite (setter_guard _ _ _ E). exact Hc.
  - destruct (setter_past_guard k v w E) as (-> & -> & _).
    destruct (__dirty (self w)); lia.
Qed.

(** While the flag is set no setter call schedules a callback or clears it. *)
Lemma set_while_dirty k v w :
  __dirty (self w) = true ->
  __dirty (self (set k v w)) = true /\ tick2 (set k v w) = tick2 w.
Proof.
  intros Hd. rewrite set_scheme.
  destruct (strict_eq (get k (self w)) (defaulted k v)) eqn:E.
  - rewrite (setter_guard _ _ _ E). auto.
  - destruct (setter_past_guard k v w E) as (-> & -> & _). rewrite Hd. auto.
Qed.

Lemma sets_while_dirty ms w :
  __dirty (self w) = true ->
  __dirty (self (sets ms w)) = true /\ tick2 (sets ms w) = tick2 w.
Proof.
  revert w. induction ms as [|[k v] ms IH]; intros w Hd; [auto|].
  unfold sets; simpl. fold (sets ms (set k v w)).
  destruct (set_while_dirty k v w Hd) as [Hd' Ht]. rewrite <- Ht. apply IH, Hd'.
Qed.

Lemma sets_geometry ms w : geometry (self (sets ms w)) = geometry (self w).
Proof.
  revert w. induction ms as [|[k v] ms IH]; intros w; [reflexivity|].
  unfold sets; simpl. fold (sets ms (set k v w)).
  rewrite IH, set_scheme. apply setter_geometry.
Qed.

Lemma sets_sanitized ms w : sanitized (self w) -> sanitized (self (sets ms w)).
Proof.
  revert w. induction ms as [|[k v] ms IH]; intros w Hs; [exact Hs|].
  unfold sets; simpl. fold (sets ms (set k v w)). apply IH, set_sanitized, Hs.
Qed.

Lemma set_field k k' v w :
  storable k' (get k' (self w)) -> storable k' (get k' (self (set k v w))).
Proof.
  intros H. destruct (property_eq_dec k k') as [<- | Hk].
  - apply set_storable. right; exact H.
  - rewrite (set_other _ _ _ _ Hk). exact H.
Qed.

(** The constructor leaves every field sanitized. *)
Lemma init_sanitized cfg : sanitized (self (_init cfg new_World)).
Proof.
  change (_init cfg new_World) with
    (update (with_autoNormals
               match cfg_autoNormals cfg with Some false => false | _ => true end)
       (set lod (cfg_lod cfg)
          (set ySegments (cfg_ySegments cfg)
             (set xSegments (cfg_xSegments cfg)
                (set ySize (cfg_ySize cfg)
                   (set xSize (cfg_xSize cfg) new_World)))))).
  apply sanitized_get. intros k.
  match goal with
  | |- storable k (get k (self (update _ ?w))) => change (storable k (get k (self w)))
  end.
  destruct k.
  - apply set_storable. left. rewrite !set_other by discriminate. reflexivity.
  - do 4 apply set_field. apply set_storable. left. reflexivity.
  - do 3 apply set_field. apply set_storable. left.
    rewrite !set_other by discriminate. reflexivity.
  - do 2 apply set_field. apply set_storable. left.
    rewrite !set_other by discriminate. reflexivity.
  - apply set_field. apply set_storable. left.
    rewrite !set_other by discriminate. reflexivity.
Qed.

Lemma init_coherent cfg : coherent (_init cfg new_World).
Proof.
  change (_init cfg new_World) with
    (update (with_autoNormals
               match cfg_autoNormals cfg with Some false => false | _ => true end)
       (set lod (cfg_lod cfg)
          (set ySegments (cfg_ySegments cfg)
             (set xSegments (cfg_xSegments cfg)
                (set ySize (cfg_ySize cfg)
                   (set xSize (cfg_xSize cfg) new_World)))))).
  match goal with
  | |- coherent (update _ ?w) => assert (H : coherent w)
  end.
  { do 5 apply set_coherent. reflexivity. }
  exact H.
Qed.

(** ** Loops that fill a buffer block by block *)

(** The invariant rule for [for (i = 0; i < n; i++)]. *)
Lemma fold_left_seq_inv {S : Type} (f : S -> nat -> S) (P : nat -> S -> Prop)
      (n : nat) (st : S) :
  P 0%nat st ->
  (forall i s, (i < n)%nat -> P i s -> P (Datatypes.S i) (f s i)) ->
  P n (fold_left f (seq 0 n) st).
Proof.
  intros H0 Hstep. induction n as [|n IH]; [exact H0|].
  rewrite seq_S, fold_left_app. simpl. apply Hstep; [lia|].
  apply IH. intros i s Hi. apply Hstep. lia.
Qed.

Section BlockLoop.

(** Both loops of [_buildGrid] walk a grid of [m] rows and [n] columns
    and, at each cell, write into the [s] elements that start at the
    running offset, which they then advance by [s].  [inv] is whatever
    else the loop keeps fixed (the element type of the index array). *)
Context {S A : Type}.
Variables (arr : S -> list A) (off : S -> nat) (inv : S -> Prop).
Variables (s n m : nat).
Variable body : nat -> S -> nat -> S.
Variable written : nat -> nat -> nat -> option A -> option A.

Hypothesis body_inv : forall r st c, inv st -> inv (body r st c).
Hypothesis body_off : forall r st c, off (body r st c) = (off st + s)%nat.
Hypothesis body_length :
  forall r st c, length (arr (body r st c)) = length (arr st).
Hypothesis body_frame :
  forall r st c j, (j < off st \/ off st + s <= j)%nat ->
                   arr (body r st c) !! j = arr st !! j.
Hypothesis body_written :
  forall r st c t, inv st -> (t < s)%nat ->
                   (off st + s <= length (arr st))%nat ->
                   arr (body r st c) !! (off st + t)%nat
                   = written r c t (arr st !! (off st + t)%nat).

Lemma block_row r st :
  inv st ->
  (off st + s * n <= length (arr st))%nat ->
  let st' := fold_left (body r) (seq 0 n) st in
  inv st' /\
  off st' = (off st + s * n)%nat /\
  length (arr st') = length (arr st) /\
  (forall j, (j < off st \/ off st + s * n <= j)%nat ->
             arr st' !! j = arr st !! j) /\
  (forall c t, (c < n)%nat -> (t < s)%nat ->
               arr st' !! (off st + s * c + t)%nat
               = written r c t (arr st !! (off st + s * c + t)%nat)).
Proof.
  intros Hinv Hcap. cbv zeta.
  apply (fold_left_seq_inv (body r)
           (fun k st' =>
              inv st' /\
              off st' = (off st + s * k)%nat /\
              length (arr st') = length (arr st) /\
              (forall j, (j < off st \/ off st + s * k <= j)%nat ->
                         arr st' !! j = arr st !! j) /\
              (forall c t, (c < k)%nat -> (t < s)%nat ->
                           arr st' !! (off st + s * c + t)%nat
                           = written r c t (arr st !! (off st + s * c + t)%nat)))).
  - repeat split; [exact Hinv | lia | intros c t Hc; lia].
  - intros k s1 Hk (Hi & Hoff & Hlen & Hframe & Hval).
    split; [apply body_inv, Hi|].
    split; [rewrite body_off, Hoff; lia|].
    split; [rewrite body_length; exact Hlen|].
    split.
    + intros j Hj. rewrite body_frame by (rewrite Hoff; nia).
      apply Hframe. nia.
    + intros c t Hc Ht.
      destruct (Nat.eq_dec c k) as [-> | Hne].
      * replace (off st + s * k + t)%nat with (off s1 + t)%nat by lia.
        rewrite body_written; [|exact Hi | exact Ht | rewrite Hlen, Hoff; nia].
        f_equal. rewrite Hoff. apply Hframe. lia.
      * rewrite body_frame by (rewrite Hoff; nia).
        apply Hval; [lia | exact Ht].
Qed.

Lemma block_loop st :
  inv st ->
  (off st + s * n * m <= length (arr st))%nat ->
  let st' :=
    fold_left (fun st r => fold_left (body r) (seq 0 n) st) (seq 0 m) st in
  inv st' /\
  off st' = (off st + s * n * m)%nat /\
  length (arr st') = length (arr st) /\
  (forall r c t, (r < m)%nat -> (c < n)%nat -> (t < s)%nat ->
                 arr st' !! (off st + s * (r * n + c) + t)%nat
                 = written r c t (arr st !! (off st + s * (r * n + c) + t)%nat)).
Proof.
  intros Hinv Hcap. cbv zeta.
  enough (H :
    let st' :=
      fold_left (fun st r => fold_left (body r) (seq 0 n) st) (seq 0 m) st in
    inv st' /\
    off st' = (off st + s * n * m)%nat /\
    length (arr st') = length (arr st) /\
    (forall j, (j < off st \/ off st + s * n * m <= j)%nat ->
               arr st' !! j = arr st !! j) /\
    (forall r c t, (r < m)%nat -> (c < n)%nat -> (t < s)%nat ->
                   arr st' !! (off st + s * (r * n + c) + t)%nat
                   = written r c t (arr st !! (off st + s * (r * n + c) + t)%nat))).
  { destruct H as (H0 & H1 & H2 & _ & H4). auto. }
  cbv zeta.
  apply (fold_left_seq_inv (fun st r => fold_left (body r) (seq 0 n) st)
           (fun k st' =>
              inv st' /\
              off st' = (off st + s * n * k)%nat /\
              length (arr st') = length (arr st) /\
              (forall j, (j < off st \/ off st + s * n * k <= j)%nat ->
                         arr st' !! j = arr st !! j) /\
              (forall r c t, (r < k)%nat -> (c < n)%nat -> (t < s)%nat ->
                             arr st' !! (off st + s * (r * n + c) + t)%nat
                             = written r c t
                                 (arr st !! (off st + s * (r * n + c) + t)%nat)))).
  - repeat split; [exact Hinv | lia | intros r c t Hr; lia].
  - intros k s1 Hk (Hi & Hoff & Hlen & Hframe & Hval).
    destruct (block_row k s1 Hi) as (Rinv & Roff & Rlen & Rframe & Rval);
      [rewrite Hlen, Hoff; nia|].
    split; [exact Rinv|].
    split; [rewrite Roff, Hoff; nia|].
    split; [rewrite Rlen; exact Hlen|].
    split.
    + intros j Hj. rewrite Rframe by (rewrite Hoff; nia).
      apply Hframe. nia.
    + intros r c t Hr Hc Ht.
      destruct (Nat.eq_dec r k) as [-> | Hne].
      * replace (off st + s * (k * n + c) + t)%nat
          with (off s1 + s * c + t)%nat by (rewrite Hoff; nia).
        rewrite Rval by assumption. f_equal. apply Hframe.
        rewrite Hoff. nia.
      * rewrite Rframe by (rewrite Hoff; nia).
        apply Hval; [lia | exact Hc | exact Ht].
Qed.

End BlockLoop.

(** ** The vertex loop *)

Lemma vertex_loop_lengths width height gridX gridY st :
  let st' := vertex_loop width height gridX gridY st in
  length (vl_positions st') = length (vl_positions st) /\
  length (vl_normals st') = length (vl_normals st) /\
  length (vl_uvs st') = length (vl_uvs st).
Proof.
  cbv zeta. unfold vertex_loop.
  apply (fold_left_seq_inv _
           (fun _ st' =>
              length (vl_positions st') = length (vl_positions st) /\
              length (vl_normals st') = length (vl_normals st) /\
              length (vl_uvs st') = length (vl_uvs st))); [auto|].
  intros iy s1 _ IH. unfold vertex_row.
  apply (fold_left_seq_inv _
           (fun _ st' =>
              length (vl_positions st') = length (vl_positions st) /\
              length (vl_normals st') = length (vl_normals st) /\
              length (vl_uvs st') = length (vl_uvs st))); [exact IH|].
  intros ix s2 _ (H1 & H2 & H3). unfold vertex_body; simpl.
  rewrite !length_insert. auto.
Qed.

(** The position components the loop writes for column [ix] and row [iy]. *)
Lemma vertex_loop_positions width height gridX gridY st :
  let n := Z.to_nat (gridX + 1) in
  let m := Z.to_nat (gridY + 1) in
  vl_offset st = 0%nat ->
  (3 * n * m <= length (vl_positions st))%nat ->
  forall iy ix, (iy < m)%nat -> (ix < n)%nat ->
    let ps := vl_positions (vertex_loop width height gridX gridY st) in
    let v := (iy * n + ix)%nat in
    ps !! (3 * v)%nat
      = Some (float32_element
                (double_sub (double_mul (of_nat ix) (double_div width (of_Z gridX)))
                            (double_div width (Fin 2)))) /\
    ps !! (3 * v + 1)%nat
      = Some (float32_element
                (num_neg
                   (double_sub (double_mul (of_nat iy) (double_div height (of_Z gridY)))
                               (double_div height (Fin 2))))) /\
    ps !! (3 * v + 2)%nat = vl_positions st !! (3 * v + 2)%nat.
Proof.
  intros n m Hoff Hcap iy ix Hiy Hix. cbv zeta.
  pose (y := fun iy =>
               double_sub (double_mul (of_nat iy) (double_div height (of_Z gridY)))
                          (double_div height (Fin 2))).
  pose (written := fun (r c t : nat) (old : option number) =>
                     match t with
                     | O => Some (float32_element
                                    (double_sub
                                       (double_mul (of_nat c) (double_div width (of_Z gridX)))
                                       (double_div width (Fin 2))))
                     | 1%nat => Some (float32_element (num_neg (y r)))
                     | _ => old
                     end).
  destruct (block_loop vl_positions vl_offset (fun _ => True) 3 n m
              (fun r st c => vertex_body width gridX gridY r (y r) st c)
              written) with (st := st) as (_ & _ & _ & Hval).
  - auto.
  - reflexivity.
  - intros r s1 c. unfold vertex_body; simpl. rewrite !length_insert. reflexivity.
  - intros r s1 c j Hj. unfold vertex_body; simpl.
    rewrite !list_lookup_insert_ne by lia. reflexivity.
  - intros r s1 c t _ Ht Hcap1. unfold vertex_body; simpl.
    destruct t as [|[|[|t]]]; [| | |lia]; simpl.
    + rewrite list_lookup_insert_ne by lia.
      rewrite Nat.add_0_r. apply list_lookup_insert_eq. lia.
    + apply list_lookup_insert_eq. rewrite length_insert. lia.
    + rewrite !list_lookup_insert_ne by lia. reflexivity.
  - exact I.
  - rewrite Hoff. lia.
  - rewrite Hoff in Hval. simpl in Hval.
    pose proof (Hval iy ix 0%nat Hiy Hix ltac:(lia)) as H0.
    pose proof (Hval iy ix 1%nat Hiy Hix ltac:(lia)) as H1.
    pose proof (Hval iy ix 2%nat Hiy Hix ltac:(lia)) as H2.
    rewrite Nat.add_0_r in H0.
    unfold vertex_loop, vertex_row. fold n m.
    split; [exact H0 | split; [exact H1 | exact H2]].
Qed.

(** ** The index loop *)

(** The six elements the loop writes for the cell in column [ix], row
    [iy], each reduced to the element type of the array. *)
Lemma index_loop_elems gridX gridY arr0 :
  let n := Z.to_nat gridX in
  let m := Z.to_nat gridY in
  let ty := elemType arr0 in
  (6 * n * m <= length (elems arr0))%nat ->
  let res := fst (index_loop gridX gridY (arr0, 0%nat)) in
  elemType res = ty /\
  length (elems res) = length (elems arr0) /\
  forall iy ix, (iy < m)%nat -> (ix < n)%nat ->
    let o := (6 * (iy * n + ix))%nat in
    let a := Z.of_nat ix + (gridX + 1) * Z.of_nat iy in
    let b := Z.of_nat ix + (gridX + 1) * (Z.of_nat iy + 1) in
    let c := (Z.of_nat ix + 1) + (gridX + 1) * (Z.of_nat iy + 1) in
    let d := (Z.of_nat ix + 1) + (gridX + 1) * Z.of_nat iy in
    elems res !! o = Some (to_element ty d) /\
    elems res !! (o + 1)%nat = Some (to_element ty b) /\
    elems res !! (o + 2)%nat = Some (to_element ty a) /\
    elems res !! (o + 3)%nat = Some (to_element ty d) /\
    elems res !! (o + 4)%nat = Some (to_element ty c) /\
    elems res !! (o + 5)%nat = Some (to_element ty b).
Proof.
  intros n m ty Hcap. cbv zeta.
  pose (written := fun (r c t : nat) (_ : option Z) =>
    let a := Z.of_nat c + (gridX + 1) * Z.of_nat r in
    let b := Z.of_nat c + (gridX + 1) * (Z.of_nat r + 1) in
    let c' := (Z.of_nat c + 1) + (gridX + 1) * (Z.of_nat r + 1) in
    let d := (Z.of_nat c + 1) + (gridX + 1) * Z.of_nat r in
    Some (to_element ty
            match t with
            | 0%nat => d | 1%nat => b | 2%nat => a
            | 3%nat => d | 4%nat => c' | _ => b
            end)).
  destruct (block_loop (fun st : IndexArray * nat => elems (fst st)) snd
              (fun st => elemType (fst st) = ty) 6 n m
              (fun r st c => index_body gridX r st c)
              written) with (st := (arr0, 0%nat)) as (Hty & _ & Hlen & Hval).
  - intros r [arr o] c H. exact H.
  - intros r [arr o] c. reflexivity.
  - intros r [arr o] c. unfold index_body; simpl. rewrite !length_insert. reflexivity.
  - intros r [arr o] c j Hj. unfold index_body; simpl in Hj |- *.
    rewrite !list_lookup_insert_ne by lia. reflexivity.
  - intros r [arr o] c t Hi Ht Hcap1. unfold index_body; simpl in Hi, Hcap1 |- *.
    rewrite Hi.
    destruct t as [|[|[|[|[|[|t]]]]]]; [| | | | | |lia]; unfold written; cbv zeta.
    + rewrite Nat.add_0_r. rewrite !list_lookup_insert_ne by lia.
      apply list_lookup_insert_eq. lia.
    + rewrite !list_lookup_insert_ne by lia.
      apply list_lookup_insert_eq. rewrite !length_insert. lia.
    + rewrite !list_lookup_insert_ne by lia.
      apply list_lookup_insert_eq. rewrite !length_insert. lia.
    + rewrite !list_lookup_insert_ne by lia.
      apply list_lookup_insert_eq. rewrite !length_insert. lia.
    + rewrite !list_lookup_insert_ne by lia.
      apply list_lookup_insert_eq. rewrite !length_insert. lia.
    + apply list_lookup_insert_eq. rewrite !length_insert. lia.
  - reflexivity.
  - simpl. lia.
  - unfold index_loop, index_row. fold n m.
    split; [exact Hty | split; [exact Hlen|]].
    intros iy ix Hiy Hix. simpl in Hval.
    pose proof (Hval iy ix 0%nat Hiy Hix ltac:(lia)) as H0.
    pose proof (Hval iy ix 1%nat Hiy Hix ltac:(lia)) as H1.
    pose proof (Hval iy ix 2%nat Hiy Hix ltac:(lia)) as H2.
    pose proof (Hval iy ix 3%nat Hiy Hix ltac:(lia)) as H3.
    pose proof (Hval iy ix 4%nat Hiy Hix ltac:(lia)) as H4.
    pose proof (Hval iy ix 5%nat Hiy Hix ltac:(lia)) as H5.
    rewrite Nat.add_0_r in H0.
    repeat split; assumption.
Qed.

(** A vertex index below the vertex count survives the store unchanged
    when the count fits the element type. *)
Lemma to_element_small ty z V :
  0 <= z < V -> V <= 2 ^ bits ty -> to_element ty z = z.
Proof. intros Hz HV. unfold to_element. apply Z.mod_small. lia. Qed.

(** Line 123, as a test on the length of the position buffer. *)
Lemma index_type_spec (ps : list number) :
  index_type ps = if 65535 * 3 <? Z.of_nat (length ps) then Uint32Array else Uint16Array.
Proof.
  unfold index_type, num_div, of_nat, of_Z.
  change (Qeq_bool 3 0) with false. cbv iota.
  destruct (num_lt (Fin 65535) (Fin (inject_Z (Z.of_nat (length ps)) / 3))) eqn:E.
  - apply num_lt_Fin in E.
    unfold Qlt, Qdiv, Qmult, Qinv, inject_Z, Qnum, Qden in E.
    destruct (Z.ltb_spec (65535 * 3) (Z.of_nat (length ps))); [reflexivity | lia].
  - apply num_lt_Fin_false in E.
    unfold Qle, Qdiv, Qmult, Qinv, inject_Z, Qnum, Qden in E.
    destruct (Z.ltb_spec (65535 * 3) (Z.of_nat (length ps))); [lia | reflexivity].
Qed.

(** ** The build as a whole *)

Lemma grants_spec E s len :
  grants E s len = true <-> 0 <= len <= max_length /\ E s len = true.
Proof.
  unfold grants. rewrite !andb_true_iff, Z.leb_le, Z.leb_le. tauto.
Qed.

(** The buffers of the vertex loop as the allocations leave them. *)
Lemma vertex_loop_built_lengths width height gridX gridY (V : Z) :
  let st := vertex_loop width height gridX gridY
              (mkVertexLoop (replicate (Z.to_nat (V * 3)) (Fin 0))
                            (replicate (Z.to_nat (V * 3)) (Fin 0))
                            (replicate (Z.to_nat (V * 2)) (Fin 0)) 0 0) in
  length (vl_positions st) = Z.to_nat (V * 3) /\
  length (vl_normals st) = Z.to_nat (V * 3) /\
  length (vl_uvs st) = Z.to_nat (V * 2).
Proof.
  cbv zeta.
  pose proof (vertex_loop_lengths width height gridX gridY
                (mkVertexLoop (replicate (Z.to_nat (V * 3)) (Fin 0))
                              (replicate (Z.to_nat (V * 3)) (Fin 0))
                              (replicate (Z.to_nat (V * 2)) (Fin 0)) 0 0))
    as (L1 & L2 & L3).
  simpl in L1, L2, L3. rewrite length_replicate in L1, L2, L3. auto.
Qed.

(** Line 123 on the position buffer of a build: the test is on the vertex
    count. *)
Lemma index_type_vertices (ps : list number) (V : Z) :
  0 <= V -> length ps = Z.to_nat (V * 3) ->
  index_type ps = if 65535 <? V then Uint32Array else Uint16Array.
Proof.
  intros HV Hlen. rewrite index_type_spec, Hlen, Z2Nat.id by lia.
  destruct (Z.ltb_spec (65535 * 3) (V * 3)), (Z.ltb_spec 65535 V);
    try reflexivity; lia.
Qed.

(** What a build that returns has done: the allocations succeeded, the
    vertex loop ran on zero-filled buffers and the index loop on a
    zero-filled array of the chosen type. *)
Lemma build_buffers_Ok E width height gridX gridY b :
  build_buffers E width height gridX gridY = Ok b ->
  allocates E gridX gridY = true /\
  0 <= (gridX + 1) * (gridY + 1) /\ 0 <= gridX * gridY /\
  exists st ia,
    st = vertex_loop width height gridX gridY
           (mkVertexLoop
              (replicate (Z.to_nat ((gridX + 1) * (gridY + 1) * 3)) (Fin 0))
              (replicate (Z.to_nat ((gridX + 1) * (gridY + 1) * 3)) (Fin 0))
              (replicate (Z.to_nat ((gridX + 1) * (gridY + 1) * 2)) (Fin 0))
              0 0) /\
    ia = fst (index_loop gridX gridY
                (mkIndexArray (index_type (vl_positions st))
                              (replicate (Z.to_nat (gridX * gridY * 6)) 0),
                 0%nat)) /\
    b = mkMeshBuffers (vl_positions st) (vl_normals st) (vl_uvs st) ia.
Proof.
  unfold build_buffers, new_Float32Array, new_IndexArray, allocates. cbv zeta.
  set (V := (gridX + 1) * (gridY + 1)).
  destruct (grants E Positions (V * 3)) eqn:G1; [|discriminate].
  destruct (grants E Normals (V * 3)) eqn:G2; [|discriminate].
  destruct (grants E Uvs (V * 2)) eqn:G3; [|discriminate].
  unfold bind.
  apply grants_spec in G1. assert (HV : 0 <= V) by lia.
  destruct (vertex_loop_built_lengths width height gridX gridY V) as (L1 & _).
  rewrite <- (index_type_vertices _ V HV L1).
  match goal with
  | |- context [grants E (Indices ?t) ?n] => destruct (grants E (Indices t) n) eqn:G4
  end; [|discriminate].
  match goal with
  | |- (let '(_, _) := ?l in _) = _ -> _ => destruct l as [ia o] eqn:El
  end.
  intros [= <-]. apply grants_spec in G4.
  split; [reflexivity|]. split; [exact HV|]. split; [lia|].
  eexists _, ia. split; [reflexivity|]. split; [|reflexivity].
  rewrite El. reflexivity.
Qed.

(** A build returns exactly when its four allocations are granted. *)
Lemma build_buffers_total E width height gridX gridY :
  allocates E gridX gridY = true ->
  exists b, build_buffers E width height gridX gridY = Ok b.
Proof.
  unfold build_buffers, new_Float32Array, new_IndexArray, allocates. cbv zeta.
  set (V := (gridX + 1) * (gridY + 1)).
  rewrite !andb_true_iff. intros (((G1 & G2) & G3) & G4).
  rewrite G1, G2, G3. unfold bind.
  pose proof (proj1 (grants_spec _ _ _) G1) as [HV _].
  destruct (vertex_loop_built_lengths width height gridX gridY V) as (L1 & _).
  rewrite (index_type_vertices _ V ltac:(lia) L1), G4.
  match goal with
  | |- exists _, (let '(_, _) := ?l in _) = _ => destruct l as [ia o]
  end.
  eexists. reflexivity.
Qed.

Lemma build_buffers_RangeError E width height gridX gridY :
  build_buffers E width height gridX gridY = RangeError <->
  allocates E gridX gridY = false.
Proof.
  split.
  - intros H. destruct (allocates E gridX gridY) eqn:A; [|reflexivity].
    destruct (build_buffers_total E width height gridX gridY A) as [b Hb].
    congruence.
  - intros A. destruct (build_buffers E width height gridX gridY) as [b|] eqn:Hb;
      [|reflexivity].
    apply build_buffers_Ok in Hb. destruct Hb as [A' _]. congruence.
Qed.

Lemma build_buffers_lengths E width height gridX gridY b :
  build_buffers E width height gridX gridY = Ok b ->
  Z.of_nat (length (positions b)) = (gridX + 1) * (gridY + 1) * 3 /\
  Z.of_nat (length (normals b)) = (gridX + 1) * (gridY + 1) * 3 /\
  Z.of_nat (length (uv b)) = (gridX + 1) * (gridY + 1) * 2 /\
  Z.of_nat (length (elems (indices b))) = gridX * gridY * 6.
Proof.
  intros H. destruct (build_buffers_Ok _ _ _ _ _ _ H)
    as (_ & HV & HC & st & ia & Hst & Hia & ->). simpl.
  destruct (vertex_loop_built_lengths width height gridX gridY
              ((gridX + 1) * (gridY + 1))) as (L1 & L2 & L3).
  rewrite <- Hst in L1, L2, L3. rewrite L1, L2, L3.
  assert (L4 : length (elems ia) = Z.to_nat (gridX * gridY * 6)).
  { rewrite Hia.
    apply (fold_left_seq_inv _
             (fun _ (s : IndexArray * nat) =>
                length (elems (fst s)) = Z.to_nat (gridX * gridY * 6))).
    - simpl. apply length_replicate.
    - intros iy s1 _ IH. unfold index_row.
      apply (fold_left_seq_inv _
               (fun _ (s : IndexArray * nat) =>
                  length (elems (fst s)) = Z.to_nat (gridX * gridY * 6)));
        [exact IH|].
      intros ix [arr o] _ IH2. unfold index_body; simpl.
      rewrite !length_insert. exact IH2. }
  rewrite L4. rewrite !Z2Nat.id by lia. auto.
Qed.

Lemma _buildGrid_Ok E p p' :
  _buildGrid E p = Ok p' ->
  exists b,
    build_buffers E (ToNumber (_xSize p)) (ToNumber (_ySize p)) (gridX p) (gridY p)
    = Ok b /\ p' = with_geometry b p.
Proof.
  unfold _buildGrid, gridX, gridY. destruct (grid p) as [gx gy]. simpl.
  destruct (build_buffers _ _ _ gx gy) as [b|]; [|discriminate].
  intros [= <-]. eauto.
Qed.

Lemma _buildGrid_total E p :
  allocates E (gridX p) (gridY p) = true ->
  exists b,
    build_buffers E (ToNumber (_xSize p)) (ToNumber (_ySize p)) (gridX p) (gridY p)
    = Ok b /\ _buildGrid E p = Ok (with_geometry b p).
Proof.
  intros A.
  destruct (build_buffers_total E (ToNumber (_xSize p)) (ToNumber (_ySize p))
              (gridX p) (gridY p) A) as [b Hb].
  exists b. split; [exact Hb|].
  revert Hb. unfold _buildGrid, gridX, gridY. destruct (grid p) as [gx gy]. simpl.
  intros ->. reflexivity.
Qed.

Lemma _buildGrid_RangeError E p :
  _buildGrid E p = RangeError <-> allocates E (gridX p) (gridY p) = false.
Proof.
  rewrite <- (build_buffers_RangeError E (ToNumber (_xSize p)) (ToNumber (_ySize p))).
  unfold _buildGrid, gridX, gridY. destruct (grid p) as [gx gy]. simpl.
  destruct (build_buffers _ _ _ gx gy) as [b|]; simpl; split; congruence.
Qed.

(** The lengths of the buffers of a build that returns. *)
Lemma built_lengths E p p' :
  _buildGrid E p = Ok p' ->
  exists b,
    p' = with_geometry b p /\
    Z.of_nat (length (positions b)) = 3 * (gridX p + 1) * (gridY p + 1) /\
    length (normals b) = length (positions b) /\
    Z.of_nat (length (uv b)) = 2 * (gridX p + 1) * (gridY p + 1) /\
    Z.of_nat (length (elems (indices b))) = 6 * gridX p * gridY p.
Proof.
  intros Hb. destruct (_buildGrid_Ok _ _ _ Hb) as (b & Hb' & ->).
  exists b. split; [reflexivity|].
  destruct (build_buffers_lengths _ _ _ _ _ _ Hb') as (L1 & L2 & L3 & L4).
  repeat split; lia.
Qed.

(** C1 (as amended): when the engine provides the four typed arrays, the
    rebuild returns, and the buffers it assigns have lengths
    [3*gridX1*gridY1] (positions, and normals the same), [2*gridX1*gridY1]
    (uvs) and [6*gridX*gridY] (indices); when it refuses one of them the
    rebuild throws a [RangeError] and assigns nothing.  This holds for any
    stored fields; with sanitized ones both counts are at least 1, so no
    length is negative and an array is refused only for being too long. *)
Theorem buffer_lengths (E : Engine) (p : Plane) :
  (allocates E (gridX p) (gridY p) = true ->
   exists b,
     _buildGrid E p = Ok (with_geometry b p) /\
     Z.of_nat (length (positions b)) = 3 * (gridX p + 1) * (gridY p + 1) /\
     length (normals b) = length (positions b) /\
     Z.of_nat (length (uv b)) = 2 * (gridX p + 1) * (gridY p + 1) /\
     Z.of_nat (length (elems (indices b))) = 6 * gridX p * gridY p) /\
  (allocates E (gridX p) (gridY p) = false -> _buildGrid E p = RangeError) /\
  (sanitized p -> 1 <= gridX p /\ 1 <= gridY p).
Proof.
  split; [|split].
  - intros A. destruct (_buildGrid_total E p A) as (b & _ & Hp).
    destruct (built_lengths E p _ Hp) as (b' & Eb & L).
    exists b'. rewrite <- Eb. split; [exact Hp | exact L].
  - apply _buildGrid_RangeError.
  - intros Hs. split; [apply gridX_sanitized, Hs|].
    destruct (gridY_cases p); lia.
Qed.

Lemma plane_2x2_sanitized : sanitized plane_2x2.
Proof. constructor; simpl; q_literal. Qed.

Lemma plane_2x2_builds :
  exists b, _buildGrid sample_engine plane_2x2 = Ok (with_geometry b plane_2x2).
Proof.
  destruct (_buildGrid_total sample_engine plane_2x2 ltac:(vm_compute; reflexivity))
    as (b & _ & Hb).
  exists b. exact Hb.
Qed.

Lemma buffer_lengths_witness :
  (exists b,
     _buildGrid sample_engine plane_2x2 = Ok (with_geometry b plane_2x2) /\
     Z.of_nat (length (positions b)) = 3 * (gridX plane_2x2 + 1) * (gridY plane_2x2 + 1) /\
     length (normals b) = length (positions b) /\
     Z.of_nat (length (uv b)) = 2 * (gridX plane_2x2 + 1) * (gridY plane_2x2 + 1) /\
     Z.of_nat (length (elems (indices b))) = 6 * gridX plane_2x2 * gridY plane_2x2) /\
  _buildGrid sample_engine plane_1e12 = RangeError.
Proof.
  split.
  - apply (proj1 (buffer_lengths sample_engine plane_2x2)).
    vm_compute. reflexivity.
  - apply (proj1 (proj2 (buffer_lengths sample_engine plane_1e12))).
    vm_compute. reflexivity.
Defined.

(** C1 as stated fails: the fields of [plane_1e16] are sanitized, yet its
    position buffer would have more than [2^53 - 1] elements, which no
    engine provides, and the rebuild throws; with [10^12] segments, which
    the language allows, it throws under an engine that provides arrays of
    up to [2^32 - 1] elements. *)
Lemma buffer_lengths_counterexample :
  sanitized plane_1e16 /\
  (forall E, _buildGrid E plane_1e16 = RangeError) /\
  sanitized plane_1e12 /\
  _buildGrid sample_engine plane_1e12 = RangeError.
Proof.
  split; [constructor; simpl; q_literal|].
  split; [intros E; vm_compute; reflexivity|].
  split; [constructor; simpl; q_literal|].
  vm_compute. reflexivity.
Qed.

(** The first two position components of a vertex, as the loop computes
    and stores them, and the third, which it leaves at zero. *)
Lemma built_vertex_position E (p p' : Plane) (b : MeshBuffers) (ix iy : nat) :
  _buildGrid E p = Ok p' ->
  geometry p' = Some b ->
  Z.of_nat ix < gridX p + 1 ->
  Z.of_nat iy < gridY p + 1 ->
  let width := ToNumber (_xSize p) in
  let height := ToNumber (_ySize p) in
  let v := (iy * Z.to_nat (gridX p + 1) + ix)%nat in
  positions b !! (3 * v)%nat
  = Some (float32_element
            (double_sub (double_mul (of_nat ix) (double_div width (of_Z (gridX p))))
                        (double_div width (Fin 2)))) /\
  positions b !! (3 * v + 1)%nat
  = Some (float32_element
            (num_neg
               (double_sub (double_mul (of_nat iy) (double_div height (of_Z (gridY p))))
                           (double_div height (Fin 2))))) /\
  positions b !! (3 * v + 2)%nat = Some (Fin 0).
Proof.
  intros Hb Hg Hix Hiy. cbv zeta.
  destruct (_buildGrid_Ok _ _ _ Hb) as (b' & Hb' & ->).
  simpl in Hg. injection Hg as ->.
  destruct (build_buffers_Ok _ _ _ _ _ _ Hb')
    as (_ & HV & HC & st & ia & Hst & Hia & ->). simpl.
  destruct (vertex_loop_positions (ToNumber (_xSize p)) (ToNumber (_ySize p))
              (gridX p) (gridY p)
              (mkVertexLoop
                 (replicate (Z.to_nat ((gridX p + 1) * (gridY p + 1) * 3)) (Fin 0))
                 (replicate (Z.to_nat ((gridX p + 1) * (gridY p + 1) * 3)) (Fin 0))
                 (replicate (Z.to_nat ((gridX p + 1) * (gridY p + 1) * 2)) (Fin 0))
                 0 0) eq_refl) with (iy := iy) (ix := ix) as (H0 & H1 & H2).
  - simpl. rewrite length_replicate. nia.
  - lia.
  - lia.
  - rewrite <- Hst in H0, H1, H2. split; [exact H0 | split; [exact H1|]].
    etransitivity; [exact H2|]. simpl. apply lookup_replicate_2. nia.
Qed.

(** C3 (as amended): the position emitted for the vertex in column [ix]
    of row [iy], at offset [3*(iy*gridX1 + ix)] of the position buffer, is
    [(x, -y, 0)] rounded to single precision, where
    [x = ix*segmentWidth - width/2] and [y = iy*segmentHeight - height/2]
    are computed in doubles and taken to be within the range of singles;
    with width 2, height 2, gridX 1, gridY 4 the vertex (0, 0) is at
    (-1, 1, 0). *)
Theorem vertex_positions (E : Engine) (p p' : Plane) (b : MeshBuffers)
        (ix iy : nat) :
  _buildGrid E p = Ok p' ->
  geometry p' = Some b ->
  Z.of_nat ix < gridX p + 1 ->
  Z.of_nat iy < gridY p + 1 ->
  let width := ToNumber (_xSize p) in
  let height := ToNumber (_ySize p) in
  let segmentWidth := double_div width (of_Z (gridX p)) in
  let segmentHeight := double_div height (of_Z (gridY p)) in
  let x := double_sub (double_mul (of_nat ix) segmentWidth) (double_div width (Fin 2)) in
  let y := double_sub (double_mul (of_nat iy) segmentHeight)
                      (double_div height (Fin 2)) in
  let v := (iy * Z.to_nat (gridX p + 1) + ix)%nat in
  in_float32_range x -> in_float32_range y ->
  (positions b !! (3 * v)%nat = Some (float32_element x) /\
   positions b !! (3 * v + 1)%nat = Some (float32_element (num_neg y)) /\
   positions b !! (3 * v + 2)%nat = Some (Fin 0)) /\
  (width = Fin 2 -> height = Fin 2 -> gridX p = 1 -> gridY p = 4 ->
   ix = 0%nat -> iy = 0%nat ->
   float32_element x = Fin (-1) /\ float32_element (num_neg y) = Fin 1).
Proof.
  intros Hb Hg Hix Hiy. cbv zeta. intros _ _.
  split; [exact (built_vertex_position E p p' b ix iy Hb Hg Hix Hiy)|].
  intros -> -> -> -> -> ->. vm_compute. split; reflexivity.
Qed.

Lemma vertex_positions_witness :
  (exists b,
     _buildGrid sample_engine plane_2x2 = Ok (with_geometry b plane_2x2) /\
     positions b !! 0%nat = Some (Fin (-1)) /\
     positions b !! 1%nat = Some (Fin 1) /\
     positions b !! 2%nat = Some (Fin 0)) /\
  (exists b,
     _buildGrid sample_engine plane_thirds = Ok (with_geometry b plane_thirds) /\
     positions b !! 3%nat = Some (Fin (to_float32 (-3002399751580331 # 18014398509481984))) /\
     positions b !! 4%nat = Some (Fin (to_float32 (1 # 2))) /\
     positions b !! 5%nat = Some (Fin 0)).
Proof.
  split.
  - destruct plane_2x2_builds as (b & Hb).
    pose proof (vertex_positions sample_engine plane_2x2 (with_geometry b plane_2x2) b
                  0 0 Hb eq_refl ltac:(vm_compute; reflexivity)
                  ltac:(vm_compute; reflexivity)
                  ltac:(vm_compute; discriminate) ltac:(vm_compute; discriminate))
      as [(H0 & H1 & H2) H3].
    destruct H3 as [Ex Ey]; try reflexivity.
    exists b. split; [exact Hb|].
    split; [rewrite <- Ex; exact H0|]. split; [rewrite <- Ey; exact H1 | exact H2].
  - destruct (_buildGrid_total sample_engine plane_thirds ltac:(vm_compute; reflexivity))
      as (b & _ & Hb).
    pose proof (vertex_positions sample_engine plane_thirds (with_geometry b plane_thirds)
                  b 1 0 Hb eq_refl ltac:(vm_compute; reflexivity)
                  ltac:(vm_compute; reflexivity)
                  ltac:(vm_compute; discriminate) ltac:(vm_compute; discriminate))
      as [(H0 & H1 & H2) _].
    exists b. split; [exact Hb|].
    split; [exact H0|]. split; [exact H1 | exact H2].
Defined.

(** C3 as stated fails: with width 1 in three columns the buffer holds,
    for the vertex in column 1 of row 0, the single -11184811/67108864
    (-0.1666666716337204), which is neither the double that
    [ix*segmentWidth - width/2] evaluates to (-0.16666666666666669) nor
    the rational [1 * (1/3) - 1/2]. *)
Lemma vertex_positions_counterexample :
  exists b,
    _buildGrid sample_engine plane_thirds = Ok (with_geometry b plane_thirds) /\
    gridX plane_thirds = 3 /\
    positions b !! 3%nat = Some (Fin (-11184811 # 67108864)) /\
    double_sub (double_mul (of_nat 1) (double_div (Fin 1) (of_Z 3)))
               (double_div (Fin 1) (Fin 2))
    = Fin (-3002399751580331 # 18014398509481984) /\
    ~ (-11184811 # 67108864 == -3002399751580331 # 18014398509481984)%Q /\
    ~ (-11184811 # 67108864 == 1 * (1 / 3) - 1 / 2)%Q.
Proof.
  eexists. split; [vm_compute; reflexivity|].
  split; [vm_compute; reflexivity|].
  split; [vm_compute; reflexivity|].
  split; [vm_compute; reflexivity|].
  split; intros H; vm_compute in H; discriminate.
Qed.

(** The index array keeps the element type chosen at line 123. *)
Lemma built_index_type E width height gridX gridY b :
  build_buffers E width height gridX gridY = Ok b ->
  elemType (indices b) = index_type (positions b).
Proof.
  intros Hb.
  destruct (build_buffers_Ok _ _ _ _ _ _ Hb)
    as (_ & HV & HC & st & ia & Hst & Hia & ->).
  simpl. rewrite Hia.
  destruct (index_loop_elems gridX gridY
              (mkIndexArray (index_type (vl_positions st))
                 (replicate (Z.to_nat (gridX * gridY * 6)) 0)))
    as (Ht & _); [simpl; rewrite length_replicate; nia|].
  exact Ht.
Qed.

(** The element type of a build, from its vertex count. *)
Lemma built_elemType E width height gridX gridY b :
  build_buffers E width height gridX gridY = Ok b ->
  elemType (indices b)
  = if 65535 <? (gridX + 1) * (gridY + 1) then Uint32Array else Uint16Array.
Proof.
  intros Hb. rewrite (built_index_type _ _ _ _ _ _ Hb).
  destruct (build_buffers_lengths _ _ _ _ _ _ Hb) as (L1 & _).
  destruct (build_buffers_Ok _ _ _ _ _ _ Hb) as (_ & HV & _).
  apply index_type_vertices; [exact HV | lia].
Qed.

(** With 16-bit elements the vertex count is at most 65535. *)
Lemma built_vertices_fit E width height gridX gridY b :
  build_buffers E width height gridX gridY = Ok b ->
  (gridX + 1) * (gridY + 1) <= 2 ^ 32 ->
  (gridX + 1) * (gridY + 1) <= 2 ^ bits (elemType (indices b)).
Proof.
  intros Hb H32. rewrite (built_elemType _ _ _ _ _ _ Hb).
  destruct (Z.ltb_spec 65535 ((gridX + 1) * (gridY + 1))); simpl; lia.
Qed.

(** C5: the index buffer of a build has 32-bit elements exactly when the
    number of vertices it produced, [gridX1*gridY1] (a third of the length
    of the position buffer), exceeds 65535, and 16-bit elements otherwise. *)
Theorem index_element_type (E : Engine) (p p' : Plane) (b : MeshBuffers) :
  _buildGrid E p = Ok p' ->
  geometry p' = Some b ->
  let vertices := (gridX p + 1) * (gridY p + 1) in
  Z.of_nat (length (positions b)) = 3 * vertices /\
  (elemType (indices b) = Uint32Array <-> 65535 < vertices) /\
  (elemType (indices b) = Uint16Array <-> vertices <= 65535).
Proof.
  intros Hb Hg. cbv zeta.
  destruct (_buildGrid_Ok _ _ _ Hb) as (b' & Hb' & ->).
  simpl in Hg. injection Hg as ->.
  destruct (build_buffers_lengths _ _ _ _ _ _ Hb') as (L1 & _).
  split; [lia|].
  rewrite (built_index_type _ _ _ _ _ _ Hb'), index_type_spec.
  destruct (Z.ltb_spec (65535 * 3) (Z.of_nat (length (positions b))));
    split; split; intros; try reflexivity; try discriminate; lia.
Qed.

Lemma index_element_type_witness :
  exists b,
    _buildGrid sample_engine plane_2x2 = Ok (with_geometry b plane_2x2) /\
    Z.of_nat (length (positions b)) = 3 * ((gridX plane_2x2 + 1) * (gridY plane_2x2 + 1)) /\
    (elemType (indices b) = Uint32Array <->
     65535 < (gridX plane_2x2 + 1) * (gridY plane_2x2 + 1)) /\
    (elemType (indices b) = Uint16Array <->
     (gridX plane_2x2 + 1) * (gridY plane_2x2 + 1) <= 65535).
Proof.
  destruct plane_2x2_builds as (b & Hb).
  exists b. split; [exact Hb|].
  exact (index_element_type sample_engine plane_2x2 (with_geometry b plane_2x2) b
           Hb eq_refl).
Defined.

(** The six elements of the cell in column [ix] of row [iy], each reduced
    to the element type of the index buffer. *)
Lemma built_cell E (p p' : Plane) (bufs : MeshBuffers) (ix iy : nat) :
  _buildGrid E p = Ok p' ->
  geometry p' = Some bufs ->
  Z.of_nat ix < gridX p ->
  Z.of_nat iy < gridY p ->
  let ty := elemType (indices bufs) in
  let gridX1 := gridX p + 1 in
  let a := Z.of_nat ix + gridX1 * Z.of_nat iy in
  let b := Z.of_nat ix + gridX1 * (Z.of_nat iy + 1) in
  let c := (Z.of_nat ix + 1) + gridX1 * (Z.of_nat iy + 1) in
  let d := (Z.of_nat ix + 1) + gridX1 * Z.of_nat iy in
  let o := (6 * (iy * Z.to_nat (gridX p) + ix))%nat in
  elems (indices bufs) !! o = Some (to_element ty d) /\
  elems (indices bufs) !! (o + 1)%nat = Some (to_element ty b) /\
  elems (indices bufs) !! (o + 2)%nat = Some (to_element ty a) /\
  elems (indices bufs) !! (o + 3)%nat = Some (to_element ty d) /\
  elems (indices bufs) !! (o + 4)%nat = Some (to_element ty c) /\
  elems (indices bufs) !! (o + 5)%nat = Some (to_element ty b).
Proof.
  intros Hb Hg Hix Hiy. cbv zeta.
  destruct (_buildGrid_Ok _ _ _ Hb) as (b' & Hb' & ->).
  simpl in Hg. injection Hg as ->.
  destruct (build_buffers_Ok _ _ _ _ _ _ Hb')
    as (_ & HV & HC & st & ia & Hst & Hia & Eb).
  rewrite Eb. cbn [indices].
  destruct (index_loop_elems (gridX p) (gridY p)
              (mkIndexArray (index_type (vl_positions st))
                 (replicate (Z.to_nat (gridX p * gridY p * 6)) 0)))
    as (Ht & _ & Hval); [cbn [elems]; rewrite length_replicate; nia|].
  rewrite <- Hia in Ht, Hval. cbn [elemType] in Ht.
  specialize (Hval iy ix ltac:(lia) ltac:(lia)). cbv zeta in Hval.
  rewrite Ht. exact Hval.
Qed.

(** When the vertex count is at most [2^32], a vertex index is stored
    as it is: the element type chosen at line 123 holds it. *)
Lemma built_element_exact E (p p' : Plane) (bufs : MeshBuffers) (z : Z) :
  _buildGrid E p = Ok p' ->
  geometry p' = Some bufs ->
  (gridX p + 1) * (gridY p + 1) <= 2 ^ 32 ->
  0 <= z < (gridX p + 1) * (gridY p + 1) ->
  to_element (elemType (indices bufs)) z = z.
Proof.
  intros Hb Hg H32 Hz.
  destruct (_buildGrid_Ok _ _ _ Hb) as (b' & Hb' & Ep).
  rewrite Ep in Hg. simpl in Hg. injection Hg as ->.
  pose proof (built_vertices_fit _ _ _ _ _ _ Hb' H32) as HVty.
  apply (to_element_small _ _ ((gridX p + 1) * (gridY p + 1))); assumption.
Qed.




(** ** The no-op guard and the sanitizing of inputs *)

Lemma Qeq_bool_nonzero q : ~ (q == 0)%Q -> Qeq_bool q 0 = false.
Proof.
  intros H. destruct (Qeq_bool q 0) eqn:E; [|reflexivity].
  apply Qeq_bool_iff in E. contradiction.
Qed.

(** An input strictly equal to a positive stored value is its own default. *)
Lemma js_or_stored v q d :
  (0 < q)%Q -> strict_eq v (Num (Fin q)) = true -> js_or v d = v.
Proof.
  intros Hq. destruct v as [|[|q']]; simpl; try discriminate.
  intros E. apply Qeq_bool_iff in E. unfold js_or; simpl.
  rewrite Qeq_bool_nonzero; [reflexivity | lra].
Qed.

(** C7: a setter given a value strictly equal to the one it holds returns
    at once: nothing is marked dirty, scheduled, warned about or fired;
    the world is unchanged. *)
Theorem noop_guard (k : property) (v : value) (w : World) :
  sanitized (self w) ->
  strict_eq v (get k (self w)) = true ->
  set k v w = w.
Proof.
  intros Hs Hv. rewrite set_scheme. apply setter_guard.
  pose proof (proj1 (sanitized_get _) Hs k) as Hk.
  assert (Hd : defaulted k v = v).
  { destruct k; cbn [defaulted get storable] in *.
    - destruct v as [|[|q]]; [|reflexivity|reflexivity].
      destruct (_lod (self w)); [contradiction | discriminate].
    - destruct (_xSize (self w)) as [|[|q]]; try contradiction.
      apply (js_or_stored v q); assumption.
    - destruct (_ySize (self w)) as [|[|q]]; try contradiction.
      apply (js_or_stored v q); assumption.
    - destruct (_xSegments (self w)) as [|[|q]]; try contradiction.
      apply (js_or_stored v q); assumption.
    - destruct (_ySegments (self w)) as [|[|q]]; try contradiction.
      apply (js_or_stored v q); assumption. }
  rewrite Hd, strict_eq_sym. exact Hv.
Qed.

Lemma default_World_sanitized : sanitized (self default_World).
Proof. apply init_sanitized. Qed.

Lemma noop_guard_witness : set ySize (Num (Fin (2 # 8))) default_World = default_World.
Proof.
  apply noop_guard; [exact default_World_sanitized | vm_compute; reflexivity].
Defined.

(** C8: on a [lod] field that is unset or within range, assigning -0.5
    stores 0 and assigning 1.5 stores 1, each with one warning; assigning
    [undefined] leaves the field at the default 1 and warns of nothing. *)
Theorem lod_clamp_law (w : World) :
  lod_in_range (_lod (self w)) ->
  (let w' := set lod (Num (Fin (-1 # 2))) w in
   _lod (self w') = Num (Fin 0) /\
   warnings w' = warnings w ++ ["clamping lod to [0..1]"%string]) /\
  (let w' := set lod (Num (Fin (3 # 2))) w in
   _lod (self w') = Num (Fin 1) /\
   warnings w' = warnings w ++ ["clamping lod to [0..1]"%string]) /\
  (let w' := set lod undefined w in
   strict_eq (_lod (self w')) (Num (Fin 1)) = true /\
   warnings w' = warnings w).
Proof.
  intros Hr. cbv zeta. rewrite !set_scheme.
  assert (Hout : forall q, ~ (0 <= q <= 1)%Q ->
                 strict_eq (get lod (self w)) (defaulted lod (Num (Fin q))) = false).
  { intros q Hq. cbn [get defaulted]. simpl negb. cbv iota.
    destruct (_lod (self w)) as [|[|l]]; try reflexivity.
    apply strict_eq_Fin_false. simpl in Hr. intros E. apply Hq. rewrite <- E. exact Hr. }
  split; [|split].
  - destruct (setter_past_guard lod (Num (Fin (-1 # 2))) w) as (_ & _ & Hg & _ & Hw & _).
    { apply Hout. intros [H _]. revert H. q_literal. }
    split; [exact Hg | exact Hw].
  - destruct (setter_past_guard lod (Num (Fin (3 # 2))) w) as (_ & _ & Hg & _ & Hw & _).
    { apply Hout. intros [_ H]. revert H. q_literal. }
    split; [exact Hg | exact Hw].
  - destruct (strict_eq (get lod (self w)) (defaulted lod undefined)) eqn:E.
    + rewrite (setter_guard _ _ _ E). split; [exact E | reflexivity].
    + destruct (setter_past_guard lod undefined w E) as (_ & _ & Hg & _ & Hw & _).
      cbn [get] in Hg. rewrite Hg, Hw. split; [reflexivity | apply app_nil_r].
Qed.

Lemma lod_clamp_law_witness :
  _lod (self (set lod (Num (Fin (-1 # 2))) default_World)) = Num (Fin 0) /\
  _lod (self (set lod (Num (Fin (3 # 2))) (set lod (Num (Fin (1 # 2))) default_World)))
  = Num (Fin 1).
Proof.
  split.
  - apply (lod_clamp_law default_World). vm_compute. split; discriminate.
  - apply (lod_clamp_law (set lod (Num (Fin (1 # 2))) default_World)).
    vm_compute. split; discriminate.
Defined.





(** ** The deferred rebuild *)

Lemma with_geometry_sanitized b p : sanitized p -> sanitized (with_geometry b p).
Proof. intros []. constructor; assumption. Qed.

Lemma with_dirty_sanitized d p : sanitized p -> sanitized (with_dirty d p).
Proof. intros []. constructor; assumption. Qed.

(** The callback, by the two ways its rebuild can end. *)
Lemma tick2_callback_during_Ok E during w p' :
  _buildGrid E (self w) = Ok p' ->
  tick2_callback_during E during w
  = Returned (update (with_dirty false) (during (update (fun _ => p') w))).
Proof. intros H. unfold tick2_callback_during. rewrite H. reflexivity. Qed.

Lemma tick2_callback_during_RangeError E during w :
  _buildGrid E (self w) = RangeError -> tick2_callback_during E during w = Thrown w.
Proof. intros H. unfold tick2_callback_during. rewrite H. reflexivity. Qed.

(** A tick with nothing pending changes nothing. *)
Lemma tick_idle E during w :
  tick2 w = 0%nat -> fire_tick2_during E during w = Returned w.
Proof.
  destruct w as [p t ws fs]. simpl. intros ->. reflexivity.
Qed.

(** A tick with one callback pending runs it, once. *)
Lemma tick_pending E during w :
  tick2 w = 1%nat ->
  fire_tick2_during E during w
  = tick2_callback_during E during (mkWorld (self w) 0 (warnings w) (fired w)).
Proof.
  intros Ht. unfold fire_tick2_during. rewrite Ht. simpl.
  destruct (tick2_callback_during E during _); reflexivity.
Qed.

(** What a tick leaves behind when one callback is pending and the flag
    is set, other code calling the setters [ms] during the callback. *)
Lemma tick_pending_sets E ms w :
  tick2 w = 1%nat -> __dirty (self w) = true ->
  match _buildGrid E (self w) with
  | Ok p' =>
      exists b w',
        p' = with_geometry b (self w) /\
        fire_tick2_during E (sets ms) w = Returned w' /\
        __dirty (self w') = false /\ tick2 w' = 0%nat /\
        geometry (self w') = Some b /\
        (forall k, get k (self w')
                   = get k (self (sets ms (update (fun _ => p')
                                             (mkWorld (self w) 0 (warnings w) (fired w))))))
  | RangeError =>
      fire_tick2_during E (sets ms) w
      = Thrown (mkWorld (self w) 0 (warnings w) (fired w))
  end.
Proof.
  intros Ht Hd. rewrite (tick_pending E (sets ms) w Ht).
  destruct (_buildGrid E (self w)) as [p'|] eqn:Hb.
  - destruct (_buildGrid_Ok _ _ _ Hb) as (b & _ & Ep).
    set (w0 := mkWorld (self w) 0 (warnings w) (fired w)).
    rewrite (tick2_callback_during_Ok E (sets ms) w0 p' Hb).
    destruct (sets_while_dirty ms (update (fun _ => p') w0)) as [Hd' Ht'].
    { simpl. rewrite Ep. exact Hd. }
    exists b, (update (with_dirty false) (sets ms (update (fun _ => p') w0))).
    split; [exact Ep|]. split; [reflexivity|].
    split; [reflexivity|]. split; [exact Ht'|].
    split; [|intros k; destruct k; reflexivity].
    change (geometry (self (sets ms (update (fun _ => p') w0))) = Some b).
    rewrite sets_geometry. simpl. rewrite Ep. reflexivity.
  - apply tick2_callback_during_RangeError. exact Hb.
Qed.

(** The constructor leaves the flag set. *)
Lemma init_dirty cfg : __dirty (self (_init cfg new_World)) = true.
Proof.
  assert (H1 : __dirty (self (set xSize (cfg_xSize cfg) new_World)) = true).
  { rewrite set_scheme.
    destruct (setter_past_guard xSize (cfg_xSize cfg) new_World) as (Hd & _);
      [|exact Hd].
    pose proof (defaulted_defined xSize (cfg_xSize cfg)) as Hdef.
    cbn [get]. change (_xSize (self new_World)) with undefined.
    destruct (defaulted xSize (cfg_xSize cfg)) as [|[|q]];
      [congruence | reflexivity | reflexivity]. }
  change (__dirty (self (set lod (cfg_lod cfg)
            (set ySegments (cfg_ySegments cfg)
               (set xSegments (cfg_xSegments cfg)
                  (set ySize (cfg_ySize cfg)
                     (set xSize (cfg_xSize cfg) new_World)))))) = true).
  do 4 apply set_while_dirty. exact H1.
Qed.

(** Every state of a constructed component has sanitized fields; a
    callback is pending only while the flag is set, and never more than
    one; and while the flag is clear the component has buffers. *)
Lemma constructed_invariant w :
  constructed w ->
  sanitized (self w) /\
  (tick2 w <= if __dirty (self w) then 1 else 0)%nat /\
  (__dirty (self w) = false -> geometry (self w) <> None).
Proof.
  induction 1 as [cfg | k v w _ (Hs & Ht & Hg) | E ms w _ (Hs & Ht & Hg)].
  - split; [apply init_sanitized|].
    pose proof (init_coherent cfg) as Hc. unfold coherent in Hc.
    rewrite init_dirty in *. split; [lia | discriminate].
  - split; [apply set_sanitized, Hs|]. rewrite set_scheme.
    destruct (strict_eq (get k (self w)) (defaulted k v)) eqn:Eg.
    + rewrite (setter_guard _ _ _ Eg). auto.
    + destruct (setter_past_guard k v w Eg) as (-> & -> & _).
      split; [destruct (__dirty (self w)); lia | discriminate].
  - destruct (tick2 w) as [|[|n]] eqn:Et.
    + rewrite (tick_idle E (sets ms) w Et). simpl. rewrite Et. auto.
    + destruct (__dirty (self w)) eqn:Ed; [|lia].
      pose proof (tick_pending_sets E ms w Et Ed) as Hp.
      destruct (_buildGrid E (self w)) as [p'|].
      * destruct Hp as (b & w' & Ep & -> & Hd' & Ht' & Hg' & Hk).
        simpl. split; [|split].
        -- apply sanitized_get. intros k. rewrite Hk.
           apply sanitized_get, sets_sanitized. simpl. rewrite Ep.
           apply with_geometry_sanitized, Hs.
        -- rewrite Ht'. lia.
        -- intros _. rewrite Hg'. discriminate.
      * rewrite Hp. simpl. rewrite Ed. split; [exact Hs|]. split; [lia | discriminate].
    + destruct (__dirty (self w)); lia.
Qed.

(** C9: from a clean state the first setter call that changes anything
    schedules exactly one callback; whatever setter calls follow before
    the tick schedule none; and the tick then runs that one callback, so
    performs exactly one rebuild, of the final parameters: when the
    rebuild returns the flag is clear and nothing is pending, and when it
    throws the tick throws. *)
Theorem coalesced_rebuild (E : Engine) (k : property) (v : value)
        (ms : list (property * value)) (w : World) :
  coherent w ->
  __dirty (self w) = false ->
  set k v w <> w ->
  let w1 := set k v w in
  let w2 := sets ms w1 in
  let pending := mkWorld (self w2) 0 (warnings w2) (fired w2) in
  tick2 w1 = S (tick2 w) /\ tick2 w1 = 1%nat /\
  tick2 w2 = 1%nat /\
  fire_tick2 E w2 = tick2_callback E pending /\
  (forall p', _buildGrid E (self w2) = Ok p' ->
     fire_tick2 E w2
     = Returned (mkWorld (with_dirty false p') 0 (warnings w2) (fired w2))) /\
  (_buildGrid E (self w2) = RangeError -> fire_tick2 E w2 = Thrown pending) /\
  (allocates E (gridX (self w2)) (gridY (self w2)) = true ->
   exists b, _buildGrid E (self w2) = Ok (with_geometry b (self w2))).
Proof.
  intros Hc Hclean Hmut. cbv zeta.
  assert (Hg : strict_eq (get k (self w)) (defaulted k v) = false).
  { destruct (strict_eq (get k (self w)) (defaulted k v)) eqn:Eg; [|reflexivity].
    exfalso. apply Hmut. rewrite set_scheme. apply setter_guard, Eg. }
  assert (H1 : __dirty (self (set k v w)) = true /\ tick2 (set k v w) = S (tick2 w)).
  { rewrite set_scheme.
    destruct (setter_past_guard k v w Hg) as (Hd & Ht & _).
    rewrite Hclean in Ht. auto. }
  destruct H1 as [Hd1 Ht1].
  assert (Ht0 : tick2 w = 0%nat) by (unfold coherent in Hc; rewrite Hclean in Hc; exact Hc).
  destruct (sets_while_dirty ms _ Hd1) as [Hd2 Ht2].
  assert (Ht2' : tick2 (sets ms (set k v w)) = 1%nat) by lia.
  split; [exact Ht1|]. split; [lia|]. split; [exact Ht2'|].
  pose proof (tick_pending E id _ Ht2') as Hp.
  split; [exact Hp|]. split; [|split].
  - intros p' Hb. unfold fire_tick2. rewrite Hp.
    rewrite (tick2_callback_during_Ok E id _ p') by exact Hb. reflexivity.
  - intros Hb. unfold fire_tick2. rewrite Hp.
    apply tick2_callback_during_RangeError. exact Hb.
  - intros A. destruct (_buildGrid_total E _ A) as (b & _ & Hb). eauto.
Qed.

Lemma ticked_World_sanitized : sanitized (self ticked_World).
Proof.
  assert (H : constructed ticked_World).
  { apply (constructed_tick sample_engine [] default_World). apply constructed_init. }
  apply constructed_invariant, H.
Qed.

Lemma coalesced_rebuild_witness :
  tick2 (set xSize (Num (Fin 3)) ticked_World) = S (tick2 ticked_World) /\
  tick2 (sets sample_edits (set xSize (Num (Fin 3)) ticked_World)) = 1%nat /\
  exists b,
    fire_tick2 sample_engine (sets sample_edits (set xSize (Num (Fin 3)) ticked_World))
    = Returned
        (mkWorld
           (with_dirty false
              (with_geometry b
                 (self (sets sample_edits (set xSize (Num (Fin 3)) ticked_World)))))
           0
           (warnings (sets sample_edits (set xSize (Num (Fin 3)) ticked_World)))
           (fired (sets sample_edits (set xSize (Num (Fin 3)) ticked_World)))).
Proof.
  destruct (coalesced_rebuild sample_engine xSize (Num (Fin 3)) sample_edits ticked_World)
    as (H1 & _ & H2 & _ & HOk & _ & Hall).
  - vm_compute. reflexivity.
  - vm_compute. reflexivity.
  - intros Eq. apply (f_equal (fun w => length (fired w))) in Eq.
    vm_compute in Eq. discriminate.
  - split; [exact H1|]. split; [exact H2|].
    destruct Hall as (b & Hb); [vm_compute; reflexivity|].
    exists b. apply HOk, Hb.
Defined.

(** C6 (as amended): the callback clears the flag last, once the rebuild
    work is done.  The flag is therefore still set while the rebuild
    runs; a setter call arriving then schedules no callback; the flag is
    clear when the callback returns, and when the rebuild throws the
    callback throws with the flag still set. *)
Theorem flag_cleared_after_rebuild (E : Engine) (k : property) (v : value)
        (w : World) :
  __dirty (self w) = true ->
  (forall p', _buildGrid E (self w) = Ok p' ->
     let rebuilt := update (fun _ => p') w in
     __dirty (self rebuilt) = true /\
     tick2 (set k v rebuilt) = tick2 w /\
     tick2_callback_during E (set k v) w
     = Returned (update (with_dirty false) (set k v rebuilt)) /\
     __dirty (self (update (with_dirty false) (set k v rebuilt))) = false) /\
  (_buildGrid E (self w) = RangeError ->
   tick2_callback_during E (set k v) w = Thrown w) /\
  (allocates E (gridX (self w)) (gridY (self w)) = true ->
   exists b, _buildGrid E (self w) = Ok (with_geometry b (self w))).
Proof.
  intros Hd. split; [|split].
  - intros p' Hb. cbv zeta.
    destruct (_buildGrid_Ok _ _ _ Hb) as (b & _ & Ep).
    assert (Hd' : __dirty (self (update (fun _ => p') w)) = true).
    { simpl. rewrite Ep. exact Hd. }
    split; [exact Hd'|].
    split; [apply (set_while_dirty k v (update (fun _ => p') w)), Hd'|].
    split; [apply tick2_callback_during_Ok, Hb | reflexivity].
  - apply tick2_callback_during_RangeError.
  - intros A. destruct (_buildGrid_total E _ A) as (b & _ & Hb). eauto.
Qed.

Lemma flag_cleared_after_rebuild_witness :
  (exists w',
     tick2_callback_during sample_engine (set lod (Num (Fin (1 # 2)))) default_World
     = Returned w' /\
     __dirty (self w') = false) /\
  tick2_callback_during sample_engine (set lod (Num (Fin (1 # 2))))
    (set xSegments (Num (Fin (inject_Z (10 ^ 12)))) default_World)
  = Thrown (set xSegments (Num (Fin (inject_Z (10 ^ 12)))) default_World).
Proof.
  split.
  - destruct (flag_cleared_after_rebuild sample_engine lod (Num (Fin (1 # 2)))
                default_World ltac:(vm_compute; reflexivity)) as (HOk & _ & Hall).
    destruct Hall as (b & Hb); [vm_compute; reflexivity|].
    destruct (HOk _ Hb) as (_ & _ & Hcb & Hd).
    eexists. split; [exact Hcb | exact Hd].
  - apply (flag_cleared_after_rebuild sample_engine lod (Num (Fin (1 # 2)))
             (set xSegments (Num (Fin (inject_Z (10 ^ 12)))) default_World)).
    + vm_compute. reflexivity.
    + vm_compute. reflexivity.
Defined.

(** C6 as stated fails: [lod] is set to 0.5 while the first rebuild of a
    default component is running.  The new value is stored, yet after the
    tick the flag is clear and no callback is pending; the buffers are
    those of [lod = 1] (96 indices), not those a rebuild of the stored
    parameters gives (48 indices). *)
Lemma flag_cleared_first_counterexample :
  exists w' b b',
    fire_tick2_during sample_engine (set lod (Num (Fin (1 # 2)))) default_World
    = Returned w' /\
    _lod (self w') = Num (Fin (1 # 2)) /\
    __dirty (self w') = false /\
    tick2 w' = 0%nat /\
    geometry (self w') = Some b /\
    length (elems (indices b)) = 96%nat /\
    _buildGrid sample_engine (self w') = Ok (with_geometry b' (self w')) /\
    length (elems (indices b')) = 48%nat.
Proof.
  eexists _, _, _.
  split; [vm_compute; reflexivity|].
  split; [reflexivity|]. split; [reflexivity|]. split; [reflexivity|].
  split; [reflexivity|]. split; [reflexivity|].
  split; [vm_compute; reflexivity | reflexivity].
Qed.

(** * Further properties of the code *)

(** ** Normals and texture coordinates *)

(** The normal components the loop writes, or leaves, for each vertex. *)
Lemma vertex_loop_normals width height gridX gridY st :
  let n := Z.to_nat (gridX + 1) in
  let m := Z.to_nat (gridY + 1) in
  vl_offset st = 0%nat ->
  (3 * n * m <= length (vl_normals st))%nat ->
  forall iy ix, (iy < m)%nat -> (ix < n)%nat ->
    let ns := vl_normals (vertex_loop width height gridX gridY st) in
    let v := (iy * n + ix)%nat in
    ns !! (3 * v)%nat = vl_normals st !! (3 * v)%nat /\
    ns !! (3 * v + 1)%nat = vl_normals st !! (3 * v + 1)%nat /\
    ns !! (3 * v + 2)%nat = Some (Fin (-1)).
Proof.
  intros n m Hoff Hcap iy ix Hiy Hix. cbv zeta.
  pose (y := fun iy =>
               double_sub (double_mul (of_nat iy) (double_div height (of_Z gridY)))
                          (double_div height (Fin 2))).
  pose (written := fun (r c t : nat) (old : option number) =>
                     match t with
                     | 2%nat => Some (Fin (-1))
                     | _ => old
                     end).
  destruct (block_loop vl_normals vl_offset (fun _ => True) 3 n m
              (fun r st c => vertex_body width gridX gridY r (y r) st c)
              written) with (st := st) as (_ & _ & _ & Hval).
  - auto.
  - reflexivity.
  - intros r s1 c. unfold vertex_body; simpl. rewrite !length_insert. reflexivity.
  - intros r s1 c j Hj. unfold vertex_body; simpl.
    rewrite !list_lookup_insert_ne by lia. reflexivity.
  - intros r s1 c t _ Ht Hcap1. unfold vertex_body. rewrite float32_minus_one. simpl.
    destruct t as [|[|[|t]]]; [| | |lia]; simpl.
    + rewrite list_lookup_insert_ne by lia. reflexivity.
    + rewrite list_lookup_insert_ne by lia. reflexivity.
    + apply list_lookup_insert_eq. lia.
  - exact I.
  - rewrite Hoff. lia.
  - rewrite Hoff in Hval. simpl in Hval.
    pose proof (Hval iy ix 0%nat Hiy Hix ltac:(lia)) as H0.
    pose proof (Hval iy ix 1%nat Hiy Hix ltac:(lia)) as H1.
    pose proof (Hval iy ix 2%nat Hiy Hix ltac:(lia)) as H2.
    rewrite Nat.add_0_r in H0.
    unfold vertex_loop, vertex_row. fold n m.
    split; [exact H0 | split; [exact H1 | exact H2]].
Qed.

(** The texture coordinates the loop writes for each vertex. *)
Lemma vertex_loop_uvs width height gridX gridY st :
  let n := Z.to_nat (gridX + 1) in
  let m := Z.to_nat (gridY + 1) in
  vl_offset2 st = 0%nat ->
  (2 * n * m <= length (vl_uvs st))%nat ->
  forall iy ix, (iy < m)%nat -> (ix < n)%nat ->
    let uvs := vl_uvs (vertex_loop width height gridX gridY st) in
    let v := (iy * n + ix)%nat in
    uvs !! (2 * v)%nat
      = Some (float32_element
                (double_div (of_Z (gridX - Z.of_nat ix)) (of_Z gridX))) /\
    uvs !! (2 * v + 1)%nat
      = Some (float32_element
                (double_sub (Fin 1)
                   (double_div (of_Z (gridY - Z.of_nat iy)) (of_Z gridY)))).
Proof.
  intros n m Hoff Hcap iy ix Hiy Hix. cbv zeta.
  pose (y := fun iy =>
               double_sub (double_mul (of_nat iy) (double_div height (of_Z gridY)))
                          (double_div height (Fin 2))).
  pose (written := fun (r c t : nat) (old : option number) =>
                     match t with
                     | O => Some (float32_element
                                    (double_div (of_Z (gridX - Z.of_nat c)) (of_Z gridX)))
                     | _ => Some (float32_element
                                    (double_sub (Fin 1)
                                       (double_div (of_Z (gridY - Z.of_nat r))
                                                   (of_Z gridY))))
                     end).
  destruct (block_loop vl_uvs vl_offset2 (fun _ => True) 2 n m
              (fun r st c => vertex_body width gridX gridY r (y r) st c)
              written) with (st := st) as (_ & _ & _ & Hval).
  - auto.
  - reflexivity.
  - intros r s1 c. unfold vertex_body; simpl. rewrite !length_insert. reflexivity.
  - intros r s1 c j Hj. unfold vertex_body; simpl.
    rewrite !list_lookup_insert_ne by lia. reflexivity.
  - intros r s1 c t _ Ht Hcap1. unfold vertex_body; simpl.
    destruct t as [|[|t]]; [| |lia]; simpl.
    + rewrite list_lookup_insert_ne by lia.
      rewrite Nat.add_0_r. apply list_lookup_insert_eq. lia.
    + apply list_lookup_insert_eq. rewrite length_insert. lia.
  - exact I.
  - rewrite Hoff. lia.
  - rewrite Hoff in Hval. simpl in Hval.
    pose proof (Hval iy ix 0%nat Hiy Hix ltac:(lia)) as H0.
    pose proof (Hval iy ix 1%nat Hiy Hix ltac:(lia)) as H1.
    rewrite Nat.add_0_r in H0.
    unfold vertex_loop, vertex_row. fold n m.
    split; [exact H0 | exact H1].
Qed.

(** What a returned build holds for the vertex in column [ix] of row
    [iy], besides its position. *)
Lemma built_vertex E (p p' : Plane) (b : MeshBuffers) (ix iy : nat) :
  _buildGrid E p = Ok p' ->
  geometry p' = Some b ->
  Z.of_nat ix < gridX p + 1 ->
  Z.of_nat iy < gridY p + 1 ->
  let v := (iy * Z.to_nat (gridX p + 1) + ix)%nat in
  (normals b !! (3 * v)%nat = Some (Fin 0) /\
   normals b !! (3 * v + 1)%nat = Some (Fin 0) /\
   normals b !! (3 * v + 2)%nat = Some (Fin (-1))) /\
  (uv b !! (2 * v)%nat
   = Some (float32_element
             (double_div (of_Z (gridX p - Z.of_nat ix)) (of_Z (gridX p)))) /\
   uv b !! (2 * v + 1)%nat
   = Some (float32_element
             (double_sub (Fin 1)
                (double_div (of_Z (gridY p - Z.of_nat iy)) (of_Z (gridY p)))))).
Proof.
  intros Hb Hg Hix Hiy. cbv zeta.
  destruct (_buildGrid_Ok _ _ _ Hb) as (b' & Hb' & ->).
  simpl in Hg. injection Hg as ->.
  destruct (build_buffers_Ok _ _ _ _ _ _ Hb')
    as (_ & HV & HC & st & ia & Hst & Hia & ->). simpl.
  set (st0 := mkVertexLoop
                (replicate (Z.to_nat ((gridX p + 1) * (gridY p + 1) * 3)) (Fin 0))
                (replicate (Z.to_nat ((gridX p + 1) * (gridY p + 1) * 3)) (Fin 0))
                (replicate (Z.to_nat ((gridX p + 1) * (gridY p + 1) * 2)) (Fin 0))
                0 0) in Hst.
  split.
  - destruct (vertex_loop_normals (ToNumber (_xSize p)) (ToNumber (_ySize p))
                (gridX p) (gridY p) st0 eq_refl)
      with (iy := iy) (ix := ix) as (H0 & H1 & H2).
    + simpl. rewrite length_replicate. nia.
    + lia.
    + lia.
    + rewrite <- Hst in H0, H1, H2.
      split; [|split; [|exact H2]].
      * etransitivity; [exact H0|]. simpl. apply lookup_replicate_2. nia.
      * etransitivity; [exact H1|]. simpl. apply lookup_replicate_2. nia.
  - destruct (vertex_loop_uvs (ToNumber (_xSize p)) (ToNumber (_ySize p))
                (gridX p) (gridY p) st0 eq_refl)
      with (iy := iy) (ix := ix) as (H0 & H1).
    + simpl. rewrite length_replicate. nia.
    + lia.
    + lia.
    + rewrite <- Hst in H0, H1. split; [exact H0 | exact H1].
Qed.

(** X1: every vertex of a build has the normal [(0, 0, -1)]: of the three
    normal components at offset [3*(iy*gridX1 + ix)] only the third is
    written, with -1, and the other two keep the zero of the allocation. *)
Theorem normals_face_minus_z (E : Engine) (p p' : Plane) (b : MeshBuffers)
        (ix iy : nat) :
  _buildGrid E p = Ok p' ->
  geometry p' = Some b ->
  Z.of_nat ix < gridX p + 1 ->
  Z.of_nat iy < gridY p + 1 ->
  let v := (iy * Z.to_nat (gridX p + 1) + ix)%nat in
  normals b !! (3 * v)%nat = Some (Fin 0) /\
  normals b !! (3 * v + 1)%nat = Some (Fin 0) /\
  normals b !! (3 * v + 2)%nat = Some (Fin (-1)).
Proof.
  intros Hb Hg Hix Hiy. exact (proj1 (built_vertex E p p' b ix iy Hb Hg Hix Hiy)).
Qed.

Lemma normals_face_minus_z_witness :
  exists b,
    _buildGrid sample_engine plane_2x2 = Ok (with_geometry b plane_2x2) /\
    normals b !! 27%nat = Some (Fin 0) /\
    normals b !! 28%nat = Some (Fin 0) /\
    normals b !! 29%nat = Some (Fin (-1)).
Proof.
  destruct plane_2x2_builds as (b & Hb).
  exists b. split; [exact Hb|].
  exact (normals_face_minus_z sample_engine plane_2x2 (with_geometry b plane_2x2) b 1 4
           Hb eq_refl
           ltac:(vm_compute; reflexivity) ltac:(vm_compute; reflexivity)).
Defined.

(** A build that returns had at least one column and one row of cells. *)
Lemma built_grid_positive E p p' :
  _buildGrid E p = Ok p' -> 1 <= gridX p /\ 1 <= gridY p.
Proof.
  intros Hb. destruct (_buildGrid_Ok _ _ _ Hb) as (b & Hb' & _).
  destruct (build_buffers_Ok _ _ _ _ _ _ Hb') as (_ & HV & HC & _).
  pose proof (gridY_cases p). pose proof (grid_nonzero p). nia.
Qed.

Lemma inject_Z_nonzero g : g <> 0 -> Qeq_bool (inject_Z g) 0 = false.
Proof.
  intros Hg. apply Qeq_bool_nonzero. unfold Qeq; simpl. lia.
Qed.

(** Division of integers by a non-zero integer stays finite. *)
Lemma num_div_of_Z a g :
  g <> 0 -> num_div (of_Z a) (of_Z g) = Fin (inject_Z a / inject_Z g).
Proof.
  intros Hg. unfold num_div, of_Z. rewrite (inject_Z_nonzero g Hg). reflexivity.
Qed.

Lemma unit_fraction a g :
  0 <= a <= g -> 0 < g -> (0 <= inject_Z a / inject_Z g <= 1)%Q.
Proof.
  intros Ha Hg.
  assert (Hg' : (0 < inject_Z g)%Q) by (unfold Qlt; simpl; lia).
  split.
  - apply Qle_shift_div_l; [exact Hg'|]. unfold Qle; simpl. lia.
  - apply Qle_shift_div_r; [exact Hg'|]. unfold Qle; simpl. lia.
Qed.

(** The texture coordinates of a returned build as rationals:
    [(gridX - ix) / gridX] rounded to a double and then to a single, and
    [1 - (gridY - iy) / gridY] with both operations rounded to doubles and
    the result to a single. *)
Lemma built_uv E (p p' : Plane) (b : MeshBuffers) (ix iy : nat) :
  _buildGrid E p = Ok p' ->
  geometry p' = Some b ->
  Z.of_nat ix < gridX p + 1 ->
  Z.of_nat iy < gridY p + 1 ->
  let v := (iy * Z.to_nat (gridX p + 1) + ix)%nat in
  uv b !! (2 * v)%nat
  = Some (Fin (to_float32
                 (to_double (inject_Z (gridX p - Z.of_nat ix) / inject_Z (gridX p))))) /\
  uv b !! (2 * v + 1)%nat
  = Some (Fin (to_float32
                 (to_double
                    (1 - to_double (inject_Z (gridY p - Z.of_nat iy)
                                    / inject_Z (gridY p)))))).
Proof.
  intros Hb Hg Hix Hiy. cbv zeta.
  destruct (built_grid_positive _ _ _ Hb) as [HX HY].
  destruct (built_vertex E p p' b ix iy Hb Hg Hix Hiy) as (_ & Hu & Ht).
  unfold double_sub, double_div in Hu, Ht.
  rewrite (num_div_of_Z _ (gridX p)) in Hu by lia.
  rewrite (num_div_of_Z _ (gridY p)) in Ht by lia.
  split; [exact Hu | exact Ht].
Qed.

(** X2: the texture coordinates of the vertex in column [ix] of row [iy],
    at offset [2*(iy*gridX1 + ix)] of the uv buffer, are
    [(gridX - ix)/gridX] and [1 - (gridY - iy)/gridY], each operation
    rounded to a double and the result stored rounded to a single. *)
Theorem uv_coordinates (E : Engine) (p p' : Plane) (b : MeshBuffers)
        (ix iy : nat) :
  _buildGrid E p = Ok p' ->
  geometry p' = Some b ->
  Z.of_nat ix < gridX p + 1 ->
  Z.of_nat iy < gridY p + 1 ->
  let v := (iy * Z.to_nat (gridX p + 1) + ix)%nat in
  uv b !! (2 * v)%nat
  = Some (float32_element
            (double_div (of_Z (gridX p - Z.of_nat ix)) (of_Z (gridX p)))) /\
  uv b !! (2 * v + 1)%nat
  = Some (float32_element
            (double_sub (Fin 1)
               (double_div (of_Z (gridY p - Z.of_nat iy)) (of_Z (gridY p))))) /\
  uv b !! (2 * v)%nat
  = Some (Fin (to_float32
                 (to_double (inject_Z (gridX p - Z.of_nat ix) / inject_Z (gridX p))))) /\
  uv b !! (2 * v + 1)%nat
  = Some (Fin (to_float32
                 (to_double
                    (1 - to_double (inject_Z (gridY p - Z.of_nat iy)
                                    / inject_Z (gridY p)))))).
Proof.
  intros Hb Hg Hix Hiy. cbv zeta.
  destruct (built_vertex E p p' b ix iy Hb Hg Hix Hiy) as (_ & Hu & Ht).
  destruct (built_uv E p p' b ix iy Hb Hg Hix Hiy) as (Hu' & Ht').
  auto.
Qed.

Lemma uv_coordinates_witness :
  (exists b,
     _buildGrid sample_engine plane_2x2 = Ok (with_geometry b plane_2x2) /\
     uv b !! 6%nat = Some (Fin 0) /\
     uv b !! 7%nat = Some (Fin (1 # 4))) /\
  (exists b,
     _buildGrid sample_engine plane_thirds = Ok (with_geometry b plane_thirds) /\
     uv b !! 2%nat = Some (Fin (11184811 # 16777216))).
Proof.
  split.
  - destruct plane_2x2_builds as (b & Hb).
    exists b. split; [exact Hb|].
    destruct (uv_coordinates sample_engine plane_2x2 (with_geometry b plane_2x2) b 1 1
                Hb eq_refl
                ltac:(vm_compute; reflexivity) ltac:(vm_compute; reflexivity))
      as (_ & _ & Hu & Ht).
    split; [exact Hu | exact Ht].
  - destruct (_buildGrid_total sample_engine plane_thirds ltac:(vm_compute; reflexivity))
      as (b & _ & Hb).
    exists b. split; [exact Hb|].
    destruct (uv_coordinates sample_engine plane_thirds (with_geometry b plane_thirds)
                b 1 0 Hb eq_refl
                ltac:(vm_compute; reflexivity) ltac:(vm_compute; reflexivity))
      as (_ & _ & Hu & _).
    exact Hu.
Defined.

(** X3: the texture coordinates of every vertex lie in the unit square;
    U is 1 in the first column and 0 in the last, V is 0 in the first row
    and 1 in the last. *)
Theorem uv_in_unit_square (E : Engine) (p p' : Plane) (b : MeshBuffers)
        (ix iy : nat) :
  _buildGrid E p = Ok p' ->
  geometry p' = Some b ->
  Z.of_nat ix < gridX p + 1 ->
  Z.of_nat iy < gridY p + 1 ->
  let v := (iy * Z.to_nat (gridX p + 1) + ix)%nat in
  exists u t : Q,
    uv b !! (2 * v)%nat = Some (Fin u) /\
    uv b !! (2 * v + 1)%nat = Some (Fin t) /\
    (0 <= u <= 1)%Q /\ (0 <= t <= 1)%Q /\
    (ix = 0%nat -> (u == 1)%Q) /\ (Z.of_nat ix = gridX p -> (u == 0)%Q) /\
    (iy = 0%nat -> (t == 0)%Q) /\ (Z.of_nat iy = gridY p -> (t == 1)%Q).
Proof.
  intros Hb Hg Hix Hiy. cbv zeta.
  destruct (built_grid_positive _ _ _ Hb) as [HX HY].
  destruct (built_uv E p p' b ix iy Hb Hg Hix Hiy) as (Hu & Ht).
  eexists _, _. split; [exact Hu|]. split; [exact Ht|].
  pose proof (unit_fraction (gridX p - Z.of_nat ix) (gridX p) ltac:(lia) ltac:(lia)) as Hfu.
  pose proof (unit_fraction (gridY p - Z.of_nat iy) (gridY p) ltac:(lia) ltac:(lia)) as Hft.
  assert (HgX : ~ (inject_Z (gridX p) == 0)%Q) by (unfold Qeq; simpl; lia).
  assert (HgY : ~ (inject_Z (gridY p) == 0)%Q) by (unfold Qeq; simpl; lia).
  pose proof (to_double_unit _ Hft) as Hdt.
  destruct round_units as (D0 & D1 & S0 & S1 & _).
  split; [apply to_float32_unit, to_double_unit, Hfu|].
  split; [apply to_float32_unit, to_double_unit; lra|].
  split; [|split; [|split]].
  - intros ->. replace (gridX p - Z.of_nat 0) with (gridX p) by lia.
    assert (E1 : (inject_Z (gridX p) / inject_Z (gridX p) == 1)%Q)
      by (field; exact HgX).
    rewrite (to_double_comp _ _ E1), D1, S1. reflexivity.
  - intros ->. replace (gridX p - gridX p) with 0 by lia.
    assert (E0 : (inject_Z 0 / inject_Z (gridX p) == 0)%Q)
      by (unfold Qdiv; change (inject_Z 0) with 0%Q; ring).
    rewrite (to_double_comp _ _ E0), D0, S0. reflexivity.
  - intros ->. replace (gridY p - Z.of_nat 0) with (gridY p) by lia.
    assert (E1 : (inject_Z (gridY p) / inject_Z (gridY p) == 1)%Q)
      by (field; exact HgY).
    rewrite (to_double_comp _ _ E1), D1.
    assert (E0 : (1 - 1 == 0)%Q) by ring.
    rewrite (to_double_comp _ _ E0), D0, S0. reflexivity.
  - intros ->. replace (gridY p - gridY p) with 0 by lia.
    assert (E0 : (inject_Z 0 / inject_Z (gridY p) == 0)%Q)
      by (unfold Qdiv; change (inject_Z 0) with 0%Q; ring).
    rewrite (to_double_comp _ _ E0), D0.
    assert (E1 : (1 - 0 == 1)%Q) by ring.
    rewrite (to_double_comp _ _ E1), D1, S1. reflexivity.
Qed.

Lemma uv_in_unit_square_witness :
  exists b u t,
    _buildGrid sample_engine plane_2x2 = Ok (with_geometry b plane_2x2) /\
    uv b !! 18%nat = Some (Fin u) /\
    uv b !! 19%nat = Some (Fin t) /\
    (0 <= u <= 1)%Q /\ (0 <= t <= 1)%Q /\ (u == 0)%Q /\ (t == 1)%Q.
Proof.
  destruct plane_2x2_builds as (b & Hb).
  destruct (uv_in_unit_square sample_engine plane_2x2 (with_geometry b plane_2x2) b 1 4
              Hb eq_refl
              ltac:(vm_compute; reflexivity) ltac:(vm_compute; reflexivity))
    as (u & t & Hu & Ht & Ru & Rt & _ & Hu0 & _ & Ht1).
  exists b, u, t.
  split; [exact Hb|]. split; [exact Hu|]. split; [exact Ht|].
  split; [exact Ru|]. split; [exact Rt|].
  split; [apply Hu0; reflexivity | apply Ht1; reflexivity].
Defined.

(** ** The index buffer as a whole *)

(** Every offset of a grid of [6]-element cells is that of one cell and
    one of its six slots. *)
Lemma cell_of_offset (n m j : nat) :
  (j < 6 * n * m)%nat ->
  exists iy ix t,
    (iy < m)%nat /\ (ix < n)%nat /\ (t < 6)%nat /\ j = (6 * (iy * n + ix) + t)%nat.
Proof.
  intros Hj. assert (Hn : n <> 0%nat) by nia.
  exists (j / 6 / n)%nat, ((j / 6) mod n)%nat, (j mod 6)%nat.
  pose proof (Nat.div_mod_eq j 6) as H6.
  pose proof (Nat.mod_upper_bound j 6 ltac:(lia)) as Ht.
  pose proof (Nat.div_mod_eq (j / 6) n) as Hc.
  pose proof (Nat.mod_upper_bound (j / 6) n Hn) as Hix.
  split; [|split; [exact Hix | split; [exact Ht | nia]]].
  apply Nat.Div0.div_lt_upper_bound. nia.
Qed.

(** X4: every element of the index buffer of a build is the index of a
    vertex of that build: it is at least 0 and below the vertex count
    [gridX1*gridY1], so the position buffer holds its three components. *)
Theorem indices_in_range (E : Engine) (p p' : Plane) (bufs : MeshBuffers)
        (j : nat) (e : Z) :
  _buildGrid E p = Ok p' ->
  geometry p' = Some bufs ->
  elems (indices bufs) !! j = Some e ->
  0 <= e < (gridX p + 1) * (gridY p + 1) /\
  (3 * Z.to_nat e + 2 < length (positions bufs))%nat.
Proof.
  intros Hb Hg He.
  destruct (built_grid_positive _ _ _ Hb) as [HX HY].
  destruct (built_lengths _ _ _ Hb) as (b0 & Eb0 & L1 & _ & _ & L4).
  rewrite Eb0 in Hg. simpl in Hg. injection Hg as ->.
  pose proof (lookup_lt_Some _ _ _ He) as Hj.
  destruct (cell_of_offset (Z.to_nat (gridX p)) (Z.to_nat (gridY p)) j)
    as (iy & ix & t & Hiy & Hix & Ht & ->); [nia|].
  pose proof (built_cell E p p' bufs ix iy Hb ltac:(rewrite Eb0; reflexivity)
                ltac:(lia) ltac:(lia)) as Hval.
  cbv zeta in Hval. destruct Hval as (E0 & E1 & E2 & E3 & E4 & E5).
  assert (Hmod : forall ty z, 0 <= z < (gridX p + 1) * (gridY p + 1) ->
                 0 <= to_element ty z < (gridX p + 1) * (gridY p + 1)).
  { intros ty z Hz. unfold to_element.
    assert (0 < 2 ^ bits ty) by (destruct ty; reflexivity).
    pose proof (Z.mod_pos_bound z (2 ^ bits ty) ltac:(lia)).
    pose proof (Z.mod_le z (2 ^ bits ty) ltac:(lia) ltac:(lia)). lia. }
  assert (Hrange : 0 <= e < (gridX p + 1) * (gridY p + 1)).
  { destruct t as [|[|[|[|[|[|t]]]]]]; [| | | | | |lia].
    - rewrite Nat.add_0_r, E0 in He. injection He as <-. apply Hmod. nia.
    - rewrite E1 in He. injection He as <-. apply Hmod. nia.
    - rewrite E2 in He. injection He as <-. apply Hmod. nia.
    - rewrite E3 in He. injection He as <-. apply Hmod. nia.
    - rewrite E4 in He. injection He as <-. apply Hmod. nia.
    - rewrite E5 in He. injection He as <-. apply Hmod. nia. }
  split; [exact Hrange | lia].
Qed.

Lemma indices_in_range_witness :
  exists bufs,
    _buildGrid sample_engine plane_2x2 = Ok (with_geometry bufs plane_2x2) /\
    elems (indices bufs) !! 22%nat = Some 9 /\
    0 <= 9 < (gridX plane_2x2 + 1) * (gridY plane_2x2 + 1) /\
    (3 * Z.to_nat 9 + 2 < length (positions bufs))%nat.
Proof.
  destruct plane_2x2_builds as (bufs & Hb).
  assert (He : elems (indices bufs) !! 22%nat = Some 9).
  { revert Hb. vm_compute. intros [= <-]. reflexivity. }
  exists bufs. split; [exact Hb|]. split; [exact He|].
  exact (indices_in_range sample_engine plane_2x2 (with_geometry bufs plane_2x2) bufs
           22 9 Hb eq_refl He).
Defined.

(** ** The order of the vertices *)

(** The coordinate [i * (s / g) - s / 2] as the loop computes it, each
    operation rounded to a double. *)
Lemma centred_coordinate (s : Q) (g : Z) (i : nat) :
  g <> 0 ->
  double_sub (double_mul (of_nat i) (double_div (Fin s) (of_Z g)))
             (double_div (Fin s) (Fin 2))
  = Fin (to_double (to_double (inject_Z (Z.of_nat i) * to_double (s / inject_Z g))
                    - to_double (s / 2))).
Proof.
  intros Hg. unfold double_sub, double_mul, double_div, num_div, of_nat, of_Z.
  rewrite (inject_Z_nonzero g Hg). change (Qeq_bool 2 0) with false. reflexivity.
Qed.

(** It does not decrease with [i]: every rounding is monotone. *)
Lemma centred_coordinate_le (s : Q) (g : Z) (i j : nat) :
  (0 <= s)%Q -> 0 < g -> (i <= j)%nat ->
  (to_double (to_double (inject_Z (Z.of_nat i) * to_double (s / inject_Z g))
              - to_double (s / 2))
   <= to_double (to_double (inject_Z (Z.of_nat j) * to_double (s / inject_Z g))
                 - to_double (s / 2)))%Q.
Proof.
  intros Hs Hg Hij.
  assert (Hseg : (0 <= to_double (s / inject_Z g))%Q).
  { apply to_double_nonneg. apply Qle_shift_div_l; [unfold Qlt; simpl; lia | lra]. }
  assert (Hi : (inject_Z (Z.of_nat i) <= inject_Z (Z.of_nat j))%Q)
    by (unfold Qle; simpl; lia).
  pose proof (Qmult_le_compat_r _ _ _ Hi Hseg) as Hm.
  apply to_double_le in Hm.
  apply to_double_le. lra.
Qed.

(** In the first column and the first row the coordinate is half the
    size, as a double, below zero. *)
Lemma centred_coordinate_first (s : Q) (g : Z) :
  (to_double (to_double (inject_Z (Z.of_nat 0) * to_double (s / inject_Z g))
              - to_double (s / 2))
   == - to_double (s / 2))%Q.
Proof.
  assert (E0 : (inject_Z (Z.of_nat 0) * to_double (s / inject_Z g) == 0)%Q)
    by (change (inject_Z (Z.of_nat 0)) with 0%Q; ring).
  rewrite (to_double_comp _ _ E0). destruct round_units as (-> & _).
  assert (E1 : (0 - to_double (s / 2) == - to_double (s / 2))%Q) by ring.
  rewrite (to_double_comp _ _ E1). unfold to_double at 1. rewrite round_opp.
  fold (to_double (to_double (s / 2))).
  pose proof (to_double_is_double (s / 2)) as Hd. unfold is_double in Hd.
  rewrite Hd. reflexivity.
Qed.

(** X5: with finite non-negative sizes within the range of singles the
    vertices of a build are in order: the stored [x] is the same down a
    column and does not decrease from a column to the next, the stored [y]
    is the same along a row and does not increase from a row to the next;
    the first column is at the single nearest to [-width/2] and the first
    row at the single nearest to [height/2] (the halves taken as
    doubles). *)
Theorem vertices_ordered (E : Engine) (p p' : Plane) (b : MeshBuffers) (w h : Q)
        (ix ix' iy iy' : nat) :
  _buildGrid E p = Ok p' ->
  geometry p' = Some b ->
  _xSize p = Num (Fin w) -> _ySize p = Num (Fin h) ->
  (0 <= w <= max_float32)%Q -> (0 <= h <= max_float32)%Q ->
  (ix <= ix')%nat -> Z.of_nat ix' < gridX p + 1 ->
  (iy <= iy')%nat -> Z.of_nat iy' < gridY p + 1 ->
  let n := Z.to_nat (gridX p + 1) in
  exists x x' y y' : Q,
    positions b !! (3 * (iy * n + ix))%nat = Some (Fin x) /\
    positions b !! (3 * (iy' * n + ix'))%nat = Some (Fin x') /\
    positions b !! (3 * (iy * n + ix) + 1)%nat = Some (Fin y) /\
    positions b !! (3 * (iy' * n + ix') + 1)%nat = Some (Fin y') /\
    (x <= x')%Q /\ (y' <= y)%Q /\
    (ix = ix' -> x = x') /\ (iy = iy' -> y = y') /\
    (ix = 0%nat -> (x == - to_float32 (to_double (w / 2)))%Q) /\
    (iy = 0%nat -> (y == to_float32 (to_double (h / 2)))%Q).
Proof.
  intros Hb Hg Hw Hh [Hw0 _] [Hh0 _] Hix Hix' Hiy Hiy'. cbv zeta.
  destruct (built_grid_positive _ _ _ Hb) as [HX HY].
  destruct (built_vertex_position E p p' b ix iy Hb Hg ltac:(lia) ltac:(lia))
    as (Px & Py & _).
  destruct (built_vertex_position E p p' b ix' iy' Hb Hg Hix' Hiy')
    as (Px' & Py' & _).
  rewrite Hw in Px, Px'. rewrite Hh in Py, Py'. cbn [ToNumber] in Px, Px', Py, Py'.
  rewrite (centred_coordinate w (gridX p)) in Px, Px' by lia.
  rewrite (centred_coordinate h (gridY p)) in Py, Py' by lia.
  cbn [float32_element num_neg] in Px, Px', Py, Py'.
  eexists _, _, _, _.
  split; [exact Px|]. split; [exact Px'|]. split; [exact Py|]. split; [exact Py'|].
  split; [apply to_float32_le, centred_coordinate_le; [exact Hw0 | lia | exact Hix]|].
  split.
  { apply to_float32_le.
    pose proof (centred_coordinate_le h (gridY p) iy iy' Hh0 ltac:(lia) Hiy). lra. }
  split; [intros ->; reflexivity|]. split; [intros ->; reflexivity|].
  split; intros ->.
  - rewrite (to_float32_comp _ _ (centred_coordinate_first w (gridX p))).
    unfold to_float32. rewrite round_opp. reflexivity.
  - assert (E0 : (- to_double (to_double (inject_Z (Z.of_nat 0)
                                           * to_double (h / inject_Z (gridY p)))
                               - to_double (h / 2))
                  == - - to_double (h / 2))%Q)
      by (rewrite (centred_coordinate_first h (gridY p)); reflexivity).
    rewrite (to_float32_comp _ _ E0), Qopp_opp_eq. reflexivity.
Qed.

Lemma vertices_ordered_witness :
  exists b x x' y y',
    _buildGrid sample_engine plane_thirds = Ok (with_geometry b plane_thirds) /\
    positions b !! 3%nat = Some (Fin x) /\
    positions b !! 18%nat = Some (Fin x') /\
    positions b !! 4%nat = Some (Fin y) /\
    positions b !! 19%nat = Some (Fin y') /\
    (x <= x')%Q /\ (y' <= y)%Q.
Proof.
  destruct (_buildGrid_total sample_engine plane_thirds ltac:(vm_compute; reflexivity))
    as (b & _ & Hb).
  destruct (vertices_ordered sample_engine plane_thirds (with_geometry b plane_thirds)
              b 1 1 1 2 0 1 Hb eq_refl eq_refl eq_refl
              ltac:(split; vm_compute; discriminate)
              ltac:(split; vm_compute; discriminate)
              ltac:(lia) ltac:(vm_compute; reflexivity)
              ltac:(lia) ltac:(vm_compute; reflexivity))
    as (x & x' & y & y' & Px & Px' & Py & Py' & Hx & Hy & _).
  exists b, x, x', y, y'.
  split; [exact Hb|]. split; [exact Px|]. split; [exact Px'|].
  split; [exact Py|]. split; [exact Py'|]. split; [exact Hx | exact Hy].
Defined.

(** The rounded coordinates need not stay within half the width of the
    origin: with width 0.1 the first column is stored at
    -0.05000000074505806, left of [-width/2]. *)
Example first_column_outside :
  match _buildGrid sample_engine (with_xSize (Num (Fin (to_double (1 # 10)))) plane_2x2) with
  | Ok p =>
      option_map (fun b => positions b !! 0%nat) (geometry p)
      = Some (Some (Fin (-13421773 # 268435456))) /\
      (-13421773 # 268435456 < - (to_double (1 # 10) / 2))%Q
  | RangeError => False
  end.
Proof. vm_compute. split; reflexivity. Qed.

(** ** When the build throws *)

Lemma Qfloor_negative q : Qfloor q < 0 <-> (q < 0)%Q.
Proof.
  pose proof (Qfloor_le q) as Hle. pose proof (Qlt_floor q) as Hlt.
  split; intros H.
  - assert (inject_Z (Qfloor q + 1) <= 0)%Q by (unfold Qle; simpl; lia). lra.
  - assert (inject_Z (Qfloor q) < 0)%Q as H' by lra.
    unfold Qlt in H'; simpl in H'. lia.
Qed.

(** The horizontal count is negative exactly when [lod] and [xSegments]
    are numbers whose double product is negative. *)
Lemma gridX_negative p :
  gridX p < 0 <->
  exists l xs,
    _lod p = Num (Fin l) /\ _xSegments p = Num (Fin xs) /\ (to_double (l * xs) < 0)%Q.
Proof.
  unfold gridX, grid, fst.
  destruct (_lod p) as [|[|l]];
    try (split; [cbn; lia | intros (? & ? & ? & _); discriminate]).
  destruct (_xSegments p) as [|[|xs]];
    try (split; [cbn; lia | intros (? & ? & _ & ? & _); discriminate]).
  unfold ToNumber, double_mul, num_mul, double, Math_floor, int_or.
  destruct (Z.eqb_spec (Qfloor (to_double (l * xs))) 0) as [E0|E0].
  - split; [lia|]. intros (l' & xs' & [= <-] & [= <-] & H).
    apply Qfloor_negative in H. lia.
  - split.
    + intros H. exists l, xs. split; [reflexivity|]. split; [reflexivity|].
      apply Qfloor_negative, H.
    + intros (l' & xs' & [= <-] & [= <-] & H). apply Qfloor_negative, H.
Qed.

Lemma grants_false E s len :
  grants E s len = false <-> len < 0 \/ max_length < len \/ E s len = false.
Proof.
  unfold grants. rewrite !andb_false_iff, !Z.leb_gt. tauto.
Qed.

(** X6: the build throws a [RangeError] exactly when the horizontal count
    is negative, or a buffer would be longer than the language allows, or
    the engine refuses one of the four arrays; and the horizontal count
    is negative exactly when [lod] and [xSegments] are numbers whose
    double product is negative.  With any other fields, unset ones and
    [NaN] included, the build returns. *)
Theorem build_throws_iff (E : Engine) (p : Plane) :
  let vertices := (gridX p + 1) * (gridY p + 1) in
  let cells := gridX p * gridY p in
  let ty := if 65535 <? vertices then Uint32Array else Uint16Array in
  (_buildGrid E p = RangeError <->
   gridX p < 0 \/
   max_length < vertices * 3 \/ max_length < cells * 6 \/
   E Positions (vertices * 3) = false \/ E Normals (vertices * 3) = false \/
   E Uvs (vertices * 2) = false \/ E (Indices ty) (cells * 6) = false) /\
  (gridX p < 0 <->
   exists l xs,
     _lod p = Num (Fin l) /\ _xSegments p = Num (Fin xs) /\
     (to_double (l * xs) < 0)%Q).
Proof.
  cbv zeta. split; [|apply gridX_negative].
  rewrite _buildGrid_RangeError. unfold allocates. cbv zeta.
  rewrite !andb_false_iff, !grants_false.
  pose proof (gridY_cases p) as HY.
  assert (Hm : 0 <= max_length) by (vm_compute; discriminate).
  set (ty := if 65535 <? (gridX p + 1) * (gridY p + 1) then Uint32Array else Uint16Array).
  split.
  - intros [[[H|H]|H]|H]; destruct H as [H|[H|H]]; try tauto.
    + left. nia.
    + left. nia.
    + left. nia.
    + right. left. lia.
    + left. nia.
  - intros [H|[H|[H|[H|[H|[H|H]]]]]]; try tauto.
    destruct (Z.eq_dec (gridX p) (-1)) as [E1|E1].
    + right. left. nia.
    + left. left. left. left. nia.
Qed.

(** ** What a rebuild depends on *)

Lemma _buildGrid_fields E p q :
  (forall k, get k p = get k q) ->
  _buildGrid E q
  = match _buildGrid E p with
    | Ok p' =>
        match geometry p' with
        | Some b => Ok (with_geometry b q)
        | None => RangeError
        end
    | RangeError => RangeError
    end.
Proof.
  intros H.
  pose proof (H lod) as Hl. pose proof (H xSize) as Hw. pose proof (H ySize) as Hh.
  pose proof (H xSegments) as Hxs. pose proof (H ySegments) as Hys.
  simpl in Hl, Hw, Hh, Hxs, Hys.
  unfold _buildGrid, grid. rewrite <- Hl, <- Hw, <- Hh, <- Hxs, <- Hys.
  cbv zeta.
  match goal with
  | |- context [build_buffers ?e ?a ?b ?c ?d] => destruct (build_buffers e a b c d)
  end; reflexivity.
Qed.

(** X7: the buffers a rebuild produces depend on the five fields only,
    not on the flag, on [autoNormals] or on the buffers already there; so
    rebuilding a second time gives the same component again. *)
Theorem rebuild_depends_on_fields (E : Engine) (p q p' : Plane) :
  (forall k, get k p = get k q) ->
  _buildGrid E p = Ok p' ->
  (exists q', _buildGrid E q = Ok q' /\ geometry q' = geometry p') /\
  _buildGrid E p' = Ok p'.
Proof.
  intros H Hb.
  destruct (_buildGrid_Ok _ _ _ Hb) as (b & _ & Ep).
  split.
  - rewrite (_buildGrid_fields E p q H), Hb, Ep. simpl.
    eexists. split; reflexivity.
  - rewrite (_buildGrid_fields E p p'), Hb, Ep; [reflexivity|].
    intros k. rewrite Ep. destruct k; reflexivity.
Qed.

Lemma rebuild_depends_on_fields_witness :
  exists p',
    _buildGrid sample_engine plane_2x2 = Ok p' /\
    (exists q', _buildGrid sample_engine (with_dirty true plane_2x2) = Ok q' /\
                geometry q' = geometry p') /\
    _buildGrid sample_engine p' = Ok p'.
Proof.
  destruct plane_2x2_builds as (b & Hb).
  exists (with_geometry b plane_2x2). split; [exact Hb|].
  apply (rebuild_depends_on_fields sample_engine plane_2x2 (with_dirty true plane_2x2)
           (with_geometry b plane_2x2)); [|exact Hb].
  intros k. destruct k; reflexivity.
Defined.

(** ** Construction *)

Lemma strict_eq_undefined x : x <> undefined -> strict_eq undefined x = false.
Proof. destruct x as [|[|q]]; [congruence | reflexivity | reflexivity]. Qed.

(** A setter run on a field that is still unset always gets past its
    guard. *)
Lemma set_unset k v w :
  get k (self w) = undefined ->
  let w' := set k v w in
  __dirty (self w') = true /\
  tick2 w' = (if __dirty (self w) then tick2 w else S (tick2 w)) /\
  fired w' = fired w ++ [(name k, get k (self w'))] /\
  geometry (self w') = geometry (self w).
Proof.
  intros Hu. cbv zeta. rewrite set_scheme.
  destruct (setter_past_guard k v w) as (Hd & Ht & Hg & _ & _ & Hf & Hgeo).
  { rewrite Hu. apply strict_eq_undefined, defaulted_defined. }
  rewrite Hg. auto.
Qed.

(** X8: whatever the configuration, the constructor leaves every field
    sanitized, the grid marked dirty with exactly one rebuild pending and
    no buffers yet, and has fired five notifications, for xSize, ySize,
    xSegments, ySegments and lod in that order, each carrying the value
    stored; [autoNormals] is true unless the configuration has it false. *)
Theorem constructor_effects (cfg : Config) :
  let w := _init cfg new_World in
  sanitized (self w) /\
  __dirty (self w) = true /\ tick2 w = 1%nat /\ geometry (self w) = None /\
  fired w = [("xSize"%string, _xSize (self w)); ("ySize"%string, _ySize (self w));
             ("xSegments"%string, _xSegments (self w));
             ("ySegments"%string, _ySegments (self w));
             ("lod"%string, _lod (self w))] /\
  autoNormals (self w)
  = match cfg_autoNormals cfg with Some false => false | _ => true end.
Proof.
  cbv zeta. split; [apply init_sanitized|].
  change (_init cfg new_World) with
    (update (with_autoNormals
               match cfg_autoNormals cfg with Some false => false | _ => true end)
       (set lod (cfg_lod cfg)
          (set ySegments (cfg_ySegments cfg)
             (set xSegments (cfg_xSegments cfg)
                (set ySize (cfg_ySize cfg)
                   (set xSize (cfg_xSize cfg) new_World)))))).
  set (w1 := set xSize (cfg_xSize cfg) new_World).
  set (w2 := set ySize (cfg_ySize cfg) w1).
  set (w3 := set xSegments (cfg_xSegments cfg) w2).
  set (w4 := set ySegments (cfg_ySegments cfg) w3).
  set (w5 := set lod (cfg_lod cfg) w4).
  destruct (set_unset xSize (cfg_xSize cfg) new_World eq_refl)
    as (D1 & T1 & F1 & G1). fold w1 in D1, T1, F1, G1.
  destruct (set_unset ySize (cfg_ySize cfg) w1) as (D2 & T2 & F2 & G2).
  { unfold w1. rewrite set_other by discriminate. reflexivity. }
  fold w2 in D2, T2, F2, G2.
  destruct (set_unset xSegments (cfg_xSegments cfg) w2) as (D3 & T3 & F3 & G3).
  { unfold w2, w1. rewrite !set_other by discriminate. reflexivity. }
  fold w3 in D3, T3, F3, G3.
  destruct (set_unset ySegments (cfg_ySegments cfg) w3) as (D4 & T4 & F4 & G4).
  { unfold w3, w2, w1. rewrite !set_other by discriminate. reflexivity. }
  fold w4 in D4, T4, F4, G4.
  destruct (set_unset lod (cfg_lod cfg) w4) as (D5 & T5 & F5 & G5).
  { unfold w4, w3, w2, w1. rewrite !set_other by discriminate. reflexivity. }
  fold w5 in D5, T5, F5, G5.
  rewrite D1 in T2. rewrite D2 in T3. rewrite D3 in T4. rewrite D4 in T5.
  simpl in T1.
  unfold update; simpl.
  split; [exact D5|]. split; [congruence|].
  split; [rewrite G5, G4, G3, G2, G1; reflexivity|].
  split; [|reflexivity].
  rewrite F5, F4, F3, F2, F1. simpl.
  assert (E1 : get xSize (self w1) = get xSize (self w5)).
  { unfold w5, w4, w3, w2. rewrite !set_other by discriminate. reflexivity. }
  assert (E2 : get ySize (self w2) = get ySize (self w5)).
  { unfold w5, w4, w3. rewrite !set_other by discriminate. reflexivity. }
  assert (E3 : get xSegments (self w3) = get xSegments (self w5)).
  { unfold w5, w4. rewrite !set_other by discriminate. reflexivity. }
  assert (E4 : get ySegments (self w4) = get ySegments (self w5)).
  { unfold w5. rewrite !set_other by discriminate. reflexivity. }
  simpl in E1, E2, E3, E4. rewrite E1, E2, E3, E4. reflexivity.
Qed.

(** ** The life of a constructed component *)

(** X9: in every state a constructed component can reach, by setter
    calls, by ticks that return or throw, and by setter calls made while
    a callback runs, the fields are sanitized; at most one rebuild is
    pending, and only while the flag is set; and while the flag is clear
    the component has buffers. *)
Theorem constructed_well_formed (w : World) :
  constructed w ->
  sanitized (self w) /\
  (tick2 w <= 1)%nat /\
  (tick2 w = 1%nat -> __dirty (self w) = true) /\
  (__dirty (self w) = false -> exists b, geometry (self w) = Some b).
Proof.
  intros Hc. destruct (constructed_invariant w Hc) as (Hs & Ht & Hg).
  split; [exact Hs|].
  split; [destruct (__dirty (self w)); lia|].
  split; [destruct (__dirty (self w)); [reflexivity | lia]|].
  intros Hd. specialize (Hg Hd).
  destruct (geometry (self w)) as [b|]; [eauto | contradiction].
Qed.

Lemma constructed_well_formed_witness :
  (sanitized (self (world_of (fire_tick2_during sample_engine
                                (sets [(lod, Num (Fin (1 # 2)))]) default_World))) /\
   (tick2 (world_of (fire_tick2_during sample_engine
                       (sets [(lod, Num (Fin (1 # 2)))]) default_World)) <= 1)%nat) /\
  (sanitized (self (world_of (fire_tick2 sample_engine
                                (set xSegments (Num (Fin (inject_Z (10 ^ 12))))
                                     default_World)))) /\
   (tick2 (world_of (fire_tick2 sample_engine
                       (set xSegments (Num (Fin (inject_Z (10 ^ 12))))
                            default_World))) <= 1)%nat).
Proof.
  split.
  - destruct (constructed_well_formed
                (world_of (fire_tick2_during sample_engine
                             (sets [(lod, Num (Fin (1 # 2)))]) default_World)))
      as (Hs & Ht & _); [|split; [exact Hs | exact Ht]].
    apply constructed_tick, constructed_init.
  - destruct (constructed_well_formed
                (world_of (fire_tick2 sample_engine
                             (set xSegments (Num (Fin (inject_Z (10 ^ 12))))
                                  default_World))))
      as (Hs & Ht & _); [|split; [exact Hs | exact Ht]].
    apply (constructed_tick sample_engine []), constructed_set, constructed_init.
Defined.

(** After a tick whose rebuild threw, the flag is set and nothing is
    pending: no setter call schedules a rebuild and no tick runs one. *)
Lemma stuck_dirty ms E' w :
  __dirty (self w) = true -> tick2 w = 0%nat ->
  tick2 (sets ms w) = 0%nat /\
  __dirty (self (sets ms w)) = true /\
  geometry (self (sets ms w)) = geometry (self w) /\
  fire_tick2 E' (sets ms w) = Returned (sets ms w).
Proof.
  intros Hd Ht. destruct (sets_while_dirty ms w Hd) as [Hd' Ht'].
  split; [lia|]. split; [exact Hd'|]. split; [apply sets_geometry|].
  apply tick_idle. lia.
Qed.

(** X10: the tick of a constructed component.  With nothing pending it
    changes nothing.  With a rebuild pending it runs it once: when the
    rebuild returns, the flag is clear, nothing is pending, no field has
    changed and a second tick changes nothing; when the rebuild throws,
    the tick throws, the flag stays set with nothing pending, and from
    then on no setter call schedules a rebuild and no tick runs one, so
    the buffers stay as they were.  The tick returns whenever the engine
    provides the four arrays. *)
Theorem tick_of_constructed (E : Engine) (w : World) :
  constructed w ->
  (tick2 w = 0%nat \/ tick2 w = 1%nat) /\
  (tick2 w = 0%nat -> fire_tick2 E w = Returned w) /\
  (tick2 w = 1%nat ->
   match _buildGrid E (self w) with
   | Ok p' =>
       let w' := mkWorld (with_dirty false p') 0 (warnings w) (fired w) in
       fire_tick2 E w = Returned w' /\
       (forall k, get k (self w') = get k (self w)) /\
       forall E', fire_tick2 E' w' = Returned w'
   | RangeError =>
       let w' := mkWorld (self w) 0 (warnings w) (fired w) in
       fire_tick2 E w = Thrown w' /\
       __dirty (self w') = true /\
       forall ms E',
         tick2 (sets ms w') = 0%nat /\
         __dirty (self (sets ms w')) = true /\
         geometry (self (sets ms w')) = geometry (self w) /\
         fire_tick2 E' (sets ms w') = Returned (sets ms w')
   end) /\
  (allocates E (gridX (self w)) (gridY (self w)) = true ->
   exists w', fire_tick2 E w = Returned w').
Proof.
  intros Hc. destruct (constructed_invariant w Hc) as (Hs & Ht & _).
  assert (H01 : tick2 w = 0%nat \/ tick2 w = 1%nat)
    by (destruct (__dirty (self w)); lia).
  assert (H1 : tick2 w = 1%nat ->
               match _buildGrid E (self w) with
               | Ok p' =>
                   let w' := mkWorld (with_dirty false p') 0 (warnings w) (fired w) in
                   fire_tick2 E w = Returned w' /\
                   (forall k, get k (self w') = get k (self w)) /\
                   forall E', fire_tick2 E' w' = Returned w'
               | RangeError =>
                   let w' := mkWorld (self w) 0 (warnings w) (fired w) in
                   fire_tick2 E w = Thrown w' /\
                   __dirty (self w') = true /\
                   forall ms E',
                     tick2 (sets ms w') = 0%nat /\
                     __dirty (self (sets ms w')) = true /\
                     geometry (self (sets ms w')) = geometry (self w) /\
                     fire_tick2 E' (sets ms w') = Returned (sets ms w')
               end).
  { intros Et.
    assert (Hd : __dirty (self w) = true)
      by (destruct (__dirty (self w)); [reflexivity | lia]).
    unfold fire_tick2. rewrite (tick_pending E id w Et).
    destruct (_buildGrid E (self w)) as [p'|] eqn:Hb; cbv zeta.
    - destruct (_buildGrid_Ok _ _ _ Hb) as (b & _ & Ep).
      split; [rewrite (tick2_callback_during_Ok E id _ p') by exact Hb; reflexivity|].
      split; [intros k; rewrite Ep; destruct k; reflexivity|].
      intros E'. apply tick_idle. reflexivity.
    - split; [apply tick2_callback_during_RangeError; exact Hb|].
      split; [exact Hd|].
      intros ms E'.
      apply (stuck_dirty ms E' (mkWorld (self w) 0 (warnings w) (fired w)));
        [exact Hd | reflexivity]. }
  split; [exact H01|]. split; [apply tick_idle|]. split; [exact H1|].
  intros A. destruct H01 as [E0|E1].
  - exists w. apply tick_idle, E0.
  - specialize (H1 E1). destruct (_buildGrid_total E _ A) as (b & _ & Hb).
    rewrite Hb in H1. destruct H1 as (H & _). eauto.
Qed.

Lemma tick_of_constructed_witness :
  (exists w',
     fire_tick2 sample_engine (sets sample_edits default_World) = Returned w' /\
     __dirty (self w') = false /\ tick2 w' = 0%nat) /\
  (fire_tick2 sample_engine
     (set xSegments (Num (Fin (inject_Z (10 ^ 12)))) default_World)
   = Thrown (mkWorld (self (set xSegments (Num (Fin (inject_Z (10 ^ 12)))) default_World))
               0
               (warnings (set xSegments (Num (Fin (inject_Z (10 ^ 12)))) default_World))
               (fired (set xSegments (Num (Fin (inject_Z (10 ^ 12)))) default_World))) /\
   tick2 (set lod (Num (Fin (1 # 2)))
            (mkWorld (self (set xSegments (Num (Fin (inject_Z (10 ^ 12)))) default_World))
               0
               (warnings (set xSegments (Num (Fin (inject_Z (10 ^ 12)))) default_World))
               (fired (set xSegments (Num (Fin (inject_Z (10 ^ 12)))) default_World))))
   = 0%nat).
Proof.
  split.
  - destruct (tick_of_constructed sample_engine (sets sample_edits default_World))
      as (_ & _ & H1 & _).
    { apply (constructed_set lod (Num (Fin (1 # 2)))
               (set ySegments (Num (Fin 8)) default_World)).
      apply (constructed_set ySegments (Num (Fin 8)) default_World).
      apply constructed_init. }
    specialize (H1 ltac:(vm_compute; reflexivity)).
    destruct (_buildGrid sample_engine (self (sets sample_edits default_World)))
      as [p'|] eqn:Hb.
    + destruct H1 as (H & _). eexists. split; [exact H|]. split; reflexivity.
    + exfalso. revert Hb. vm_compute. discriminate.
  - destruct (tick_of_constructed sample_engine
                (set xSegments (Num (Fin (inject_Z (10 ^ 12)))) default_World))
      as (_ & _ & H1 & _).
    { apply constructed_set, constructed_init. }
    specialize (H1 ltac:(vm_compute; reflexivity)).
    destruct (_buildGrid sample_engine
                (self (set xSegments (Num (Fin (inject_Z (10 ^ 12)))) default_World)))
      as [p'|] eqn:Hb.
    + exfalso. revert Hb. vm_compute. discriminate.
    + destruct H1 as (H & _ & Hstuck). split; [exact H|].
      exact (proj1 (Hstuck [(lod, Num (Fin (1 # 2)))] sample_engine)).
Defined.

(** ** What a setter call does and does not do *)

Lemma autoNormals_store k u p : autoNormals (store k u p) = autoNormals p.
Proof. destruct k; reflexivity. Qed.

Lemma setter_autoNormals k v w :
  autoNormals (self (setter k v w)) = autoNormals (self w).
Proof.
  unfold setter. destruct (strict_eq _ _); [reflexivity|].
  unfold fire, _gridDirty, update; simpl.
  destruct (out_of_range k (defaulted k v)); simpl;
    rewrite dirty_store; destruct (__dirty (self w)); simpl;
    apply autoNormals_store.
Qed.

(** X11: a setter call never rebuilds and never touches what is not its
    own: the buffers, [autoNormals] and the other four fields are as
    before. *)
Theorem setter_frame (k : property) (v : value) (w : World) :
  geometry (self (set k v w)) = geometry (self w) /\
  autoNormals (self (set k v w)) = autoNormals (self w) /\
  (forall k', k <> k' -> get k' (self (set k v w)) = get k' (self w)).
Proof.
  split; [rewrite set_scheme; apply setter_geometry|].
  split; [rewrite set_scheme; apply setter_autoNormals|].
  intros k' Hk. apply set_other, Hk.
Qed.

(** X12: a setter call either changes nothing at all, or fires exactly
    one notification, named after the property and carrying the value now
    stored, which is one the setter can store; in that case the grid is
    marked dirty, and a callback is registered exactly when the flag was
    clear before. *)
Theorem one_notification_per_change (k : property) (v : value) (w : World) :
  set k v w = w \/
  (fired (set k v w) = fired w ++ [(name k, get k (self (set k v w)))] /\
   storable k (get k (self (set k v w))) /\
   __dirty (self (set k v w)) = true /\
   tick2 (set k v w) = (if __dirty (self w) then tick2 w else S (tick2 w))).
Proof.
  rewrite set_scheme.
  destruct (strict_eq (get k (self w)) (defaulted k v)) eqn:E.
  - left. apply setter_guard, E.
  - right. destruct (setter_past_guard k v w E) as (Hd & Ht & Hg & _ & _ & Hf & _).
    rewrite Hg. split; [exact Hf|]. split; [apply stored_for_storable|].
    split; [exact Hd | exact Ht].
Qed.

(** Which inputs a setter corrects. *)
Lemma out_of_range_acceptable k v :
  out_of_range k (defaulted k v) = false <-> acceptable k v.
Proof.
  assert (Hsize : forall d, (0 < d)%Q ->
            js_lt (js_or v (Num (Fin d))) (Num (Fin 0)) = false <->
            match v with Num (Fin q) => (0 <= q)%Q | _ => True end).
  { intros d Hd. unfold js_or, js_lt.
    destruct v as [|[|q]]; simpl ToBoolean; cbv iota.
    - split; [auto | intros _; apply num_lt_Fin_false; lra].
    - split; [auto | intros _; apply num_lt_Fin_false; lra].
    - destruct (Qeq_bool q 0) eqn:E; simpl negb; cbv iota; unfold ToNumber.
      + apply Qeq_bool_iff in E. split; [intros _; lra|].
        intros _. apply num_lt_Fin_false. lra.
      + apply num_lt_Fin_false. }
  destruct k; cbn [defaulted out_of_range].
  - destruct v as [|[|q]]; simpl.
    + split; [auto | reflexivity].
    + split; [auto | reflexivity].
    + unfold js_lt, js_gt, ToNumber.
      destruct (num_lt (Fin q) (Fin 0)) eqn:E0;
        destruct (num_lt (Fin 1) (Fin q)) eqn:E1; simpl;
        try apply num_lt_Fin in E0; try apply num_lt_Fin in E1;
        try apply num_lt_Fin_false in E0; try apply num_lt_Fin_false in E1;
        split; try discriminate; try (intros [H0 H1]; specialize (H1 eq_refl); lra);
        intros _; split; [lra | intros _; lra].
  - rewrite (Hsize 1%Q) by lra. destruct v as [|[|q]]; simpl; try tauto.
    split; [intros H; split; [exact H | discriminate] | intros [H _]; exact H].
  - rewrite (Hsize (1 # 4)%Q) by lra. destruct v as [|[|q]]; simpl; try tauto.
    split; [intros H; split; [exact H | discriminate] | intros [H _]; exact H].
  - rewrite (Hsize 4%Q) by lra. destruct v as [|[|q]]; simpl; try tauto.
    split; [intros H; split; [exact H | discriminate] | intros [H _]; exact H].
  - rewrite (Hsize 4%Q) by lra. destruct v as [|[|q]]; simpl; try tauto.
    split; [intros H; split; [exact H | discriminate] | intros [H _]; exact H].
Qed.

(** X13: a setter warns only when it corrects its input: an acceptable
    input (not negative and, for [lod], not above 1) is never warned
    about, and any other input that gets past the guard adds exactly the
    warning of that property. *)
Theorem warnings_only_when_corrected (k : property) (v : value) (w : World) :
  (acceptable k v -> warnings (set k v w) = warnings w) /\
  (~ acceptable k v -> set k v w <> w ->
   warnings (set k v w) = warnings w ++ [warning k]).
Proof.
  rewrite set_scheme.
  destruct (strict_eq (get k (self w)) (defaulted k v)) eqn:E.
  - rewrite (setter_guard _ _ _ E). split; [reflexivity|].
    intros _ H. exfalso. apply H. reflexivity.
  - destruct (setter_past_guard k v w E) as (_ & _ & _ & _ & Hw & _).
    rewrite Hw. split.
    + intros Ha. apply out_of_range_acceptable in Ha. rewrite Ha. apply app_nil_r.
    + intros Hn _. destruct (out_of_range k (defaulted k v)) eqn:Eo; [reflexivity|].
      exfalso. apply Hn, out_of_range_acceptable, Eo.
Qed.

Lemma warnings_only_when_corrected_witness :
  warnings (set ySegments (Num (Fin 9)) default_World) = warnings default_World /\
  warnings (set lod (Num (Fin 2)) default_World)
  = warnings default_World ++ [warning lod].
Proof.
  split.
  - apply (proj1 (warnings_only_when_corrected ySegments (Num (Fin 9)) default_World)).
    split; [q_literal | discriminate].
  - apply (proj2 (warnings_only_when_corrected lod (Num (Fin 2)) default_World)).
    + intros [_ H]. specialize (H eq_refl). revert H. q_literal.
    + intros H. apply (f_equal (fun w => length (fired w))) in H.
      vm_compute in H. discriminate.
Defined.

(** ** Sanitizing, case by case *)

Lemma negative_input k q :
  k <> lod -> (q < 0)%Q ->
  defaulted k (Num (Fin q)) = Num (Fin q) /\
  out_of_range k (Num (Fin q)) = true /\
  stored_for k (Num (Fin q)) = Num (Fin (q * -1)).
Proof.
  intros Hk Hq.
  assert (Hlt : js_lt (Num (Fin q)) (Num (Fin 0)) = true).
  { apply num_lt_Fin. exact Hq. }
  assert (Hor : forall d, js_or (Num (Fin q)) d = Num (Fin q)).
  { intros d. unfold js_or; simpl. rewrite Qeq_bool_nonzero; [reflexivity | lra]. }
  unfold stored_for.
  destruct k; try contradiction; cbn [defaulted out_of_range correction];
    rewrite ?Hor, Hlt; auto.
Qed.

(** X14: a negative size or segment count, assigned to a field that is
    unset or holds a positive value, is stored with its sign flipped: the
    field then holds [q * -1], which equals [-q]; the setter warns once
    and the notification carries the flipped value. *)
Theorem sign_correction (k : property) (q : Q) (w : World) :
  k <> lod ->
  (q < 0)%Q ->
  get k (self w) = undefined \/ positive (get k (self w)) ->
  let w' := set k (Num (Fin q)) w in
  get k (self w') = Num (Fin (q * -1)) /\
  strict_eq (get k (self w')) (Num (Fin (- q))) = true /\
  warnings w' = warnings w ++ [warning k] /\
  fired w' = fired w ++ [(name k, Num (Fin (q * -1)))].
Proof.
  intros Hk Hq Hst. cbv zeta. rewrite set_scheme.
  destruct (negative_input k q Hk Hq) as (Hd & Ho & Hs).
  destruct (setter_past_guard k (Num (Fin q)) w) as (_ & _ & Hg & _ & Hw & Hf & _).
  { rewrite Hd. destruct Hst as [-> | Hp]; [reflexivity|].
    destruct (get k (self w)) as [|[|s]]; try contradiction.
    apply strict_eq_Fin_false. simpl in Hp. lra. }
  rewrite Hd, Hs in Hg, Hf. rewrite Hd, Ho in Hw.
  split; [exact Hg|]. split; [|split; [exact Hw | exact Hf]].
  rewrite Hg. apply strict_eq_Fin. ring.
Qed.

Lemma sign_correction_witness :
  get xSize (self (set xSize (Num (Fin (-3))) default_World))
  = Num (Fin (-3 * -1)) /\
  strict_eq (get xSize (self (set xSize (Num (Fin (-3))) default_World)))
            (Num (Fin (- (-3)))) = true /\
  warnings (set xSize (Num (Fin (-3))) default_World)
  = warnings default_World ++ [warning xSize] /\
  fired (set xSize (Num (Fin (-3))) default_World)
  = fired default_World ++ [(name xSize, Num (Fin (-3 * -1)))].
Proof.
  apply (sign_correction xSize (-3) default_World).
  - discriminate.
  - q_literal.
  - right. vm_compute. reflexivity.
Defined.

(** X15: a falsy input ([undefined], [NaN] or zero) to a size or segment
    setter leaves the field equal to the default of that property (1 for
    xSize, 0.25 for ySize, 4 for the segment counts), whatever it held,
    and is not warned about. *)
Theorem falsy_input_defaults (k : property) (v : value) (w : World) :
  k <> lod ->
  ToBoolean v = false ->
  strict_eq (get k (self (set k v w))) (default_value k) = true /\
  warnings (set k v w) = warnings w.
Proof.
  intros Hk Hv. rewrite set_scheme.
  assert (Hd : defaulted k v = default_value k /\
               out_of_range k (default_value k) = false /\
               strict_eq (default_value k) (default_value k) = true).
  { unfold js_or. destruct k; try contradiction;
      cbn [defaulted default_value out_of_range]; unfold js_or; rewrite Hv;
      repeat split; reflexivity. }
  destruct Hd as (Hd & Ho & Hrefl).
  destruct (strict_eq (get k (self w)) (defaulted k v)) eqn:E.
  - rewrite (setter_guard _ _ _ E). rewrite Hd in E. auto.
  - destruct (setter_past_guard k v w E) as (_ & _ & Hg & _ & Hw & _).
    rewrite Hd in Hg, Hw. unfold stored_for in Hg. rewrite Ho in Hg, Hw.
    rewrite Hg, Hw. split; [exact Hrefl | apply app_nil_r].
Qed.

Lemma falsy_input_defaults_witness :
  strict_eq (get ySize (self (set ySize (Num (Fin 0))
                                (set ySize (Num (Fin 5)) default_World))))
            (default_value ySize) = true /\
  warnings (set ySize (Num (Fin 0)) (set ySize (Num (Fin 5)) default_World))
  = warnings (set ySize (Num (Fin 5)) default_World).
Proof.
  apply (falsy_input_defaults ySize (Num (Fin 0))
           (set ySize (Num (Fin 5)) default_World)).
  - discriminate.
  - reflexivity.
Defined.

(** ** Level of detail *)

(** X16: assigning zero to [lod] keeps zero (it is not replaced by the
    default as a zero size would be) and is not warned about; with
    sanitized fields the grid is then the coarsest one, a single column
    of four cells. *)
Theorem lod_zero_coarsest (q : Q) (w : World) :
  sanitized (self w) ->
  (q == 0)%Q ->
  let w' := set lod (Num (Fin q)) w in
  strict_eq (_lod (self w')) (Num (Fin 0)) = true /\
  grid (self w') = (1, 4) /\
  warnings w' = warnings w.
Proof.
  intros Hs Hq. cbv zeta.
  pose proof (set_sanitized lod (Num (Fin q)) w Hs) as Hs'.
  assert (Hacc : acceptable lod (Num (Fin q))) by (simpl; split; [|intros _]; lra).
  assert (H0 : strict_eq (_lod (self (set lod (Num (Fin q)) w))) (Num (Fin 0)) = true /\
               warnings (set lod (Num (Fin q)) w) = warnings w).
  { rewrite set_scheme.
    destruct (strict_eq (get lod (self w)) (defaulted lod (Num (Fin q)))) eqn:E.
    - rewrite (setter_guard _ _ _ E). split; [|reflexivity].
      cbn [get defaulted] in E. simpl negb in E. cbv iota in E.
      destruct (_lod (self w)) as [|[|l]]; try discriminate.
      apply strict_eq_Fin in E. apply strict_eq_Fin. lra.
    - destruct (setter_past_guard lod (Num (Fin q)) w E) as (_ & _ & Hg & _ & Hw & _).
      apply out_of_range_acceptable in Hacc.
      unfold stored_for in Hg. rewrite Hacc in Hg, Hw.
      cbn [get defaulted] in Hg. simpl negb in Hg. cbv iota in Hg.
      rewrite Hg, Hw. split; [apply strict_eq_Fin; exact Hq | apply app_nil_r]. }
  destruct H0 as [Hl Hw]. split; [exact Hl|]. split; [|exact Hw].
  destruct Hs' as [_ _ Hxs Hys _].
  destruct (_lod (self (set lod (Num (Fin q)) w))) as [|[|l]] eqn:El; try discriminate.
  destruct (_xSegments (self (set lod (Num (Fin q)) w))) as [|[|xs]] eqn:Exs;
    try contradiction.
  destruct (_ySegments (self (set lod (Num (Fin q)) w))) as [|[|ys]] eqn:Eys;
    try contradiction.
  rewrite (grid_finite _ l xs ys El Exs Eys).
  apply strict_eq_Fin in Hl.
  assert (Ex : (l * xs == 0)%Q) by (rewrite Hl; ring).
  assert (Ey : (l * ys == 0)%Q) by (rewrite Hl; ring).
  rewrite (to_double_comp _ _ Ex), (to_double_comp _ _ Ey).
  destruct round_units as (-> & _). reflexivity.
Qed.

Lemma lod_zero_coarsest_witness :
  strict_eq (_lod (self (set lod (Num (Fin 0)) default_World))) (Num (Fin 0)) = true /\
  grid (self (set lod (Num (Fin 0)) default_World)) = (1, 4) /\
  warnings (set lod (Num (Fin 0)) default_World) = warnings default_World.
Proof.
  apply (lod_zero_coarsest 0 default_World);
    [exact default_World_sanitized | reflexivity].
Defined.

(** X17: raising [lod] never lowers a segment count: with positive
    requested counts and [0 <= l1 <= l2], both effective counts at [l1]
    are at most those at [l2]. *)
Theorem lod_monotone (p : Plane) (l1 l2 : Q) :
  positive (_xSegments p) ->
  positive (_ySegments p) ->
  (0 <= l1 <= l2)%Q ->
  gridX (with_lod (Num (Fin l1)) p) <= gridX (with_lod (Num (Fin l2)) p) /\
  gridY (with_lod (Num (Fin l1)) p) <= gridY (with_lod (Num (Fin l2)) p).
Proof.
  intros Hxs Hys Hl.
  destruct (_xSegments p) as [|[|xs]] eqn:Exs; try contradiction.
  destruct (_ySegments p) as [|[|ys]] eqn:Eys; try contradiction.
  simpl in Hxs, Hys.
  unfold gridX, gridY.
  rewrite (grid_finite (with_lod (Num (Fin l1)) p) l1 xs ys eq_refl Exs Eys).
  rewrite (grid_finite (with_lod (Num (Fin l2)) p) l2 xs ys eq_refl Exs Eys).
  cbn [fst snd].
  assert (Hx : (l1 * xs <= l2 * xs)%Q) by (apply Qmult_le_compat_r; lra).
  assert (Hy : (l1 * ys <= l2 * ys)%Q) by (apply Qmult_le_compat_r; lra).
  assert (H1 : (0 <= l1 * xs)%Q) by (apply Qmult_le_0_compat; lra).
  assert (H2 : (0 <= l2 * xs)%Q) by lra.
  apply to_double_le, Qfloor_resp_le in Hx, Hy.
  apply to_double_nonneg, Qfloor_nonneg in H1, H2.
  rewrite !int_or_max by assumption. lia.
Qed.

Lemma lod_monotone_witness :
  gridX (with_lod (Num (Fin (1 # 4))) (self default_World))
  <= gridX (with_lod (Num (Fin (3 # 4))) (self default_World)) /\
  gridY (with_lod (Num (Fin (1 # 4))) (self default_World))
  <= gridY (with_lod (Num (Fin (3 # 4))) (self default_World)).
Proof.
  apply (lod_monotone (self default_World) (1 # 4) (3 # 4)).
  - vm_compute. reflexivity.
  - vm_compute. reflexivity.
  - q_literal.
Defined.

(** A rational just below 3 that is not a double: the double product
    [1 * xs] is 3, above the floor of [xs].  The bound below is therefore
    stated for doubles, and through the nearest double otherwise. *)
Example count_of_non_double :
  let xs := (3 - 1 / 2 ^ 60)%Q in
  ~ is_double xs /\ Qfloor xs = 2 /\
  gridX (with_xSegments (Num (Fin xs)) (self default_World)) = 3.
Proof.
  cbv zeta. split; [|split; vm_compute; reflexivity].
  unfold is_double. intros H. vm_compute in H. discriminate.
Qed.

(** X18: with [lod] in [0, 1] and positive requested counts, which are
    doubles as every number a program holds is, the effective counts
    never exceed [max(1, floor(xSegments))] and [max(4, floor(ySegments))],
    and at [lod = 1] they equal them.  (For a rational that is not a
    double the bound is the floor of the double nearest to it.) *)
Theorem effective_counts_bounded (p : Plane) (l xs ys : Q) :
  _lod p = Num (Fin l) ->
  _xSegments p = Num (Fin xs) ->
  _ySegments p = Num (Fin ys) ->
  (0 <= l <= 1)%Q -> (0 < xs)%Q -> (0 < ys)%Q ->
  (gridX p <= Z.max 1 (Qfloor (to_double xs)) /\
   gridY p <= Z.max 4 (Qfloor (to_double ys)) /\
   ((l == 1)%Q ->
    gridX p = Z.max 1 (Qfloor (to_double xs)) /\
    gridY p = Z.max 4 (Qfloor (to_double ys)))) /\
  (is_double xs -> is_double ys ->
   gridX p <= Z.max 1 (Qfloor xs) /\
   gridY p <= Z.max 4 (Qfloor ys) /\
   ((l == 1)%Q ->
    gridX p = Z.max 1 (Qfloor xs) /\ gridY p = Z.max 4 (Qfloor ys))).
Proof.
  intros Hl Hxs Hys Rl Rxs Rys.
  assert (Hgen :
    gridX p <= Z.max 1 (Qfloor (to_double xs)) /\
    gridY p <= Z.max 4 (Qfloor (to_double ys)) /\
    ((l == 1)%Q ->
     gridX p = Z.max 1 (Qfloor (to_double xs)) /\
     gridY p = Z.max 4 (Qfloor (to_double ys)))).
  { unfold gridX, gridY. rewrite (grid_finite p l xs ys Hl Hxs Hys). cbn [fst snd].
    assert (H1 : (0 <= l * xs)%Q) by (apply Qmult_le_0_compat; lra).
    assert (Hx : (l * xs <= xs)%Q).
    { assert (0 <= (1 - l) * xs)%Q by (apply Qmult_le_0_compat; lra). lra. }
    assert (Hy : (l * ys <= ys)%Q).
    { assert (0 <= (1 - l) * ys)%Q by (apply Qmult_le_0_compat; lra). lra. }
    apply to_double_le, Qfloor_resp_le in Hx, Hy.
    apply to_double_nonneg, Qfloor_nonneg in H1.
    rewrite int_or_max by assumption.
    split; [lia|]. split; [lia|].
    intros E1.
    assert (Ex : (l * xs == xs)%Q) by (rewrite E1; ring).
    assert (Ey : (l * ys == ys)%Q) by (rewrite E1; ring).
    rewrite (to_double_comp _ _ Ex), (to_double_comp _ _ Ey). auto. }
  split; [exact Hgen|].
  intros Dx Dy. unfold is_double in Dx, Dy.
  rewrite (Qfloor_comp _ _ Dx), (Qfloor_comp _ _ Dy) in Hgen. exact Hgen.
Qed.

Lemma effective_counts_bounded_witness :
  gridX (self default_World) <= Z.max 1 (Qfloor 4) /\
  gridY (self default_World) <= Z.max 4 (Qfloor 4) /\
  ((1 == 1)%Q ->
   gridX (self default_World) = Z.max 1 (Qfloor 4) /\
   gridY (self default_World) = Z.max 4 (Qfloor 4)).
Proof.
  apply (proj2 (effective_counts_bounded (self default_World) 1 4 4
                  eq_refl eq_refl eq_refl
                  ltac:(q_literal) ltac:(q_literal) ltac:(q_literal)));
    vm_compute; reflexivity.
Defined.

(** ** Repeated and degenerate assignments *)

Lemma strict_eq_refl x : x <> Num NaN -> strict_eq x x = true.
Proof.
  destruct x as [|[|q]]; [reflexivity | congruence |].
  intros _. apply strict_eq_Fin. reflexivity.
Qed.

Lemma defaulted_NaN k v : defaulted k v = Num NaN -> k = lod /\ v = Num NaN.
Proof.
  destruct k; cbn [defaulted].
  - destruct v as [|[|q]]; simpl; intros H; try discriminate. auto.
  - destruct (js_or_finite v 1) as (q & -> & _); [lra | discriminate].
  - destruct (js_or_finite v (1 # 4)) as (q & -> & _); [lra | discriminate].
  - destruct (js_or_finite v 4) as (q & -> & _); [lra | discriminate].
  - destruct (js_or_finite v 4) as (q & -> & _); [lra | discriminate].
Qed.

(** X19: assigning the same acceptable input twice in a row does nothing
    the second time (a [NaN] lod apart, which never equals itself): no
    second notification, no warning, the world after the second call is
    the world after the first. *)
Theorem repeated_assignment_absorbed (k : property) (v : value) (w : World) :
  acceptable k v ->
  ~ (k = lod /\ v = Num NaN) ->
  set k v (set k v w) = set k v w.
Proof.
  intros Ha Hn. rewrite !set_scheme.
  destruct (strict_eq (get k (self w)) (defaulted k v)) eqn:E.
  - rewrite (setter_guard _ _ _ E). apply setter_guard, E.
  - apply setter_guard.
    destruct (setter_past_guard k v w E) as (_ & _ & Hg & _).
    rewrite Hg. unfold stored_for.
    apply out_of_range_acceptable in Ha. rewrite Ha.
    apply strict_eq_refl. intros H. apply Hn, defaulted_NaN, H.
Qed.

Lemma repeated_assignment_absorbed_witness :
  set xSegments (Num (Fin 16)) (set xSegments (Num (Fin 16)) default_World)
  = set xSegments (Num (Fin 16)) default_World.
Proof.
  apply repeated_assignment_absorbed.
  - split; [q_literal | discriminate].
  - intros [H _]. discriminate.
Defined.

(** X20: a [NaN] assigned to [lod] is neither clamped nor warned about:
    in any state it is stored as it is, fires a notification and marks
    the grid dirty, every time, since [NaN] never equals the stored value;
    the grid it gives is one column of one cell, below the four rows
    otherwise kept. *)
Theorem NaN_lod_unclamped (w : World) :
  let w' := set lod (Num NaN) w in
  _lod (self w') = Num NaN /\
  grid (self w') = (1, 1) /\
  warnings w' = warnings w /\
  fired w' = fired w ++ [("lod"%string, Num NaN)] /\
  __dirty (self w') = true.
Proof.
  cbv zeta. rewrite set_scheme.
  destruct (setter_past_guard lod (Num NaN) w) as (Hd & _ & Hg & _ & Hw & Hf & _).
  { cbn [get defaulted]. simpl negb. cbv iota.
    destruct (_lod (self w)) as [|[|l]]; reflexivity. }
  cbn [get] in Hg.
  change (stored_for lod (defaulted lod (Num NaN))) with (Num NaN) in Hg, Hf.
  change (out_of_range lod (defaulted lod (Num NaN))) with false in Hw.
  rewrite app_nil_r in Hw.
  split; [exact Hg|]. split; [|split; [exact Hw | split; [exact Hf | exact Hd]]].
  unfold grid. rewrite Hg. reflexivity.
Qed.

(** ** The snapshot *)

(** X21: a snapshot of sanitized fields, passed as the configuration of a
    new component, restores xSize, ySize, xSegments and ySegments
    exactly; [lod] is not part of the snapshot and comes back as the
    default 1, whatever it was. *)
Theorem snapshot_restores_shape (p : Plane) :
  sanitized p ->
  let w := _init (cfg_of_JSON (_getJSON p)) new_World in
  _xSize (self w) = _xSize p /\
  _ySize (self w) = _ySize p /\
  _xSegments (self w) = _xSegments p /\
  _ySegments (self w) = _ySegments p /\
  _lod (self w) = Num (Fin 1) /\
  warnings w = [].
Proof.
  intros Hs. cbv zeta.
  change (cfg_of_JSON (_getJSON p)) with
    (mkConfig (_xSize p) (_ySize p) (_xSegments p) (_ySegments p) undefined None).
  change (_init (mkConfig (_xSize p) (_ySize p) (_xSegments p) (_ySegments p)
                          undefined None) new_World)
    with (update (with_autoNormals true)
            (set lod undefined
               (set ySegments (_ySegments p)
                  (set xSegments (_xSegments p)
                     (set ySize (_ySize p)
                        (set xSize (_xSize p) new_World)))))).
  set (w1 := set xSize (_xSize p) new_World).
  set (w2 := set ySize (_ySize p) w1).
  set (w3 := set xSegments (_xSegments p) w2).
  set (w4 := set ySegments (_ySegments p) w3).
  set (w5 := set lod undefined w4).
  assert (Hstep : forall k v w0,
            get k (self w0) = undefined -> acceptable k v ->
            get k (self (set k v w0)) = defaulted k v /\
            warnings (set k v w0) = warnings w0).
  { intros k v w0 Hu Ha. rewrite set_scheme.
    destruct (setter_past_guard k v w0) as (_ & _ & Hg & _ & Hw & _).
    { rewrite Hu. apply strict_eq_undefined, defaulted_defined. }
    apply out_of_range_acceptable in Ha. unfold stored_for in Hg.
    rewrite Ha in Hg, Hw. rewrite app_nil_r in Hw. auto. }
  assert (Hpos : forall k v, k <> lod -> positive v ->
            acceptable k v /\ defaulted k v = v).
  { intros k v Hk Hp. destruct v as [|[|q]]; try contradiction. simpl in Hp.
    split; [split; [lra | intros; contradiction]|].
    assert (Hor : forall d, js_or (Num (Fin q)) d = Num (Fin q)).
    { intros d. unfold js_or; simpl. rewrite Qeq_bool_nonzero; [reflexivity | lra]. }
    destruct k; try contradiction; cbn [defaulted]; apply Hor. }
  destruct Hs as [P1 P2 P3 P4 _].
  destruct (Hpos xSize _ ltac:(discriminate) P1) as [A1 D1].
  destruct (Hpos ySize _ ltac:(discriminate) P2) as [A2 D2].
  destruct (Hpos xSegments _ ltac:(discriminate) P3) as [A3 D3].
  destruct (Hpos ySegments _ ltac:(discriminate) P4) as [A4 D4].
  destruct (Hstep xSize (_xSize p) new_World eq_refl A1) as [G1 W1].
  destruct (Hstep ySize (_ySize p) w1) as [G2 W2]; [|exact A2|].
  { unfold w1. rewrite set_other by discriminate. reflexivity. }
  destruct (Hstep xSegments (_xSegments p) w2) as [G3 W3]; [|exact A3|].
  { unfold w2, w1. rewrite !set_other by discriminate. reflexivity. }
  destruct (Hstep ySegments (_ySegments p) w3) as [G4 W4]; [|exact A4|].
  { unfold w3, w2, w1. rewrite !set_other by discriminate. reflexivity. }
  destruct (Hstep lod undefined w4) as [G5 W5]; [|exact I|].
  { unfold w4, w3, w2, w1. rewrite !set_other by discriminate. reflexivity. }
  rewrite D1 in G1. rewrite D2 in G2. rewrite D3 in G3. rewrite D4 in G4.
  change (defaulted lod undefined) with (Num (Fin 1)) in G5.
  fold w1 in G1, W1. fold w2 in G2, W2. fold w3 in G3, W3. fold w4 in G4, W4.
  fold w5 in G5, W5.
  change (self (update (with_autoNormals true) w5))
    with (with_autoNormals true (self w5)).
  change (warnings (update (with_autoNormals true) w5)) with (warnings w5).
  change (_xSize (with_autoNormals true (self w5))) with (get xSize (self w5)).
  change (_ySize (with_autoNormals true (self w5))) with (get ySize (self w5)).
  change (_xSegments (with_autoNormals true (self w5))) with (get xSegments (self w5)).
  change (_ySegments (with_autoNormals true (self w5))) with (get ySegments (self w5)).
  change (_lod (with_autoNormals true (self w5))) with (get lod (self w5)).
  split; [unfold w5, w4, w3, w2; rewrite !set_other by discriminate; exact G1|].
  split; [unfold w5, w4, w3; rewrite !set_other by discriminate; exact G2|].
  split; [unfold w5, w4; rewrite !set_other by discriminate; exact G3|].
  split; [unfold w5; rewrite !set_other by discriminate; exact G4|].
  split; [exact G5|].
  rewrite W5, W4, W3, W2, W1. reflexivity.
Qed.

Lemma snapshot_restores_shape_witness :
  _xSize (self (_init (cfg_of_JSON (_getJSON plane_lod0)) new_World))
  = _xSize plane_lod0 /\
  _ySize (self (_init (cfg_of_JSON (_getJSON plane_lod0)) new_World))
  = _ySize plane_lod0 /\
  _xSegments (self (_init (cfg_of_JSON (_getJSON plane_lod0)) new_World))
  = _xSegments plane_lod0 /\
  _ySegments (self (_init (cfg_of_JSON (_getJSON plane_lod0)) new_World))
  = _ySegments plane_lod0 /\
  _lod (self (_init (cfg_of_JSON (_getJSON plane_lod0)) new_World)) = Num (Fin 1) /\
  warnings (_init (cfg_of_JSON (_getJSON plane_lod0)) new_World) = [].
Proof.
  apply (snapshot_restores_shape plane_lod0).
  constructor; simpl; q_literal.
Defined.

(** ** Reading back what was assigned *)

(** X22: an acceptable number, non-zero for the sizes and segment counts,
    reads back as assigned: after the setter call the getter returns a
    value strictly equal to the input, whatever the field held before. *)
Theorem read_after_write (k : property) (q : Q) (w : World) :
  acceptable k (Num (Fin q)) ->
  k = lod \/ ~ (q == 0)%Q ->
  strict_eq (get k (self (set k (Num (Fin q)) w))) (Num (Fin q)) = true.
Proof.
  intros Ha Hnz. rewrite set_scheme.
  assert (Hd : defaulted k (Num (Fin q)) = Num (Fin q)).
  { destruct k; cbn [defaulted]; [reflexivity| | | |];
      (destruct Hnz as [H|H]; [discriminate|]);
      unfold js_or; simpl; rewrite (Qeq_bool_nonzero q H); reflexivity. }
  destruct (strict_eq (get k (self w)) (defaulted k (Num (Fin q)))) eqn:E.
  - rewrite (setter_guard _ _ _ E). rewrite Hd in E. exact E.
  - destruct (setter_past_guard k (Num (Fin q)) w E) as (_ & _ & Hg & _).
    rewrite Hg. unfold stored_for.
    apply out_of_range_acceptable in Ha. rewrite Ha, Hd.
    apply strict_eq_Fin. reflexivity.
Qed.

Lemma read_after_write_witness :
  strict_eq (get ySize (self (set ySize (Num (Fin (7 # 2))) default_World)))
            (Num (Fin (7 # 2))) = true.
Proof.
  apply (read_after_write ySize (7 # 2) default_World).
  - split; [q_literal | discriminate].
  - right. intros H. revert H. unfold Qeq; simpl. lia.
Defined.

(** ** Triangles *)

(** X23: no triangle of a build is degenerate: the three indices of each
    triangle of the index buffer are pairwise different (the vertex count
    being within the range of the 32-bit element type). *)
Theorem triangles_nondegenerate (E : Engine) (p p' : Plane) (bufs : MeshBuffers)
        (t : nat) (e1 e2 e3 : Z) :
  _buildGrid E p = Ok p' ->
  geometry p' = Some bufs ->
  (gridX p + 1) * (gridY p + 1) <= 2 ^ 32 ->
  elems (indices bufs) !! (3 * t)%nat = Some e1 ->
  elems (indices bufs) !! (3 * t + 1)%nat = Some e2 ->
  elems (indices bufs) !! (3 * t + 2)%nat = Some e3 ->
  e1 <> e2 /\ e2 <> e3 /\ e1 <> e3.
Proof.
  intros Hb Hg H32 H1 H2 H3.
  destruct (built_grid_positive _ _ _ Hb) as [HX HY].
  destruct (built_lengths _ _ _ Hb) as (b0 & Eb0 & _ & _ & _ & L4).
  assert (Eb : b0 = bufs) by (rewrite Eb0 in Hg; simpl in Hg; congruence).
  subst b0.
  pose proof (lookup_lt_Some _ _ _ H3) as Hj.
  destruct (cell_of_offset (Z.to_nat (gridX p)) (Z.to_nat (gridY p)) (3 * t))
    as (iy & ix & s & Hiy & Hix & Hs & Et); [nia|].
  pose proof (built_cell E p p' bufs ix iy Hb Hg ltac:(lia) ltac:(lia)) as Hval.
  cbv zeta in Hval.
  rewrite !(built_element_exact E p p' bufs _ Hb Hg H32) in Hval by nia.
  destruct Hval as (E0 & E1 & E2 & E3 & E4 & E5).
  assert (Hs' : s = 0%nat \/ s = 3%nat) by lia.
  destruct Hs' as [-> | ->].
  - rewrite Nat.add_0_r in Et. rewrite Et in H1, H2, H3.
    rewrite E0 in H1. rewrite E1 in H2. rewrite E2 in H3.
    injection H1 as <-. injection H2 as <-. injection H3 as <-. nia.
  - replace (3 * t + 1)%nat with (6 * (iy * Z.to_nat (gridX p) + ix) + 4)%nat in H2 by lia.
    replace (3 * t + 2)%nat with (6 * (iy * Z.to_nat (gridX p) + ix) + 5)%nat in H3 by lia.
    rewrite Et in H1.
    rewrite E3 in H1. rewrite E4 in H2. rewrite E5 in H3.
    injection H1 as <-. injection H2 as <-. injection H3 as <-. nia.
Qed.

Lemma triangles_nondegenerate_witness :
  exists bufs,
    _buildGrid sample_engine plane_2x2 = Ok (with_geometry bufs plane_2x2) /\
    elems (indices bufs) !! 21%nat = Some 7 /\
    elems (indices bufs) !! 22%nat = Some 9 /\
    elems (indices bufs) !! 23%nat = Some 8 /\
    7 <> 9 /\ 9 <> 8 /\ 7 <> 8.
Proof.
  destruct plane_2x2_builds as (bufs & Hb).
  assert (He : elems (indices bufs) !! 21%nat = Some 7 /\
               elems (indices bufs) !! 22%nat = Some 9 /\
               elems (indices bufs) !! 23%nat = Some 8).
  { revert Hb. vm_compute. intros [= <-]. repeat split; reflexivity. }
  destruct He as (H1 & H2 & H3).
  exists bufs. split; [exact Hb|].
  split; [exact H1|]. split; [exact H2|]. split; [exact H3|].
  exact (triangles_nondegenerate sample_engine plane_2x2 (with_geometry bufs plane_2x2)
           bufs 7 7 9 8 Hb eq_refl ltac:(vm_compute; discriminate) H1 H2 H3).
Defined.
